(** * Survey analysis scripts: a shallow embedding and its properties

    The repository holds two linear analysis scripts:

    - [needfinding_eval/needfinding_results.py]: classifies questions by
      their text, counts answers, orders categories and draws bar and pie
      charts;
    - [initial_prototypes_eval/prototype_analysis.py]: Likert statistics,
      a chi-squared omnibus test per question, pairwise Kolmogorov-Smirnov
      tests with Bonferroni correction, and the ranking questions.

    Conventions of the embedding.

    - Python [str] is [string]; the texts are taken to be ASCII, so
      [str.lower] maps [A-Z] to [a-z] and leaves every other character.
      The parse of the Likert answers does not rely on this: there
      [str.isdigit] and [int], which tell Unicode digits apart and can
      raise, are parameters.
    - A Python [dict] (and [Counter]) is an insertion-ordered association
      list with unique keys, see [Dict].
    - Python [int] is [Z].  In the statistics a Python [float] is the
      exact rational [Q] that the operation has in exact arithmetic; the
      values NaN and infinity that the scripts can produce are explicit
      constructors of [npfloat].  Exact arithmetic is an idealisation:
      numpy and scipy round every operation to binary64.  Where the
      rounding decides a property, the order of the groups in the
      chi-squared statistic, the computation is also given in binary64,
      see [Binary64].
    - A computation that can raise returns a [result]: a value or the
      exception.  A function of scipy returns [None] for the [ValueError]
      it raises.
    - The functions of scipy that the scripts call are parameters of the
      sections below; [Scipy.chi2_contingency] is the Pearson test as
      scipy documents it, in exact arithmetic, and
      [Binary64.chi2_contingency] the same test in binary64. *)

From Stdlib Require Import String Ascii List Bool ZArith QArith Lia.
From Stdlib Require Lqa.
From Stdlib Require PrimFloat Uint63.
From Stdlib Require Import Qminmax Qabs Permutation Sorted Reals Qreals.
Import ListNotations.

Local Open Scope string_scope.
Local Open Scope list_scope.
Local Open Scope Z_scope.

(** ** Python strings *)

Module PyStr.

(** The double-quote character, code 34. *)
Definition dquote : string := String "034"%char EmptyString.

(** [c.lower()] for an ASCII character. *)
Definition lower_ascii (c : ascii) : ascii :=
  let n := nat_of_ascii c in
  if (Nat.leb 65 n && Nat.leb n 90)%bool then ascii_of_nat (n + 32) else c.

(** [s.lower()]. *)
Fixpoint lower (s : string) : string :=
  match s with
  | EmptyString => EmptyString
  | String c s' => String (lower_ascii c) (lower s')
  end.

(** [s.startswith(p)]. *)
Fixpoint startswith (p s : string) : bool :=
  match p, s with
  | EmptyString, _ => true
  | String a p', String b s' => (Ascii.eqb a b && startswith p' s')%bool
  | String _ _, EmptyString => false
  end.

(** [p in s]: [p] occurs in [s] as a contiguous substring. *)
Fixpoint contains (p s : string) : bool :=
  (startswith p s ||
   match s with
   | EmptyString => false
   | String _ s' => contains p s'
   end)%bool.

(** [s in l] for a list of strings. *)
Definition mem (s : string) (l : list string) : bool :=
  existsb (String.eqb s) l.

(** Truth value of a string: non-empty. *)
Definition truthy (s : string) : bool :=
  match s with EmptyString => false | String _ _ => true end.

(** Whitespace of [str.strip()], ASCII part. *)
Definition is_space (c : ascii) : bool :=
  let n := nat_of_ascii c in
  ((Nat.leb 9 n && Nat.leb n 13) || (Nat.leb 28 n && Nat.leb n 32))%bool.

Fixpoint lstrip (s : string) : string :=
  match s with
  | EmptyString => EmptyString
  | String c s' => if is_space c then lstrip s' else s
  end.

(** [rstrip] keeps a character when it is not a space or when something
    is left after it. *)
Fixpoint rstrip (s : string) : string :=
  match s with
  | EmptyString => EmptyString
  | String c s' =>
      match rstrip s' with
      | EmptyString => if is_space c then EmptyString else String c EmptyString
      | r => String c r
      end
  end.

(** [s.strip()]. *)
Definition strip (s : string) : string := rstrip (lstrip s).

(** [s.split(sep)] for a one-character separator. *)
Fixpoint split (sep : ascii) (s : string) : list string :=
  match s with
  | EmptyString => [EmptyString]
  | String c s' =>
      if Ascii.eqb c sep then EmptyString :: split sep s'
      else match split sep s' with
           | [] => [String c EmptyString]
           | w :: ws => String c w :: ws
           end
  end.

(** On ASCII text [s.isdigit()] is: non-empty and the digits 0 to 9 only,
    and [int(s)] of such a string is its decimal value, or [ValueError]
    ([None]) past the 4300 digits that CPython converts by default.  Text
    outside ASCII is not described here: [str.isdigit] also accepts the
    digits of other scripts and digits such as a superscript two, which
    [int] rejects.  The script's parse of the answers therefore takes both
    functions as parameters, see [Prototype.numeric_answers]; these two
    instances serve the examples, whose answers are short and ASCII. *)
Definition is_digit (c : ascii) : bool :=
  let n := nat_of_ascii c in (Nat.leb 48 n && Nat.leb n 57)%bool.

Fixpoint all_digits (s : string) : bool :=
  match s with
  | EmptyString => true
  | String c s' => (is_digit c && all_digits s')%bool
  end.

Definition ascii_isdigit (s : string) : bool := (truthy s && all_digits s)%bool.

Fixpoint int_acc (acc : Z) (s : string) : Z :=
  match s with
  | EmptyString => acc
  | String c s' => int_acc (10 * acc + (Z.of_nat (nat_of_ascii c) - 48)) s'
  end.

Definition ascii_int (s : string) : option Z :=
  if Nat.ltb 4300 (String.length s) then None else Some (int_acc 0 s).

(** [s[:n]]. *)
Fixpoint take (n : nat) (s : string) : string :=
  match n, s with
  | S n', String c s' => String c (take n' s')
  | _, _ => EmptyString
  end.

End PyStr.

(** ** Python dictionaries, insertion ordered *)

Module Dict.

Definition t (V : Type) : Type := list (string * V).

Definition empty {V : Type} : t V := [].

(** [d.get(k)], [None] when the key is absent. *)
Fixpoint get {V : Type} (k : string) (d : t V) : option V :=
  match d with
  | [] => None
  | (k', v) :: d' => if String.eqb k k' then Some v else get k d'
  end.

(** [k in d]. *)
Definition has {V : Type} (k : string) (d : t V) : bool :=
  match get k d with Some _ => true | None => false end.

(** [d.get(k, dflt)]. *)
Definition get_default {V : Type} (k : string) (dflt : V) (d : t V) : V :=
  match get k d with Some v => v | None => dflt end.

(** [d[k] = v]: an existing key keeps its position, a new key goes last. *)
Fixpoint set {V : Type} (k : string) (v : V) (d : t V) : t V :=
  match d with
  | [] => [(k, v)]
  | (k', v') :: d' =>
      if String.eqb k k' then (k', v) :: d' else (k', v') :: set k v d'
  end.

Definition keys {V : Type} (d : t V) : list string := map fst d.
Definition values {V : Type} (d : t V) : list V := map snd d.
Definition items {V : Type} (d : t V) : list (string * V) := d.

(** [dict(l)] for a list of pairs. *)
Definition of_list {V : Type} (l : list (string * V)) : t V :=
  fold_left (fun d kv => set (fst kv) (snd kv) d) l empty.

(** A well-formed dictionary has no key twice. *)
Definition wf {V : Type} (d : t V) : Prop := NoDup (keys d).

End Dict.

(** One more occurrence of [x]. *)
Definition counter_step (d : Dict.t Z) (x : string) : Dict.t Z :=
  Dict.set x (Dict.get_default x 0 d + 1) d.

(** [Counter(l)]: one count per distinct element, in order of first
    occurrence. *)
Definition Counter (l : list string) : Dict.t Z :=
  fold_left counter_step l Dict.empty.

(** [sum(l)] for integers. *)
Definition zsum (l : list Z) : Z := fold_right Z.add 0 l.

(** ** needfinding_results.py *)

Module Needfinding.

(** A question object of the input file: [{id, text, answers}]. *)
Record question_data := mkQuestion {
  q_id : string;
  q_text : string;
  q_answers : list string
}.

Inductive question_type := skip | free_text | select_all | multiple_choice.

Definition free_text_phrases : list string :=
  [ "briefly describe";
    ("if you selected " ++ PyStr.dquote ++ "other" ++ PyStr.dquote)%string;
    "if you could magically conjure" ].

Definition identify_question_type (question : question_data) : question_type :=
  let question_text := PyStr.lower (q_text question) in
  if PyStr.contains "consent" question_text then skip
  else if existsb (fun phrase => PyStr.contains phrase question_text)
                  free_text_phrases then free_text
  else if PyStr.contains "select all that apply" question_text then select_all
  else multiple_choice.

(** The answers that count as no answer. *)
Definition no_answer3 : list string := ["n/a"; "na"; "none"].
Definition no_answer2 : list string := ["n/a"; "na"].

Definition process_select_all_question (answers : list string) : Dict.t Z :=
  let all_options :=
    flat_map (fun answer =>
      if (PyStr.truthy answer
          && negb (PyStr.mem (PyStr.lower answer) no_answer3))%bool
      then map PyStr.strip (PyStr.split ";"%char answer)
      else []) answers in
  Counter all_options.

Definition process_multiple_choice_question (answers : list string) : Dict.t Z :=
  let cleaned_answers :=
    filter (fun ans =>
      (PyStr.truthy ans && negb (PyStr.mem (PyStr.lower ans) no_answer2))%bool)
      answers in
  Counter cleaned_answers.

Definition times_order : list string :=
  ["0 times"; "1-2 times"; "3-5 times"; "6-10 times"; "11+ times"].

Definition trips_order : list string :=
  ["0 trips"; "1-2 trips"; "3-5 trips"; "6-10 trips"; "11+ trips"].

Definition tools_order : list string :=
  ["I use completely different tools/services/processes for different trips";
   "I mostly use different tools/services/processes for different trips";
   "Not really sure/It depends";
   "I mostly use the same tools/services/processes for both kinds of trips";
   "I use almost exactly the same tools/services/processes for both kinds of trips"].

Definition get_custom_order (question_text : string) : option (list string) :=
  let question_lower := PyStr.lower question_text in
  if (PyStr.contains "how many trips" question_lower
      || PyStr.contains "how many times" question_lower)%bool then
    if (PyStr.contains "how many times" question_lower
        || PyStr.contains "away from your home city" question_lower)%bool
    then Some times_order
    else Some trips_order
  else if PyStr.contains "same basic tools/processes" question_lower
  then Some tools_order
  else None.

(** Stable insertion into a list sorted by descending count: the new item
    goes before the first item whose count is not larger. *)
Fixpoint insert_desc (x : string * Z) (l : list (string * Z)) : list (string * Z) :=
  match l with
  | [] => [x]
  | y :: r => if snd y <=? snd x then x :: y :: r else y :: insert_desc x r
  end.

(** [sorted(items, key=lambda x: x[1], reverse=True)]: descending counts,
    items of equal count in their original order. *)
Definition sorted_desc (l : list (string * Z)) : list (string * Z) :=
  fold_right insert_desc [] l.

Definition order_data_for_chart (data : Dict.t Z) (question_text : string)
           (include_zeros : bool) : Dict.t Z :=
  match get_custom_order question_text with
  | Some custom_order =>
      let question_lower := PyStr.lower question_text in
      if (include_zeros
          && (PyStr.contains "how many trips" question_lower
              || PyStr.contains "how many times" question_lower))%bool
      then
        fold_left (fun ordered_data item =>
                     Dict.set item (Dict.get_default item 0 data) ordered_data)
                  custom_order Dict.empty
      else
        let ordered_data :=
          fold_left (fun ordered_data item =>
                       match Dict.get item data with
                       | Some count => Dict.set item count ordered_data
                       | None => ordered_data
                       end)
                    custom_order Dict.empty in
        fold_left (fun ordered_data kv =>
                     if Dict.has (fst kv) ordered_data then ordered_data
                     else Dict.set (fst kv) (snd kv) ordered_data)
                  (Dict.items data) ordered_data
  | None => Dict.of_list (sorted_desc (Dict.items data))
  end.

(** What a chart shows: its labels with their values, in drawing order. *)
Inductive chart :=
| BarChart (bars : Dict.t Z)
| PieChart (slices : Dict.t Z).

(** The bars drawn by [create_bar_chart]: labels and values of the data
    ordered with [include_zeros=True]. *)
Definition create_bar_chart (data : Dict.t Z) (question_text : string) : Dict.t Z :=
  order_data_for_chart data question_text true.

(** The slices drawn by [create_pie_chart]. *)
Definition create_pie_chart (data : Dict.t Z) (question_text : string) : Dict.t Z :=
  let sorted_data := order_data_for_chart data question_text false in
  if (8 <? length sorted_data)%nat then
    let top_items := Dict.of_list (firstn 7 (Dict.items sorted_data)) in
    let other_count := zsum (skipn 7 (Dict.values sorted_data)) in
    if 0 <? other_count
    then Dict.set "Other Categories" other_count top_items
    else top_items
  else sorted_data.

(** One entry of the results of [analyze_survey]. *)
Record result_entry := mkResult {
  r_question : string;
  r_type : question_type;
  r_statistics : Dict.t Z;
  r_total_responses : Z
}.

Definition total_responses (answers : list string) : Z :=
  Z.of_nat (length (filter (fun a =>
    (PyStr.truthy a && negb (PyStr.mem (PyStr.lower a) no_answer3))%bool)
    answers)).

(** The loop of [analyze_survey], threading the results and the figures. *)
Fixpoint analyze_loop (data : list question_data)
         (results : Dict.t result_entry) (figures : list chart)
  : Dict.t result_entry * list chart :=
  match data with
  | [] => (results, figures)
  | question_data :: rest =>
      let question_type := identify_question_type question_data in
      match question_type with
      | skip | free_text => analyze_loop rest results figures
      | _ =>
          let question_text := q_text question_data in
          let answers := q_answers question_data in
          let counter :=
            match question_type with
            | select_all => process_select_all_question answers
            | _ => process_multiple_choice_question answers
            end in
          match counter with
          | [] => analyze_loop rest results figures
          | _ :: _ =>
              let figures1 :=
                figures ++ [BarChart (create_bar_chart counter question_text)] in
              let figures2 :=
                match question_type with
                | multiple_choice =>
                    if (length counter <=? 10)%nat
                    then figures1 ++ [PieChart (create_pie_chart counter question_text)]
                    else figures1
                | _ => figures1
                end in
              analyze_loop rest
                (Dict.set (q_id question_data)
                   (mkResult question_text question_type counter
                             (total_responses answers)) results)
                figures2
          end
      end
  end.

(** [analyze_survey(data)]; the header line reads [data[0]], which raises
    on an empty input. *)
Definition analyze_survey (data : list question_data)
  : option (Dict.t result_entry * list chart) :=
  match data with
  | [] => None
  | _ :: _ => Some (analyze_loop data Dict.empty [])
  end.

End Needfinding.

(** ** Numbers of numpy and scipy *)

(** A float result: a finite value, positive infinity, or NaN.  (Negative
    infinity never arises in the scripts.) *)
Inductive npfloat (A : Type) : Type :=
| Fin (x : A)
| Inf
| NaN.
Arguments Fin {A} x.
Arguments Inf {A}.
Arguments NaN {A}.

(** Exceptions the scripts can meet; only [ValueError] is ever caught. *)
Inductive exception := ValueError | KeyError | StopIteration.

(** A computation that returns or raises. *)
Inductive result (A : Type) : Type :=
| Ok (a : A)
| Raise (e : exception).
Arguments Ok {A} a.
Arguments Raise {A} e.

Definition bind {A B : Type} (m : result A) (k : A -> result B) : result B :=
  match m with
  | Ok a => k a
  | Raise e => Raise e
  end.

Notation "x <- m ;; k" := (bind m (fun x => k))
  (at level 61, m at next level, right associativity).

(** [d[k]] raising [KeyError]. *)
Definition getitem {V : Type} (k : string) (d : Dict.t V) : result V :=
  match Dict.get k d with
  | Some v => Ok v
  | None => Raise KeyError
  end.

Module Np.

Definition Qltb (x y : Q) : bool := negb (Qle_bool y x).

(** [x < y] for a float [x] and a finite [y]; false on NaN. *)
Definition lt (x : npfloat Q) (y : Q) : bool :=
  match x with
  | Fin q => Qltb q y
  | Inf => false
  | NaN => false
  end.

(** [x * k] for a positive finite [k]. *)
Definition mul (x : npfloat Q) (k : Q) : npfloat Q :=
  match x with
  | Fin q => Fin (q * k)%Q
  | Inf => Inf
  | NaN => NaN
  end.

(** Python's [min(a, b)]: [b] when [b < a], else [a] (so NaN stays). *)
Definition min (a : npfloat Q) (b : Q) : npfloat Q :=
  match a with
  | Fin q => if Qltb b q then Fin b else Fin q
  | Inf => Fin b
  | NaN => NaN
  end.

(** [x / d] for [x >= 0] and an integer [d >= 0]: division by zero gives
    NaN for [0/0] and infinity otherwise. *)
Definition divide (x : Q) (d : Z) : npfloat Q :=
  if d =? 0 then (if Qeq_bool x 0 then NaN else Inf)
  else Fin (x / inject_Z d)%Q.

Definition qsum (l : list Q) : Q := fold_right Qplus 0%Q l.

(** [np.mean(values)] in exact arithmetic: the sum over the count.  numpy
    adds and divides in binary64; for values that are not negative and add
    up to at most 2^53 its sum is this sum, and its mean this quotient
    rounded to binary64. *)
Definition mean (values : list Z) : npfloat Q :=
  divide (inject_Z (zsum values)) (Z.of_nat (length values)).

Fixpoint insert_asc (x : Z) (l : list Z) : list Z :=
  match l with
  | [] => [x]
  | y :: r => if x <=? y then x :: y :: r else y :: insert_asc x r
  end.

Definition sort (l : list Z) : list Z := fold_right insert_asc [] l.

(** [np.median(values)]: the middle of the sorted values, the mean of the
    two middle ones for an even count, NaN for none. *)
Definition median (values : list Z) : npfloat Q :=
  let s := sort values in
  let n := length values in
  match n with
  | O => NaN
  | _ =>
      if Nat.even n
      then Fin ((inject_Z (nth (n / 2 - 1)%nat s 0%Z)
                 + inject_Z (nth (n / 2)%nat s 0%Z)) / 2)%Q
      else Fin (inject_Z (nth (n / 2)%nat s 0%Z))
  end.

(** The variance with [ddof] degrees of freedom removed: the squared
    deviations from the mean, summed and divided by [max(n - ddof, 0)]. *)
Definition var (values : list Z) (ddof : Z) : npfloat Q :=
  match mean values with
  | Fin arrmean =>
      let x := map (fun v => (inject_Z v - arrmean) * (inject_Z v - arrmean))%Q
                   values in
      divide (qsum x) (Z.max (Z.of_nat (length values) - ddof) 0)
  | _ => NaN
  end.

(** [np.sqrt] of a non-negative float. *)
Definition sqrt (x : npfloat Q) : npfloat R :=
  match x with
  | Fin q => if Qltb q 0 then NaN else Fin (R_sqrt.sqrt (Q2R q))
  | Inf => Inf
  | NaN => NaN
  end.

(** [np.std(values, ddof=ddof)]. *)
Definition std (values : list Z) (ddof : Z) : npfloat R :=
  sqrt (var values ddof).

(** [np.min(values)] and [np.max(values)] raise on an empty list. *)
Definition min_of (values : list Z) : result Z :=
  match values with
  | [] => Raise ValueError
  | v :: vs => Ok (fold_left Z.min vs v)
  end.

Definition max_of (values : list Z) : result Z :=
  match values with
  | [] => Raise ValueError
  | v :: vs => Ok (fold_left Z.max vs v)
  end.

End Np.

(** A loop whose body may raise. *)
Fixpoint foldM {A S : Type} (f : S -> A -> result S) (l : list A) (s : S)
  : result S :=
  match l with
  | [] => Ok s
  | a :: l' => s' <- f s a ;; foldM f l' s'
  end.

Fixpoint mapM {A B : Type} (f : A -> result B) (l : list A) : result (list B) :=
  match l with
  | [] => Ok []
  | a :: l' => b <- f a ;; bs <- mapM f l' ;; Ok (b :: bs)
  end.

(** ** prototype_analysis.py *)

Module Prototype.

(** One row of the data frame built by [load_and_prepare_data]. *)
Record row := mkRow {
  question_id : string;
  question_text : string;
  answer : string;
  respondent_id : Z
}.

Definition DataFrame : Type := list row.

(** The Likert data: prototype, then question label, then the values. *)
Definition LikertData : Type := Dict.t (Dict.t (list Z)).

Definition identify_likert_questions : Dict.t (list (string * string)) :=
  [ ("A", [ ("1763429742172", "Understand Tasks");
            ("1763429933708", "Understand How to Use");
            ("1763429972190", "Easy to Use");
            ("1763430192770", "Has Features Needed");
            ("1763430096428", "Superior to Existing Tools") ]);
    ("B", [ ("1763431473322", "Understand Tasks");
            ("1763431486831", "Understand How to Use");
            ("1763431509699", "Easy to Use");
            ("1763431525649", "Has Features Needed");
            ("1763431567705", "Superior to Existing Tools") ]);
    ("C", [ ("1763433215212", "Understand Tasks");
            ("1763433230680", "Understand How to Use");
            ("1763433260707", "Easy to Use");
            ("1763433293713", "Has Features Needed");
            ("1763433312274", "Superior to Existing Tools") ]) ].

(** [df[df['question_id'] == q_id]['answer'].values]. *)
Definition answers_of (df : DataFrame) (q_id : string) : list string :=
  map answer (filter (fun r => String.eqb (question_id r) q_id) df).

(** *** The parse of the answers

    [str.isdigit] and [int] of Python are parameters: [isdigit] says which
    answers the comprehension keeps, and [int] gives the value of an answer
    or [None] when Python's [int] raises [ValueError] (a digit that is not
    decimal, or more digits than CPython converts). *)
Section Parsing.

Variable isdigit : string -> bool.
Variable int : string -> option Z.

(** [[int(a) for a in answers if a.isdigit()]]. *)
Definition numeric_answers (answers : list string) : result (list Z) :=
  mapM (fun a => match int a with
                 | Some v => Ok v
                 | None => Raise ValueError
                 end)
       (filter isdigit answers).

Definition get_likert_data (df : DataFrame)
           (likert_questions : Dict.t (list (string * string)))
  : result LikertData :=
  foldM (fun likert_data pq =>
           prototype_data <-
             foldM (fun prototype_data ql =>
                      numeric <- numeric_answers (answers_of df (fst ql)) ;;
                      Ok (Dict.set (snd ql) numeric prototype_data))
                   (snd pq) Dict.empty ;;
           Ok (Dict.set (fst pq) prototype_data likert_data))
        (Dict.items likert_questions) Dict.empty.

End Parsing.

Record stats := mkStats {
  s_mean : npfloat Q;
  s_median : npfloat Q;
  s_std : npfloat R;
  s_min : Z;
  s_max : Z;
  s_n : Z
}.

(** The statistics of one question; [np.min] raises on no values. *)
Definition question_stats (values : list Z) : result stats :=
  lo <- Np.min_of values ;;
  hi <- Np.max_of values ;;
  Ok (mkStats (Np.mean values) (Np.median values) (Np.std values 1)
              lo hi (Z.of_nat (length values))).

Definition calculate_descriptive_stats (likert_data : LikertData)
  : result (Dict.t (Dict.t stats)) :=
  foldM (fun stats_results pq =>
           prototype_stats <-
             foldM (fun prototype_stats qv =>
                      st <- question_stats (snd qv) ;;
                      Ok (Dict.set (fst qv) st prototype_stats))
                   (Dict.items (snd pq)) Dict.empty ;;
           Ok (Dict.set (fst pq) prototype_stats stats_results))
        (Dict.items likert_data) Dict.empty.

(** *** The omnibus and pairwise tests *)

Definition table : Type := list (list Z).

(** What [chi2_contingency] returns (the expected frequencies, which the
    script ignores, are left out). *)
Record Chi2ContingencyResult := mkChi2 {
  statistic : npfloat Q;
  pvalue : npfloat Q;
  chi2_dof : Z
}.

Record omnibus_result := mkOmnibus {
  chi2 : npfloat Q;
  p_value : npfloat Q;
  dof : Z;
  significant : bool;
  contingency_table : table;
  note : option string
}.

Record pairwise_result := mkPairwise {
  ks_statistic : npfloat Q;
  pw_p_value : npfloat Q;
  adjusted_p_value : npfloat Q;
  pw_significant : bool
}.

Definition alpha : Q := 5 # 100.

Definition ratings : list Z := [1; 2; 3; 4; 5].

Definition prototypes : list string := ["A"; "B"; "C"].

(** [data.count(i)]. *)
Definition count (data : list Z) (i : Z) : Z :=
  Z.of_nat (count_occ Z.eq_dec data i).

(** [[data.count(i) for i in range(1, 6)]]. *)
Definition rating_row (data : list Z) : list Z := map (count data) ratings.

(** [t.sum(axis=0)] for a table with one column per rating. *)
Definition col_sums (t : table) : list Z :=
  map (fun j => zsum (map (fun r => nth j r 0) t)) (seq 0 (length ratings)).

(** [row[mask]]: the entries at the positions the mask keeps. *)
Definition select_cols (mask : list bool) (r : list Z) : list Z :=
  map snd (filter fst (combine mask r)).

Definition table_size (t : table) : Z := Z.of_nat (length (concat t)).

Definition table_sum (t : table) : Z := zsum (map zsum t).

Definition filter_table (contingency_table : table) : table :=
  let non_zero_cols := map (fun s => 0 <? s) (col_sums contingency_table) in
  map (select_cols non_zero_cols) contingency_table.

Definition placeholder (contingency_table : table) (msg : string)
  : omnibus_result :=
  mkOmnibus NaN (Fin 1%Q) 0 false contingency_table (Some msg).

Section Tests.

(** [scipy.stats.chi2_contingency]; [None] when it raises [ValueError],
    the only exception it raises. *)
Variable chi2_contingency : table -> option Chi2ContingencyResult.

(** [scipy.stats.ks_2samp] returning the statistic and the p-value;
    [None] when it raises [ValueError]. *)
Variable ks_2samp : list Z -> list Z -> option (npfloat Q * npfloat Q).

(** The body of the loop of [perform_chi_squared_omnibus] once the
    contingency table is built. *)
Definition omnibus_entry (contingency_table : table) : omnibus_result :=
  let filtered_table := filter_table contingency_table in
  if ((0 <? table_size filtered_table) && (0 <? table_sum filtered_table))%bool
  then
    match chi2_contingency filtered_table with
    | Some r =>
        mkOmnibus (statistic r) (pvalue r) (chi2_dof r)
                  (Np.lt (pvalue r) alpha) contingency_table None
    | None =>
        placeholder contingency_table
                    "Chi-squared test not applicable due to sparse data"
    end
  else placeholder contingency_table "No variation in data".

(** The contingency table of a question, one row per group of [order]. *)
Definition build_table (order : list string) (likert_data : LikertData)
           (question : string) : result table :=
  mapM (fun prototype =>
          prototype_data <- getitem prototype likert_data ;;
          data <- getitem question prototype_data ;;
          Ok (rating_row data)) order.

(** [perform_chi_squared_omnibus] with the order of the groups, which
    the script fixes to [prototypes], as a parameter. *)
Definition perform_chi_squared_omnibus_in (order : list string)
           (likert_data : LikertData) : result (Dict.t omnibus_result) :=
  match Dict.values likert_data with
  | [] => Raise StopIteration
  | first :: _ =>
      let questions := Dict.keys first in
      foldM (fun omnibus_results question =>
               contingency_table <- build_table order likert_data question ;;
               Ok (Dict.set question (omnibus_entry contingency_table)
                            omnibus_results))
            questions Dict.empty
  end.

Definition perform_chi_squared_omnibus (likert_data : LikertData)
  : result (Dict.t omnibus_result) :=
  perform_chi_squared_omnibus_in prototypes likert_data.

Definition pairs : list (string * string) :=
  [("A", "B"); ("A", "C"); ("B", "C")].

(** One comparison: the raw p-value, its Bonferroni adjustment for the
    three comparisons, and the flag. *)
Definition pairwise_entry (ks : npfloat Q * npfloat Q) : pairwise_result :=
  let ks_stat := fst ks in
  let p_value := snd ks in
  let adjusted_p := Np.mul p_value 3 in
  mkPairwise ks_stat p_value (Np.min adjusted_p 1) (Np.lt adjusted_p alpha).

Definition pairwise_question (likert_data : LikertData) (question : string)
  : result (Dict.t pairwise_result) :=
  foldM (fun acc pr =>
           d1 <- getitem (fst pr) likert_data ;;
           data1 <- getitem question d1 ;;
           d2 <- getitem (snd pr) likert_data ;;
           data2 <- getitem question d2 ;;
           match ks_2samp data1 data2 with
           | Some ks =>
               Ok (Dict.set (fst pr ++ " vs " ++ snd pr)%string
                            (pairwise_entry ks) acc)
           | None => Raise ValueError
           end)
        pairs Dict.empty.

Definition perform_pairwise_ks_tests (likert_data : LikertData)
           (omnibus_results : Dict.t omnibus_result)
  : result (Dict.t (Dict.t pairwise_result)) :=
  foldM (fun pairwise_results qo =>
           if significant (snd qo) then
             inner <- pairwise_question likert_data (fst qo) ;;
             Ok (Dict.set (fst qo) inner pairwise_results)
           else Ok pairwise_results)
        (Dict.items omnibus_results) Dict.empty.

End Tests.

(** *** The ranking questions *)

Definition ranking_questions : Dict.t string :=
  [ ("1763433609862", "BEST");
    ("1763433957657", "SECOND BEST");
    ("1763434721787", "WORST") ].

Definition prototype_names : list string :=
  ["Prototype A"; "Prototype B"; "Prototype C"].

(** [sum(1 for a in answers if name in a)]. *)
Definition votes (name : string) (answers : list string) : Z :=
  zsum (map (fun _ => 1) (filter (PyStr.contains name) answers)).

Definition prototype_counts (answers : list string) : Dict.t Z :=
  Dict.of_list (map (fun name => (name, votes name answers)) prototype_names).

Record ranking_result := mkRanking {
  counts : Dict.t Z;
  rk_chi2 : npfloat Q;
  rk_p_value : npfloat Q;
  rk_significant : bool;
  total_responses : Z
}.

Section Ranking.

(** [scipy.stats.chisquare(observed, expected)], statistic and p-value. *)
Variable chisquare : list Z -> list Q -> npfloat Q * npfloat Q.

Definition ranking_entry (answers : list string) : ranking_result :=
  let prototype_counts := prototype_counts answers in
  let n_total := zsum (Dict.values prototype_counts) in
  let expected := (inject_Z n_total / 3)%Q in
  let observed := Dict.values prototype_counts in
  let test := chisquare observed (repeat expected 3) in
  mkRanking prototype_counts (fst test) (snd test)
            (Np.lt (snd test) alpha) n_total.

Definition analyze_ranking_questions (df : DataFrame)
  : Dict.t ranking_result :=
  fold_left (fun ranking_results ql =>
               Dict.set (snd ql) (ranking_entry (answers_of df (fst ql)))
                        ranking_results)
            (Dict.items ranking_questions) Dict.empty.

End Ranking.

(** *** Loading and the main pipeline *)

(** A question object of the input file: [{id, text, answers}]. *)
Record question := mkRaw {
  raw_id : string;
  raw_text : string;
  raw_answers : list string
}.

(** The frame of one question: a row per answer, numbered from 0. *)
Definition question_frame (q : question) : DataFrame :=
  map (fun ia => mkRow (raw_id q) (raw_text q) (snd ia) (Z.of_nat (fst ia)))
      (combine (seq 0 (length (raw_answers q))) (raw_answers q)).

(** [load_and_prepare_data] once the file is parsed: the frames of the
    questions, concatenated; [pd.concat] raises on no frame at all. *)
Definition load_and_prepare_data (data : list question) : result DataFrame :=
  match data with
  | [] => Raise ValueError
  | _ :: _ => Ok (flat_map question_frame data)
  end.

Section Main.

Variable isdigit : string -> bool.
Variable int : string -> option Z.
Variable chi2_contingency : table -> option Chi2ContingencyResult.
Variable ks_2samp : list Z -> list Z -> option (npfloat Q * npfloat Q).
Variable chisquare : list Z -> list Q -> npfloat Q * npfloat Q.



End Main.

End Prototype.

(** ** scipy's chi-squared test of independence

    [scipy.stats.chi2_contingency(observed)] as scipy documents it, for a
    two-dimensional table given as the list of its rows: the expected
    frequencies are the products of the margins over the total; the call
    raises [ValueError] on a negative entry, on a table without entries and
    on an expected frequency of zero; with no degree of freedom the
    statistic is 0 and the p-value 1; otherwise the statistic is Pearson's
    sum of (observed - expected)^2 / expected, with Yates' correction when
    there is one degree of freedom, and the p-value is the chi-squared
    survival function at the statistic.  The survival function is a
    parameter.  The statistic is kept in lowest terms, so that equal values
    are equal terms.

    This is the test in exact arithmetic: the sum of the terms is the
    rational sum, which no order of the rows changes.  scipy adds the
    terms in binary64, row after row; [Binary64] below has this sum. *)

Module Scipy.

Import Prototype.

Section Chi2.

(** [scipy.stats.chi2.sf(statistic, dof)]. *)
Variable chi2_sf : Q -> Z -> npfloat Q.

Definition ncols (t : table) : nat :=
  match t with
  | [] => O
  | r :: _ => length r
  end.

(** The column margins. *)
Definition margin_cols (t : table) : list Z :=
  map (fun j => zsum (map (fun r => nth j r 0) t)) (seq 0 (ncols t)).

(** The expected frequencies of one row. *)
Definition expected_row (cs : list Z) (total : Z) (r : list Z) : list Q :=
  map (fun c => (inject_Z (zsum r * c) / inject_Z total)%Q) cs.

Definition expected_freq (t : table) : list (list Q) :=
  map (expected_row (margin_cols t) (table_sum t)) t.

(** [np.sign]. *)
Definition sign (x : Q) : Q :=
  if Np.Qltb 0 x then 1%Q else if Np.Qltb x 0 then (-1)%Q else 0%Q.

(** Yates' correction moves an observed count towards its expectation
    by at most one half. *)
Definition yates (o e : Q) : Q :=
  let diff := (e - o)%Q in
  let magnitude := Qmin (1 # 2) (Qabs diff) in
  (o + magnitude * sign diff)%Q.

(** One term of Pearson's sum. *)
Definition cell (correction : bool) (o : Z) (e : Q) : Q :=
  let o' := if correction then yates (inject_Z o) e else inject_Z o in
  ((o' - e) * (o' - e) / e)%Q.

Definition row_stat (correction : bool) (cs : list Z) (total : Z)
           (r : list Z) : Q :=
  Np.qsum (map (fun oe => cell correction (fst oe) (snd oe))
               (combine r (expected_row cs total r))).

Definition pearson (correction : bool) (t : table) : Q :=
  Qred (Np.qsum (map (row_stat correction (margin_cols t) (table_sum t)) t)).

(** [expected.size - sum(expected.shape) + expected.ndim - 1]. *)
Definition degrees (t : table) : Z :=
  let r := Z.of_nat (length t) in
  let c := Z.of_nat (ncols t) in
  r * c - (r + c) + 2 - 1.

(** On a table of zeros the expected frequencies are NaN, not zero, and
    so is the statistic; the omnibus step never passes such a table. *)
Definition chi2_contingency (observed : table) : option Chi2ContingencyResult :=
  if existsb (existsb (fun o => o <? 0)) observed then None
  else if table_size observed =? 0 then None
  else if (negb (table_sum observed =? 0)
           && existsb (existsb (Qeq_bool 0)) (expected_freq observed))%bool
  then None
  else
    let dof := degrees observed in
    if dof =? 0 then Some (mkChi2 (Fin 0%Q) (Fin 1%Q) dof)
    else if table_sum observed =? 0 then Some (mkChi2 NaN NaN dof)
    else
      let chi2 := pearson (dof =? 1) observed in
      Some (mkChi2 (Fin chi2) (chi2_sf chi2 dof) dof).

End Chi2.

End Scipy.

(** ** The chi-squared test in binary64

    The computation of [scipy.stats.chi2_contingency] in the arithmetic
    that numpy and scipy use, IEEE 754 binary64 with rounding to nearest:
    every operation below is the correctly rounded one.  The counts and
    the margins are integers below 2^53 and convert exactly.  The expected
    frequency of a cell is the product of its margins divided by the
    total; the term of a cell is [(observed - expected)^2 / expected]; the
    statistic is [np.sum] of the terms of the table, row after row.
    [np.sum] adds fewer than 8 numbers from left to right, adds up to 128
    numbers in 8 running sums that it then combines, and splits a longer
    array in two.  The survival function [scipy.stats.chi2.sf] is a
    parameter.  scipy also checks that the totals of the observed and the
    expected frequencies agree within 1e-8; the expected frequencies come
    from the margins of the observed table, and the check is left out. *)

Module Binary64.

Import Prototype.

(** A count as a float. *)
Definition of_count (z : Z) : PrimFloat.float :=
  PrimFloat.of_uint63 (Uint63.of_Z z).

Definition zero : PrimFloat.float := of_count 0.
Definition one : PrimFloat.float := of_count 1.
Definition half : PrimFloat.float := PrimFloat.div (of_count 1) (of_count 2).
Definition nan : PrimFloat.float := PrimFloat.div zero zero.

(** The literal [0.05]. *)
Definition alpha : PrimFloat.float :=
  PrimFloat.div (of_count 5) (of_count 100).

Record Chi2Result := mkChi2 {
  statistic : PrimFloat.float;
  pvalue : PrimFloat.float;
  chi2_dof : Z
}.

(** The statistic, p-value, degrees of freedom and flag of an omnibus
    result. *)
Record omnibus_values := mkValues {
  chi2 : PrimFloat.float;
  p_value : PrimFloat.float;
  dof : Z;
  significant : bool
}.

(** The expected frequencies of one row. *)
Definition expected_row (cs : list Z) (total : Z) (r : list Z)
  : list PrimFloat.float :=
  map (fun c => PrimFloat.div (PrimFloat.mul (of_count (zsum r)) (of_count c))
                              (of_count total)) cs.

Definition expected_freq (t : table) : list (list PrimFloat.float) :=
  map (expected_row (Scipy.margin_cols t) (table_sum t)) t.

(** [np.sign]. *)
Definition sign (x : PrimFloat.float) : PrimFloat.float :=
  if PrimFloat.ltb zero x then one
  else if PrimFloat.ltb x zero then PrimFloat.opp one
  else x.

(** [np.minimum(0.5, x)]. *)
Definition minimum_half (x : PrimFloat.float) : PrimFloat.float :=
  if PrimFloat.leb half x then half else x.

Definition yates (o e : PrimFloat.float) : PrimFloat.float :=
  let diff := PrimFloat.sub e o in
  let magnitude := minimum_half (PrimFloat.abs diff) in
  PrimFloat.add o (PrimFloat.mul magnitude (sign diff)).

(** One term of Pearson's sum. *)
Definition cell (correction : bool) (o : Z) (e : PrimFloat.float)
  : PrimFloat.float :=
  let o' := if correction then yates (of_count o) e else of_count o in
  let d := PrimFloat.sub o' e in
  PrimFloat.div (PrimFloat.mul d d) e.

Definition row_terms (correction : bool) (cs : list Z) (total : Z)
           (r : list Z) : list PrimFloat.float :=
  map (fun oe => cell correction (fst oe) (snd oe))
      (combine r (expected_row cs total r)).

(** The terms of the table, row after row. *)
Definition terms (correction : bool) (t : table) : list PrimFloat.float :=
  flat_map (row_terms correction (Scipy.margin_cols t) (table_sum t)) t.

(** Adding the next 8 numbers to the 8 running sums. *)
Definition add8 (r a : list PrimFloat.float) : list PrimFloat.float :=
  map (fun ra => PrimFloat.add (fst ra) (snd ra)) (combine r a).

Fixpoint add_blocks (r a : list PrimFloat.float) {struct a}
  : list PrimFloat.float * list PrimFloat.float :=
  match a with
  | a0 :: a1 :: a2 :: a3 :: a4 :: a5 :: a6 :: a7 :: rest =>
      add_blocks (add8 r [a0; a1; a2; a3; a4; a5; a6; a7]) rest
  | _ => (r, a)
  end.

(** The sum of 8 to 128 numbers. *)
Definition block_sum (a : list PrimFloat.float) : PrimFloat.float :=
  let (r, rest) := add_blocks (firstn 8 a) (skipn 8 a) in
  match r with
  | [r0; r1; r2; r3; r4; r5; r6; r7] =>
      fold_left PrimFloat.add rest
        (PrimFloat.add
           (PrimFloat.add (PrimFloat.add r0 r1) (PrimFloat.add r2 r3))
           (PrimFloat.add (PrimFloat.add r4 r5) (PrimFloat.add r6 r7)))
  | _ => fold_left PrimFloat.add a zero
  end.

Fixpoint pairwise_sum_in (depth : nat) (a : list PrimFloat.float)
  : PrimFloat.float :=
  let n := length a in
  if Nat.ltb n 8 then fold_left PrimFloat.add a zero
  else if Nat.leb n 128 then block_sum a
  else
    match depth with
    | O => block_sum a
    | S depth' =>
        let n2 := (n / 2 - (n / 2) mod 8)%nat in
        PrimFloat.add (pairwise_sum_in depth' (firstn n2 a))
                      (pairwise_sum_in depth' (skipn n2 a))
    end.

(** [np.sum] of an array of floats. *)
Definition pairwise_sum (a : list PrimFloat.float) : PrimFloat.float :=
  pairwise_sum_in (length a) a.

Section Chi2.

(** [scipy.stats.chi2.sf(statistic, dof)]. *)
Variable chi2_sf : PrimFloat.float -> Z -> PrimFloat.float.

(** The result for the terms of a table with [dof] degrees of freedom:
    with no degree of freedom the statistic is 0 and the p-value 1. *)
Definition test_result (dof : Z) (cells : list PrimFloat.float) : Chi2Result :=
  if dof =? 0 then mkChi2 zero one dof
  else
    let chi2 := pairwise_sum cells in
    mkChi2 chi2 (chi2_sf chi2 dof) dof.

Definition chi2_contingency (observed : table) : option Chi2Result :=
  if existsb (existsb (fun o => o <? 0)) observed then None
  else if table_size observed =? 0 then None
  else if existsb (existsb (fun e => PrimFloat.eqb e zero))
                  (expected_freq observed)
  then None
  else
    let dof := Scipy.degrees observed in
    Some (test_result dof (terms (dof =? 1) observed)).

Definition recorded (r : Chi2Result) : omnibus_values :=
  mkValues (statistic r) (pvalue r) (chi2_dof r)
           (PrimFloat.ltb (pvalue r) alpha).

Definition placeholder : omnibus_values := mkValues nan one 0 false.

(** The body of the loop of [perform_chi_squared_omnibus] once the
    contingency table is built: what it records, the table and the note
    apart. *)
Definition omnibus_entry (contingency_table : table) : omnibus_values :=
  let filtered_table := filter_table contingency_table in
  if ((0 <? table_size filtered_table) && (0 <? table_sum filtered_table))%bool
  then
    match chi2_contingency filtered_table with
    | Some r => recorded r
    | None => placeholder
    end
  else placeholder.

End Chi2.

End Binary64.

(** * Vocabulary of the statements *)

(** The text contains the phrase when letter case is ignored: some
    substring of the text lowers to the phrase. *)
Definition icontains (phrase text : string) : Prop :=
  exists pre u post,
    text = (pre ++ u ++ post)%string /\ PyStr.lower u = phrase.

(** The classifier with the rules in the order consent, select-all,
    free text: the order the description of the classifier lists them in. *)
Definition listed_order_question_type (question : Needfinding.question_data)
  : Needfinding.question_type :=
  let question_text := PyStr.lower (Needfinding.q_text question) in
  if PyStr.contains "consent" question_text then Needfinding.skip
  else if PyStr.contains "select all that apply" question_text
  then Needfinding.select_all
  else if existsb (fun phrase => PyStr.contains phrase question_text)
                  Needfinding.free_text_phrases then Needfinding.free_text
  else Needfinding.multiple_choice.

(** A select-all question that also asks for a description. *)
Definition q_select_and_describe : Needfinding.question_data :=
  Needfinding.mkQuestion "q7"
    "Which tools do you use? Select all that apply, then briefly describe why."
    ["Maps;Email"; "Email"].

(** The answer reads "none" when letter case is ignored. *)
Definition is_none (a : string) : bool := String.eqb (PyStr.lower a) "none".

(** The answers left out of [total_responses]: empty, "n/a", "na", "none". *)
Definition excluded (a : string) : bool :=
  (negb (PyStr.truthy a) || PyStr.mem (PyStr.lower a) Needfinding.no_answer3)%bool.

(** The entry that [analyze_survey] records for a question. *)
Definition entry_of (q : Needfinding.question_data)
           (e : Needfinding.result_entry) : Prop :=
  Needfinding.r_question e = Needfinding.q_text q /\
  Needfinding.r_type e = Needfinding.identify_question_type q /\
  Needfinding.r_statistics e =
    match Needfinding.identify_question_type q with
    | Needfinding.select_all =>
        Needfinding.process_select_all_question (Needfinding.q_answers q)
    | _ => Needfinding.process_multiple_choice_question (Needfinding.q_answers q)
    end /\
  Needfinding.r_total_responses e
  = Needfinding.total_responses (Needfinding.q_answers q).

(** A multiple-choice question with two answers "none". *)
Definition q_planning : Needfinding.question_data :=
  Needfinding.mkQuestion "q3" "How do you usually plan a trip?"
    ["None"; "Maps"; "none"; "n/a"; "Maps"].

(** What [analyze_survey] reports for [q_planning]. *)
Definition planning_entry : Needfinding.result_entry :=
  Needfinding.mkResult (Needfinding.q_text q_planning) Needfinding.multiple_choice
    [("None", 1); ("Maps", 2); ("none", 1)] 2.

(** Every category past the first seven of the ordered data has no slice of
    its own in the pie chart. *)
Definition beyond_cap_collapsed (data : Dict.t Z) (question_text : string) : Prop :=
  forall (i : nat) (k : string) (v : Z),
    (7 <= i)%nat ->
    nth_error (Needfinding.order_data_for_chart data question_text false) i
    = Some (k, v) ->
    Dict.has k (Needfinding.create_pie_chart data question_text) = false.

(** Eight categories. *)
Definition eight_categories : Dict.t Z :=
  [("Maps", 9); ("Email", 8); ("Calendar", 7); ("Notes", 6);
   ("Spreadsheet", 5); ("Chat", 4); ("Paper", 3); ("Memory", 2)].

(** Ten categories, for the pie chart of a question with no custom order. *)
Definition ten_categories : Dict.t Z :=
  eight_categories ++ [("Friends", 1); ("Agency", 1)].

(** A trip-frequency question and its counted answers. *)
Definition trips_text : string :=
  "How many trips did you take for work in the last year?".

Definition trips_data : Dict.t Z :=
  [("3-5 trips", 4); ("0 trips", 2); ("11+ trips", 1)].

(** How many of the three prototype names an answer mentions. *)
Definition mentions (a : string) : Z :=
  zsum (map (fun name => if PyStr.contains name a then 1 else 0)
            Prototype.prototype_names).

(** Two respondents rank the best prototype; the first names all three,
    the second none. *)
Definition ranking_df : Prototype.DataFrame :=
  [ Prototype.mkRow "1763433609862" "Which interface was BEST?"
                    "Prototype A, or Prototype B, or even Prototype C" 0;
    Prototype.mkRow "1763433609862" "Which interface was BEST?"
                    "I liked none of them" 1 ].

(** A float that is a number between two bounds. *)
Definition in_range (x : npfloat Q) (lo hi : Q) : Prop :=
  match x with
  | Fin q => (lo <= q /\ q <= hi)%Q
  | Inf => False
  | NaN => False
  end.

(** A float that is a non-negative number; NaN is not. *)
Definition nonneg (x : npfloat R) : Prop :=
  match x with
  | Fin r => (0 <= r)%R
  | Inf => True
  | NaN => False
  end.

(** The parse of the answers to a question returns. *)
Definition parses (isdigit : string -> bool) (int : string -> option Z)
           (df : Prototype.DataFrame) (q_id : string) : Prop :=
  exists values,
    Prototype.numeric_answers isdigit int (Prototype.answers_of df q_id)
    = Ok values.

(** The values that the answers to a question parse to. *)
Definition parsed (isdigit : string -> bool) (int : string -> option Z)
           (df : Prototype.DataFrame) (q_id : string) : list Z :=
  match Prototype.numeric_answers isdigit int (Prototype.answers_of df q_id) with
  | Ok values => values
  | Raise _ => []
  end.

(** Values on the Likert scale. *)
Definition likert (values : list Z) : Prop :=
  Forall (fun v => 1 <= v <= 5) values.

(** The questions that the omnibus step goes through: the labels of the
    first prototype's data. *)
Definition questions_of (likert_data : Prototype.LikertData) : list string :=
  match Dict.values likert_data with
  | [] => []
  | first :: _ => Dict.keys first
  end.

(** Every group of [order] has data for every question. *)
Definition complete (order : list string) (likert_data : Prototype.LikertData)
  : Prop :=
  forall q p, In q (questions_of likert_data) -> In p order ->
    exists prototype_data data,
      Dict.get p likert_data = Some prototype_data /\
      Dict.get q prototype_data = Some data.

(** The total of column [j] of a table: the sum over the rows, that is,
    over the groups. *)
Definition column (j : nat) (t : Prototype.table) : Z :=
  zsum (map (fun r => nth j r 0) t).

(** [f] is [t] without the rating columns whose total over the groups is
    zero: every row of [f] holds the entries of the row of [t] at the
    columns of positive total, in the order of the ratings. *)
Definition without_zero_columns (t f : Prototype.table) : Prop :=
  exists js : list nat,
    StronglySorted lt js /\
    (forall j, In j js <-> (j < 5)%nat /\ 0 < column j t) /\
    f = map (fun r => map (fun j => nth j r 0) js) t.

(** The answers of a group to a question. *)
Definition group_data (likert_data : Prototype.LikertData)
           (p question : string) : option (list Z) :=
  match Dict.get p likert_data with
  | Some prototype_data => Dict.get question prototype_data
  | None => None
  end.

(** [inner] holds the three comparisons of a question: each is the result
    of [ks_2samp] on the answers of the two groups it names. *)
Definition ks_comparisons
           (ks_2samp : list Z -> list Z -> option (npfloat Q * npfloat Q))
           (likert_data : Prototype.LikertData) (question : string)
           (inner : Dict.t Prototype.pairwise_result) : Prop :=
  exists dA dB dC ksAB ksAC ksBC,
    group_data likert_data "A" question = Some dA /\
    group_data likert_data "B" question = Some dB /\
    group_data likert_data "C" question = Some dC /\
    ks_2samp dA dB = Some ksAB /\
    ks_2samp dA dC = Some ksAC /\
    ks_2samp dB dC = Some ksBC /\
    inner = [ ("A vs B", Prototype.pairwise_entry ksAB);
              ("A vs C", Prototype.pairwise_entry ksAC);
              ("B vs C", Prototype.pairwise_entry ksBC) ].

(** The rating columns that some group used. *)
Definition kept_columns (t : Prototype.table) : list nat :=
  filter (fun j => 0 <? nth j (Prototype.col_sums t) 0)
         (seq 0 (length Prototype.ratings)).

(** [f] is [t] without the rating columns whose total is zero. *)
Definition drops_zero_columns (t f : Prototype.table) : Prop :=
  f = map (fun r => map (fun j => nth j r 0) (kept_columns t)) t.

(** All rows have the same length. *)
Definition rectangular (t : Prototype.table) : Prop :=
  exists n, Forall (fun r => length r = n) t.

(** Likert data of four questions: one where the prototypes differ, one
    where every answer is 3, one that nobody answered, and one that
    prototype B's respondents left out. *)
Definition example_likert : Prototype.LikertData :=
  [ ("A", [ ("Easy to Use", repeat 5 20);
            ("Understand Tasks", [3; 3; 3]);
            ("Has Features Needed", []);
            ("Superior to Existing Tools", [4; 5]) ]);
    ("B", [ ("Easy to Use", repeat 1 20);
            ("Understand Tasks", [3; 3; 3]);
            ("Has Features Needed", []);
            ("Superior to Existing Tools", []) ]);
    ("C", [ ("Easy to Use", repeat 5 20);
            ("Understand Tasks", [3; 3; 3]);
            ("Has Features Needed", []);
            ("Superior to Existing Tools", [2; 2]) ]) ].

(** Markov's bound [dof / statistic] on the chi-squared survival function,
    standing in for it in the examples. *)
Definition markov_sf (statistic : Q) (dof : Z) : npfloat Q :=
  Fin (Qred (Qmin 1 (inject_Z dof / statistic))).

(** A two-sample test standing in for [ks_2samp] in the examples: it
    raises on an empty sample, as [ks_2samp] does, and otherwise compares
    the shares of ratings of at most 3. *)
Definition share_le3 (data : list Z) : Q :=
  inject_Z (Z.of_nat (length (filter (fun v => v <=? 3) data)))
  / inject_Z (Z.of_nat (length data)).

Definition example_ks (data1 data2 : list Z) : option (npfloat Q * npfloat Q) :=
  match data1, data2 with
  | [], _ => None
  | _, [] => None
  | _, _ =>
      let d := Qred (Qabs (share_le3 data1 - share_le3 data2)) in
      Some (Fin d, Fin (Qred ((1 - d) * (1 # 50))))
  end.

(** The omnibus and pairwise results of [example_likert]. *)
Definition example_omnibus : Dict.t Prototype.omnibus_result :=
  Eval vm_compute in
    match Prototype.perform_chi_squared_omnibus
            (Scipy.chi2_contingency markov_sf) example_likert with
    | Ok res => res
    | Raise _ => []
    end.

Definition example_pairwise : Dict.t (Dict.t Prototype.pairwise_result) :=
  Eval vm_compute in
    match Prototype.perform_pairwise_ks_tests example_ks example_likert
                                              example_omnibus with
    | Ok res => res
    | Raise _ => []
    end.

(** What the omnibus step records in binary64 for two contingency tables
    agrees up to the order of the additions: the tested tables hold the
    same rows, and either both results are the placeholder, or the degrees
    of freedom are equal, the cell terms of the two tested tables are the
    same terms in another order, and each result is the one of the test on
    its terms: the statistic their sum, the p-value the survival function
    at this sum. *)
Definition same_up_to_order (chi2_sf : PrimFloat.float -> Z -> PrimFloat.float)
           (t1 t2 : Prototype.table) : Prop :=
  let f1 := Prototype.filter_table t1 in
  let f2 := Prototype.filter_table t2 in
  Permutation f1 f2 /\
  ((Binary64.omnibus_entry chi2_sf t1 = Binary64.placeholder /\
    Binary64.omnibus_entry chi2_sf t2 = Binary64.placeholder)
   \/
   (Scipy.degrees f1 = Scipy.degrees f2 /\
    Permutation (Binary64.terms (Scipy.degrees f1 =? 1) f1)
                (Binary64.terms (Scipy.degrees f2 =? 1) f2) /\
    Binary64.omnibus_entry chi2_sf t1
    = Binary64.recorded
        (Binary64.test_result chi2_sf (Scipy.degrees f1)
           (Binary64.terms (Scipy.degrees f1 =? 1) f1)) /\
    Binary64.omnibus_entry chi2_sf t2
    = Binary64.recorded
        (Binary64.test_result chi2_sf (Scipy.degrees f2)
           (Binary64.terms (Scipy.degrees f2 =? 1) f2)))).

(** Likert data of one question: group A answers 1 and 2, the groups B
    and C answer 1 three times. *)
Definition order_example : Prototype.LikertData :=
  [ ("A", [("Easy to Use", [1; 2])]);
    ("B", [("Easy to Use", [1; 1; 1])]);
    ("C", [("Easy to Use", [1; 1; 1])]) ].

(** The statistic of [order_example] is 24/7 in exact arithmetic.  The
    nearest binary64 number is 3.4285714285714284, and the next binary64
    number is 3.428571428571429. *)
Definition rounded_statistic : PrimFloat.float :=
  PrimFloat.div (Binary64.of_count 24) (Binary64.of_count 7).

Definition next_statistic : PrimFloat.float :=
  PrimFloat.next_up rounded_statistic.

(** ** Vocabulary of the further properties *)

(** How often a character occurs in a string. *)
Fixpoint count_char (c : ascii) (s : string) : nat :=
  match s with
  | EmptyString => O
  | String a s' => ((if Ascii.eqb a c then 1 else 0) + count_char c s')%nat
  end.

(** The options that a select-all answer is split into. *)
Definition options_of (answer : string) : list string :=
  map PyStr.strip (PyStr.split ";"%char answer).

(** The answers that the multiple-choice counter keeps. *)
Definition kept_choice (a : string) : bool :=
  (PyStr.truthy a && negb (PyStr.mem (PyStr.lower a) Needfinding.no_answer2))%bool.

(** Three select-all answers, one of them with a separator at its end. *)
Definition tools_answers : list string :=
  ["Maps; Email"; "none"; "Email;"].

(** Counts never increase along the list. *)
Fixpoint descending (l : list (string * Z)) : Prop :=
  match l with
  | [] => True
  | a :: r =>
      match r with
      | [] => True
      | b :: _ => snd b <= snd a /\ descending r
      end
  end.

(** The question is a frequency question: its text says "how many trips"
    or "how many times", letter case ignored. *)
Definition frequency_question (question_text : string) : Prop :=
  icontains "how many trips" question_text \/
  icontains "how many times" question_text.

(** Counted answers of a question about how often something was done. *)
Definition times_text : string :=
  "How many times did you travel away from your home city last year?".

Definition times_data : Dict.t Z :=
  [("1-2 times", 5); ("Never", 2); ("11+ times", 1)].

(** Counted answers of a question without a custom order. *)
Definition transport_data : Dict.t Z :=
  [("Train", 2); ("Car", 5); ("Bike", 2); ("Plane", 5)].

(** A survey of four questions: consent, a free-text question, a
    multiple-choice question and one whose answers are all "n/a". *)
Definition small_survey : list Needfinding.question_data :=
  [ Needfinding.mkQuestion "q1" "Do you consent to take part?" ["Yes"; "Yes"];
    Needfinding.mkQuestion "q2" "Briefly describe your last trip." ["It rained"];
    q_planning;
    Needfinding.mkQuestion "q4" "Which airline do you prefer?" ["n/a"; "NA"] ].

(** A rating on the scale of the contingency table. *)
Definition in_scale (v : Z) : bool := ((1 <=? v) && (v <=? 5))%bool.

(** A table of counts with one column per rating. *)
Definition count_table (t : Prototype.table) : Prop :=
  Forall (fun r => length r = 5%nat /\ Forall (fun v => 0 <= v) r) t.

(** The answers given to the question with a given id in the input. *)
Definition raw_answers_of (data : list Prototype.question) (q_id : string)
  : list string :=
  flat_map (fun q => if String.eqb (Prototype.raw_id q) q_id
                     then Prototype.raw_answers q else []) data.

(** An input with two questions, the second answered by three people. *)
Definition raw_example : list Prototype.question :=
  [ Prototype.mkRaw "1763429972190" "Prototype A was easy to use." ["4"; "5"];
    Prototype.mkRaw "1763433609862" "Which interface was BEST?"
                    ["Prototype A"; "Prototype C"; "Prototype A"] ].

(** A contingency table in which ratings 1, 3 and 4 were never given. *)
Definition sparse_table : Prototype.table :=
  [[0; 2; 0; 0; 1]; [0; 0; 0; 0; 3]; [0; 1; 0; 0; 2]].

(** Likert data in which prototype C lacks the second question. *)
Definition incomplete_likert : Prototype.LikertData :=
  [ ("A", [("Easy to Use", [4; 5]); ("Understand Tasks", [3])]);
    ("B", [("Easy to Use", [2]); ("Understand Tasks", [3; 3])]);
    ("C", [("Easy to Use", [1; 1])]) ].



(** The ids of the Likert questions of all prototypes. *)
Definition likert_ids : list string :=
  flat_map (fun pq => map fst (snd pq)) Prototype.identify_likert_questions.

(** An input in which every Likert question has the answers "4" and "2",
    and one in which the first Likert question was answered in words. *)
Definition answered_input : list Prototype.question :=
  map (fun q_id => Prototype.mkRaw q_id "Rate the prototype." ["4"; "2"])
      likert_ids.


(** * Properties *)

(** ** Strings *)

Section StringFacts.

Lemma lower_app (a b : string) :
  PyStr.lower (a ++ b) = (PyStr.lower a ++ PyStr.lower b)%string.
Proof.
  induction a as [|c a IH]; simpl; [reflexivity | now rewrite IH].
Qed.

(** A split of the lowered text comes from a split of the text. *)
Lemma lower_split (t a b : string) :
  PyStr.lower t = (a ++ b)%string ->
  exists t1 t2, t = (t1 ++ t2)%string /\ PyStr.lower t1 = a /\ PyStr.lower t2 = b.
Proof.
  revert t; induction a as [|c a IH]; intros t H.
  - exists EmptyString, t. simpl in *. auto.
  - destruct t as [|d t]; simpl in H; [discriminate|].
    injection H as Hc Ht.
    destruct (IH t Ht) as (t1 & t2 & -> & H1 & H2).
    exists (String d t1), t2. simpl. rewrite H1, Hc. auto.
Qed.

Lemma startswith_spec (p s : string) :
  PyStr.startswith p s = true <-> exists post, s = (p ++ post)%string.
Proof.
  revert s; induction p as [|a p IH]; intros s; simpl.
  - split; [intros _; now exists s | reflexivity].
  - destruct s as [|b s].
    + split; [discriminate | intros [post H]; discriminate].
    + rewrite andb_true_iff, Ascii.eqb_eq, IH. split.
      * intros [-> [post ->]]. now exists post.
      * intros [post H]. injection H as -> ->. split; [reflexivity | now exists post].
Qed.

(** [p in s] holds exactly when [s] is [pre ++ p ++ post]. *)
Lemma contains_spec (p s : string) :
  PyStr.contains p s = true <->
  exists pre post, s = (pre ++ p ++ post)%string.
Proof.
  induction s as [|c s IH].
  - simpl. rewrite orb_false_r, startswith_spec. split.
    + intros [post H]. now exists EmptyString, post.
    + intros (pre & post & H). destruct pre; simpl in H.
      * now exists post.
      * discriminate.
  - cbn [PyStr.contains]. rewrite orb_true_iff, startswith_spec, IH. split.
    + intros [[post H] | (pre & post & H)].
      * now exists EmptyString, post.
      * exists (String c pre), post. simpl. now rewrite H.
    + intros (pre & post & H). destruct pre as [|d pre]; simpl in H.
      * left. now exists post.
      * right. injection H as _ H. now exists pre, post.
Qed.

End StringFacts.

Lemma contains_lower_iff (phrase text : string) :
  PyStr.contains phrase (PyStr.lower text) = true <-> icontains phrase text.
Proof.
  rewrite contains_spec. unfold icontains. split.
  - intros (pre & post & H).
    destruct (lower_split _ _ _ H) as (t1 & t2 & -> & H1 & H2).
    destruct (lower_split _ _ _ H2) as (u & t3 & -> & H3 & H4).
    now exists t1, u, t3.
  - intros (pre & u & post & -> & <-).
    exists (PyStr.lower pre), (PyStr.lower post).
    now rewrite !lower_app.
Qed.

(** ** The question classifier *)

Section Classifier.

Import Needfinding.

Lemma existsb_phrases (text : string) :
  existsb (fun phrase => PyStr.contains phrase (PyStr.lower text))
          free_text_phrases = true <->
  exists phrase, In phrase free_text_phrases /\ icontains phrase text.
Proof.
  rewrite existsb_exists. split.
  - intros (ph & Hin & H). exists ph. now rewrite <- contains_lower_iff.
  - intros (ph & Hin & H). exists ph. now rewrite contains_lower_iff.
Qed.

(** C4, as the code has it: the rules apply in the order consent, free
    text, select-all; a text matching none of them is multiple choice. *)
Theorem identify_question_type_rules (question : question_data) :
  let text := q_text question in
  let free := exists phrase, In phrase free_text_phrases /\ icontains phrase text in
  (icontains "consent" text -> identify_question_type question = skip) /\
  (~ icontains "consent" text -> free ->
   identify_question_type question = free_text) /\
  (~ icontains "consent" text -> ~ free ->
   icontains "select all that apply" text ->
   identify_question_type question = select_all) /\
  (~ icontains "consent" text -> ~ free ->
   ~ icontains "select all that apply" text ->
   identify_question_type question = multiple_choice).
Proof.
  intros text free. unfold identify_question_type. fold text.
  destruct (PyStr.contains "consent" (PyStr.lower text)) eqn:Hc.
  - apply contains_lower_iff in Hc.
    repeat split; intros; try reflexivity; contradiction.
  - assert (Hnc : ~ icontains "consent" text)
      by (rewrite <- contains_lower_iff, Hc; discriminate).
    destruct (existsb _ free_text_phrases) eqn:Hf.
    + apply existsb_phrases in Hf.
      repeat split; intros; try reflexivity; contradiction.
    + assert (Hnf : ~ free)
        by (unfold free; rewrite <- existsb_phrases, Hf; discriminate).
      destruct (PyStr.contains "select all that apply" (PyStr.lower text)) eqn:Hs.
      * apply contains_lower_iff in Hs.
        repeat split; intros; try reflexivity; contradiction.
      * assert (Hns : ~ icontains "select all that apply" text)
          by (rewrite <- contains_lower_iff, Hs; discriminate).
        repeat split; intros; try reflexivity; contradiction.
Qed.

(** The rules at a text that matches both select-all and free text. *)
Lemma identify_question_type_rules_witness :
  identify_question_type q_select_and_describe = free_text.
Proof.
  apply (identify_question_type_rules q_select_and_describe).
  - rewrite <- contains_lower_iff. vm_compute. discriminate.
  - exists "briefly describe". split.
    + simpl. auto.
    + rewrite <- contains_lower_iff. vm_compute. reflexivity.
Defined.

(** C4, as stated, fails: a text that says both "select all that apply"
    and "briefly describe" is free text, not select-all. *)
Lemma listed_order_differs :
  PyStr.contains "select all that apply"
                 (PyStr.lower (q_text q_select_and_describe)) = true /\
  PyStr.contains "consent" (PyStr.lower (q_text q_select_and_describe)) = false /\
  listed_order_question_type q_select_and_describe = select_all /\
  identify_question_type q_select_and_describe = free_text /\
  identify_question_type q_select_and_describe
  <> listed_order_question_type q_select_and_describe.
Proof.
  repeat split; try (vm_compute; reflexivity).
  vm_compute. discriminate.
Qed.

End Classifier.

(** ** Dictionaries *)

Section DictFacts.

Context {V : Type}.
Implicit Types (d : Dict.t V) (k : string) (v : V).

Lemma get_set_eq k v d : Dict.get k (Dict.set k v d) = Some v.
Proof.
  induction d as [|[k' v'] d IH]; simpl.
  - now rewrite String.eqb_refl.
  - destruct (String.eqb k k') eqn:E; simpl; rewrite E; auto.
Qed.

Lemma get_set_ne k k' v d :
  k <> k' -> Dict.get k' (Dict.set k v d) = Dict.get k' d.
Proof.
  intros Hne. induction d as [|[k0 v0] d IH]; simpl.
  - destruct (String.eqb k' k) eqn:E; [|reflexivity].
    apply String.eqb_eq in E. congruence.
  - destruct (String.eqb k k0) eqn:E; simpl.
    + apply String.eqb_eq in E. subst k0.
      destruct (String.eqb k' k) eqn:E'; [|reflexivity].
      apply String.eqb_eq in E'. congruence.
    + now rewrite IH.
Qed.

Lemma get_None_keys k d : Dict.get k d = None <-> ~ In k (Dict.keys d).
Proof.
  induction d as [|[k' v'] d IH]; simpl.
  - tauto.
  - destruct (String.eqb k k') eqn:E.
    + apply String.eqb_eq in E. subst. split; [discriminate | tauto].
    + apply String.eqb_neq in E. rewrite IH. split.
      * intros H [H' | H']; [congruence | tauto].
      * tauto.
Qed.

Lemma has_keys k d : Dict.has k d = true <-> In k (Dict.keys d).
Proof.
  unfold Dict.has. destruct (Dict.get k d) eqn:E.
  - split; [intros _ | reflexivity].
    destruct (in_dec string_dec k (Dict.keys d)) as [H | H]; [exact H|].
    apply get_None_keys in H. congruence.
  - apply get_None_keys in E. split; [discriminate | tauto].
Qed.

(** Setting an absent key appends it. *)
Lemma set_absent k v d :
  ~ In k (Dict.keys d) -> Dict.set k v d = d ++ [(k, v)].
Proof.
  induction d as [|[k' v'] d IH]; simpl; intros H; [reflexivity|].
  destruct (String.eqb k k') eqn:E.
  - apply String.eqb_eq in E. subst. tauto.
  - rewrite IH; tauto.
Qed.

(** Setting a present key changes no key. *)
Lemma keys_set_present k v d :
  In k (Dict.keys d) -> Dict.keys (Dict.set k v d) = Dict.keys d.
Proof.
  induction d as [|[k' v'] d IH]; simpl; intros H; [tauto|].
  destruct (String.eqb k k') eqn:E; simpl; [reflexivity|].
  apply String.eqb_neq in E. rewrite IH; [reflexivity|].
  destruct H; congruence.
Qed.

Lemma keys_set k v d :
  Dict.keys (Dict.set k v d) =
  if Dict.has k d then Dict.keys d else Dict.keys d ++ [k].
Proof.
  destruct (Dict.has k d) eqn:E.
  - apply keys_set_present. now apply has_keys.
  - rewrite set_absent.
    + unfold Dict.keys. now rewrite map_app.
    + rewrite <- has_keys, E. discriminate.
Qed.

Lemma wf_set k v d : Dict.wf d -> Dict.wf (Dict.set k v d).
Proof.
  unfold Dict.wf. intros H. rewrite keys_set.
  destruct (Dict.has k d) eqn:E; [exact H|].
  apply NoDup_app; [exact H | repeat constructor; simpl; tauto |].
  intros x Hx [<- | []]. apply has_keys in Hx. congruence.
Qed.

Lemma wf_In_get k v d : Dict.wf d -> In (k, v) d -> Dict.get k d = Some v.
Proof.
  unfold Dict.wf. induction d as [|[k' v'] d IH]; simpl; intros Hwf Hin; [tauto|].
  inversion Hwf as [|? ? Hnin Hwf']; subst.
  destruct Hin as [Heq | Hin].
  - injection Heq as -> ->. now rewrite String.eqb_refl.
  - destruct (String.eqb k k') eqn:E.
    + apply String.eqb_eq in E. subst. exfalso. apply Hnin.
      change k' with (fst (k', v)). now apply in_map.
    + auto.
Qed.

Lemma get_In k v d : Dict.get k d = Some v -> In (k, v) d.
Proof.
  induction d as [|[k' v'] d IH]; simpl; [discriminate|].
  destruct (String.eqb k k') eqn:E.
  - apply String.eqb_eq in E. intros [= ->]. subst. now left.
  - auto.
Qed.

Lemma In_values_set k v d x :
  In x (Dict.values (Dict.set k v d)) -> x = v \/ In x (Dict.values d).
Proof.
  induction d as [|[k' v'] d IH]; simpl.
  - intros [<- | []]. now left.
  - destruct (String.eqb k k'); simpl.
    + intros [<- | H]; auto.
    + intros [<- | H]; auto. destruct (IH H); auto.
Qed.

Lemma get_In_values k v d : Dict.get k d = Some v -> In v (Dict.values d).
Proof.
  intros H. apply get_In in H. change v with (snd (k, v)). now apply in_map.
Qed.

(** A list of pairs with distinct keys is its own dictionary. *)
Lemma fold_set_distinct (l : list (string * V)) d :
  NoDup (Dict.keys (d ++ l)) ->
  fold_left (fun acc kv => Dict.set (fst kv) (snd kv) acc) l d = d ++ l.
Proof.
  revert d. induction l as [|[k v] l IH]; intros d H; simpl.
  - now rewrite app_nil_r.
  - assert (Hk : ~ In k (Dict.keys d)).
    { unfold Dict.keys in *. rewrite map_app in H. simpl in H.
      apply NoDup_remove_2 in H. intros Hin. apply H.
      apply in_or_app. now left. }
    rewrite set_absent by exact Hk.
    rewrite IH; rewrite <- app_assoc; simpl; [reflexivity | exact H].
Qed.

Lemma of_list_distinct (l : list (string * V)) :
  NoDup (Dict.keys l) -> Dict.of_list l = l.
Proof.
  intros H. unfold Dict.of_list. now rewrite fold_set_distinct.
Qed.

Lemma wf_fold_set {A : Type} (f : Dict.t V -> A -> Dict.t V) (l : list A) d :
  (forall acc a, Dict.wf acc -> Dict.wf (f acc a)) ->
  Dict.wf d -> Dict.wf (fold_left f l d).
Proof.
  intros Hf. revert d. induction l as [|a l IH]; simpl; auto.
Qed.

Lemma wf_of_list (l : list (string * V)) : Dict.wf (Dict.of_list l).
Proof.
  apply wf_fold_set; [intros; now apply wf_set | constructor].
Qed.

End DictFacts.

Lemma zsum_app (a b : list Z) : zsum (a ++ b) = zsum a + zsum b.
Proof.
  induction a as [|x a IH]; simpl; [reflexivity | lia].
Qed.

(** ** Counting answers *)

Section CounterFacts.

Lemma zsum_values_set (k : string) (v : Z) (d : Dict.t Z) :
  zsum (Dict.values (Dict.set k v d))
  = zsum (Dict.values d) - Dict.get_default k 0 d + v.
Proof.
  unfold Dict.get_default.
  induction d as [|[k' v'] d IH]; simpl; [lia|].
  destruct (String.eqb k k') eqn:E; simpl; [lia|]. rewrite IH. lia.
Qed.

Lemma counter_fold_sum (l : list string) (d : Dict.t Z) :
  zsum (Dict.values (fold_left counter_step l d))
  = zsum (Dict.values d) + Z.of_nat (length l).
Proof.
  revert d. induction l as [|x l IH]; intros d; simpl; [lia|].
  rewrite IH. unfold counter_step. rewrite zsum_values_set. lia.
Qed.

(** A counter holds as many counts as there were elements. *)
Lemma counter_sum (l : list string) :
  zsum (Dict.values (Counter l)) = Z.of_nat (length l).
Proof.
  unfold Counter. now rewrite counter_fold_sum.
Qed.

Lemma counter_fold_get (x : string) (l : list string) (d : Dict.t Z) :
  In x l ->
  exists c, Dict.get x (fold_left counter_step l d) = Some c
            /\ c = Dict.get_default x 0 d + Z.of_nat (count_occ string_dec l x).
Proof.
  revert d. induction l as [|y l IH]; intros d Hin; [destruct Hin|].
  simpl fold_left. destruct (string_dec y x) as [-> | Hne].
  - rewrite count_occ_cons_eq by reflexivity.
    destruct (in_dec string_dec x l) as [Hl | Hl].
    + destruct (IH (counter_step d x) Hl) as (c & Hc & ->).
      eexists; split; [exact Hc|].
      unfold counter_step at 1, Dict.get_default at 1. rewrite get_set_eq. lia.
    + assert (Hfix : forall d', Dict.get x (fold_left counter_step l d') = Dict.get x d').
      { clear -Hl. induction l as [|z l IH]; intros d'; [reflexivity|].
        simpl. rewrite IH by (simpl in Hl; tauto).
        unfold counter_step. apply get_set_ne. simpl in Hl. tauto. }
      rewrite Hfix. unfold counter_step. rewrite get_set_eq.
      eexists; split; [reflexivity|].
      rewrite (proj1 (count_occ_not_In string_dec l x) Hl). lia.
  - rewrite count_occ_cons_neq by exact Hne.
    destruct Hin as [-> | Hl]; [congruence|].
    destruct (IH (counter_step d y) Hl) as (c & Hc & ->).
    eexists; split; [exact Hc|].
    unfold counter_step at 1, Dict.get_default at 1.
    rewrite get_set_ne by exact Hne. reflexivity.
Qed.

(** Every element is a key of the counter, with its number of
    occurrences. *)
Lemma counter_get (x : string) (l : list string) :
  In x l ->
  Dict.get x (Counter l) = Some (Z.of_nat (count_occ string_dec l x)).
Proof.
  intros Hin. destruct (counter_fold_get x l Dict.empty Hin) as (c & Hc & ->).
  exact Hc.
Qed.

End CounterFacts.

(** ** Multiple-choice questions *)

Section MultipleChoice.

Import Needfinding.

Lemma is_none_truthy (a : string) : is_none a = true -> PyStr.truthy a = true.
Proof.
  unfold is_none. destruct a; simpl; [discriminate | reflexivity].
Qed.

(** An answer kept by the counter is either totalled or reads "none". *)
Lemma kept_split (answers : list string) :
  length (filter (fun ans =>
            (PyStr.truthy ans
             && negb (PyStr.mem (PyStr.lower ans) no_answer2))%bool) answers)
  = (length (filter (fun a =>
            (PyStr.truthy a
             && negb (PyStr.mem (PyStr.lower a) no_answer3))%bool) answers)
     + length (filter is_none answers))%nat.
Proof.
  induction answers as [|a l IH]; [reflexivity|].
  cbn [filter]. pose proof (is_none_truthy a) as Ht.
  unfold PyStr.mem, no_answer2, no_answer3 in *. cbn [existsb] in *.
  unfold is_none in *.
  destruct (String.eqb (PyStr.lower a) "none") eqn:E3.
  - rewrite Ht by reflexivity. apply String.eqb_eq in E3. rewrite E3.
    cbn. lia.
  - rewrite !orb_false_r.
    destruct (PyStr.truthy a && negb (_ || _))%bool; cbn [length]; lia.
Qed.

Lemma total_responses_excluded (answers : list string) :
  total_responses answers
  = Z.of_nat (length answers) - Z.of_nat (length (filter excluded answers)).
Proof.
  unfold total_responses.
  induction answers as [|a l IH]; [reflexivity|].
  cbn [filter length]. unfold excluded at 1.
  destruct (PyStr.truthy a); destruct (PyStr.mem _ no_answer3);
    cbn [negb andb orb length]; lia.
Qed.

Lemma analyze_loop_entries (all data : list question_data)
      (results : Dict.t result_entry) (figures : list chart) :
  incl data all ->
  (forall e, In e (Dict.values results) -> exists q, In q all /\ entry_of q e) ->
  forall e, In e (Dict.values (fst (analyze_loop data results figures))) ->
            exists q, In q all /\ entry_of q e.
Proof.
  revert results figures.
  induction data as [|q data IH]; intros results figures Hincl Hres;
    [exact Hres|].
  assert (Hq : In q all) by (apply Hincl; now left).
  assert (Hincl' : incl data all) by (intros x Hx; apply Hincl; now right).
  cbn [analyze_loop].
  destruct (identify_question_type q) eqn:Ety; try (now apply IH).
  - destruct (process_select_all_question (q_answers q)) eqn:Ec;
      [now apply IH|].
    apply IH; [exact Hincl'|]. intros e He.
    apply In_values_set in He. destruct He as [-> | He]; [|now apply Hres].
    exists q. split; [exact Hq|]. unfold entry_of. rewrite Ety, Ec. cbn. auto.
  - destruct (process_multiple_choice_question (q_answers q)) eqn:Ec;
      [now apply IH|].
    apply IH; [exact Hincl'|]. intros e He.
    apply In_values_set in He. destruct He as [-> | He]; [|now apply Hres].
    exists q. split; [exact Hq|]. unfold entry_of. rewrite Ety, Ec. cbn. auto.
Qed.

(** C9: the counter of a multiple-choice question counts the answers
    "none", [total_responses] leaves them out together with the empty,
    "n/a" and "na" answers, so the counts add up to the total plus the
    number of "none" answers; this holds of the entries that
    [analyze_survey] reports, and for [q_planning] the counts add up to
    more than the total. *)
Theorem none_counted_but_not_totalled :
  (forall answers : list string,
      let counter := process_multiple_choice_question answers in
      (forall a, In a answers -> is_none a = true ->
                 exists c, Dict.get a counter = Some c /\ 1 <= c) /\
      total_responses answers
      = Z.of_nat (length answers) - Z.of_nat (length (filter excluded answers)) /\
      (forall a, is_none a = true -> excluded a = true) /\
      zsum (Dict.values counter)
      = total_responses answers + Z.of_nat (length (filter is_none answers))) /\
  (forall data results figures id e,
      analyze_survey data = Some (results, figures) ->
      Dict.get id results = Some e ->
      r_type e = multiple_choice ->
      exists q, In q data /\
        r_statistics e = process_multiple_choice_question (q_answers q) /\
        r_total_responses e = total_responses (q_answers q) /\
        r_total_responses e <= zsum (Dict.values (r_statistics e))) /\
  (exists results figures e,
      analyze_survey [q_planning] = Some (results, figures) /\
      Dict.get (q_id q_planning) results = Some e /\
      r_type e = multiple_choice /\
      r_total_responses e < zsum (Dict.values (r_statistics e))).
Proof.
  assert (Hsum : forall answers,
             zsum (Dict.values (process_multiple_choice_question answers))
             = total_responses answers
               + Z.of_nat (length (filter is_none answers))).
  { intros answers. unfold process_multiple_choice_question, total_responses.
    rewrite counter_sum, kept_split. lia. }
  split; [|split].
  - intros answers counter. repeat split.
    + intros a Hin Hnone.
      assert (Hkept : In a (filter (fun ans =>
                 (PyStr.truthy ans
                  && negb (PyStr.mem (PyStr.lower ans) no_answer2))%bool)
                 answers)).
      { apply filter_In. split; [exact Hin|].
        rewrite (is_none_truthy a Hnone). unfold is_none in Hnone.
        apply String.eqb_eq in Hnone. rewrite Hnone. reflexivity. }
      unfold counter, process_multiple_choice_question.
      rewrite (counter_get _ _ Hkept). eexists; split; [reflexivity|].
      apply (count_occ_In string_dec) in Hkept. lia.
    + apply total_responses_excluded.
    + intros a Hnone. unfold excluded, is_none in *.
      apply String.eqb_eq in Hnone. rewrite Hnone.
      now rewrite orb_true_r.
    + apply Hsum.
  - intros data results figures id e Hrun Hget Hty.
    destruct data as [|q0 data]; [discriminate|].
    change (Some (analyze_loop (q0 :: data) Dict.empty [])
            = Some (results, figures)) in Hrun.
    assert (He : In e (Dict.values (fst (analyze_loop (q0 :: data) Dict.empty [])))).
    { remember (analyze_loop (q0 :: data) Dict.empty []) as out.
      replace out with (results, figures) by congruence.
      now apply get_In_values in Hget. }
    apply (analyze_loop_entries (q0 :: data)) in He;
      [|apply incl_refl | intros ? []].
    destruct He as (q & Hq & _ & Hty' & Hst & Htot).
    rewrite Hty in Hty'. rewrite <- Hty' in Hst.
    exists q. repeat split; try assumption.
    rewrite Hst, Htot, Hsum. lia.
  - eexists _, _, _. split; [reflexivity|].
    split; [vm_compute; reflexivity|]. split; reflexivity.
Qed.

(** The entry of [q_planning]: two answers are totalled while the counts
    add up to four. *)
Lemma none_counted_but_not_totalled_witness :
  exists q, In q [q_planning] /\
    r_statistics planning_entry
    = process_multiple_choice_question (q_answers q) /\
    r_total_responses planning_entry = total_responses (q_answers q) /\
    r_total_responses planning_entry
    <= zsum (Dict.values (r_statistics planning_entry)).
Proof.
  apply (proj1 (proj2 none_counted_but_not_totalled)
           [q_planning]
           (fst (analyze_loop [q_planning] Dict.empty []))
           (snd (analyze_loop [q_planning] Dict.empty []))
           (q_id q_planning) planning_entry);
    vm_compute; reflexivity.
Defined.

End MultipleChoice.

(** ** Charts *)

Section Charts.

Import Needfinding.

(** C8: for a question whose text says "how many trips" and neither
    "how many times" nor "away from your home city" (letter case ignored),
    the bars of the bar chart are the five trip buckets in their fixed
    order, each with its count in the data, zero when the data has none. *)
Theorem trip_frequency_bar_order (data : Dict.t Z) (question_text : string) :
  icontains "how many trips" question_text ->
  ~ icontains "how many times" question_text ->
  ~ icontains "away from your home city" question_text ->
  let bars := create_bar_chart data question_text in
  Dict.keys bars = trips_order /\
  Dict.values bars = map (fun b => Dict.get_default b 0 data) trips_order /\
  (forall b, In b trips_order -> Dict.get b data = None ->
             Dict.get b bars = Some 0).
Proof.
  intros Htrips Htimes Haway.
  apply contains_lower_iff in Htrips.
  rewrite <- contains_lower_iff in Htimes, Haway.
  apply not_true_is_false in Htimes, Haway.
  assert (Hbars : create_bar_chart data question_text
                  = map (fun b => (b, Dict.get_default b 0 data)) trips_order).
  { unfold create_bar_chart, order_data_for_chart, get_custom_order.
    rewrite Htrips, Htimes, Haway. reflexivity. }
  intros bars. subst bars. rewrite Hbars. repeat split.
  intros b Hin Hnone. unfold Dict.get_default.
  simpl in Hin.
  destruct Hin as [<- | [<- | [<- | [<- | [<- | []]]]]];
    cbn; unfold Dict.get_default; now rewrite Hnone.
Qed.

Lemma trip_frequency_bar_order_witness :
  Dict.keys (create_bar_chart trips_data trips_text) = trips_order /\
  Dict.values (create_bar_chart trips_data trips_text) = [2; 0; 4; 0; 1].
Proof.
  destruct (trip_frequency_bar_order trips_data trips_text) as (Hk & Hv & _).
  - rewrite <- contains_lower_iff. vm_compute. reflexivity.
  - rewrite <- contains_lower_iff. vm_compute. discriminate.
  - rewrite <- contains_lower_iff. vm_compute. discriminate.
  - split; [exact Hk | exact Hv].
Defined.

Lemma wf_order_data_for_chart (data : Dict.t Z) (question_text : string)
      (include_zeros : bool) :
  Dict.wf (order_data_for_chart data question_text include_zeros).
Proof.
  unfold order_data_for_chart.
  destruct (get_custom_order question_text) as [custom_order|];
    [|apply wf_of_list].
  destruct (include_zeros && _)%bool.
  - apply wf_fold_set; [intros; now apply wf_set | constructor].
  - apply wf_fold_set.
    + intros acc a Hacc. destruct (Dict.has (fst a) acc); [exact Hacc|].
      now apply wf_set.
    + apply wf_fold_set; [|constructor].
      intros acc a Hacc. destruct (Dict.get a data); [now apply wf_set | exact Hacc].
Qed.

Lemma wf_firstn {V : Type} (n : nat) (d : Dict.t V) :
  Dict.wf d -> Dict.wf (firstn n d).
Proof.
  unfold Dict.wf, Dict.keys. intros H.
  rewrite <- (firstn_skipn n d), map_app in H.
  now apply NoDup_app_remove_r in H.
Qed.

(** C5, as the code has it: a pie chart never has more than eight
    slices; data of at most eight categories is drawn as it is; of more
    than eight categories the first seven are drawn and the others are
    added up in one slice "Other Categories" (when their sum is
    positive). *)
Theorem pie_chart_slices (data : Dict.t Z) (question_text : string) :
  let sorted_data := order_data_for_chart data question_text false in
  let pie := create_pie_chart data question_text in
  let other_count := zsum (skipn 7 (Dict.values sorted_data)) in
  (length pie <= 8)%nat /\
  ((length sorted_data <= 8)%nat -> pie = sorted_data) /\
  ((8 < length sorted_data)%nat ->
   (other_count <= 0 -> pie = firstn 7 sorted_data) /\
   (0 < other_count ->
    ~ In "Other Categories" (Dict.keys (firstn 7 sorted_data)) ->
    pie = firstn 7 sorted_data ++ [("Other Categories", other_count)]) /\
   (0 < other_count ->
    In "Other Categories" (Dict.keys (firstn 7 sorted_data)) ->
    Dict.keys pie = Dict.keys (firstn 7 sorted_data) /\
    Dict.get "Other Categories" pie = Some other_count)).
Proof.
  intros sorted_data pie other_count.
  pose proof (wf_order_data_for_chart data question_text false) as Hwf.
  fold sorted_data in Hwf.
  assert (Htop : Dict.of_list (firstn 7 (Dict.items sorted_data))
                 = firstn 7 sorted_data).
  { apply of_list_distinct. now apply wf_firstn. }
  unfold pie, create_pie_chart. fold sorted_data. fold other_count.
  rewrite Htop.
  destruct (Nat.ltb_spec 8 (length sorted_data)) as [Hlen | Hlen].
  - assert (H7 : length (firstn 7 sorted_data) = 7%nat)
      by (rewrite length_firstn; lia).
    destruct (Z.ltb_spec 0 other_count) as [Hpos | Hpos].
    + split; [|split; [lia|intros _; repeat split; try lia]].
      * pose proof (f_equal (@length _)
                      (keys_set "Other Categories" other_count
                                (firstn 7 sorted_data))) as Hk.
        unfold Dict.keys in Hk. rewrite !length_map in Hk. rewrite Hk.
        destruct (Dict.has _ _); rewrite ?length_app, length_map, H7;
          simpl; lia.
      * intros _ Hnin. now apply set_absent.
      * now apply keys_set_present.
      * apply get_set_eq.
    + split; [lia|]. split; [lia|]. intros _. repeat split; try lia.
  - split; [exact Hlen|]. split; [reflexivity | lia].
Qed.

(** Ten categories: seven slices and "Other Categories". *)
Lemma pie_chart_slices_witness :
  create_pie_chart ten_categories "Which tool do you use most?"
  = firstn 7 eight_categories ++ [("Other Categories", 4)].
Proof.
  destruct (pie_chart_slices ten_categories "Which tool do you use most?")
    as (_ & _ & H).
  assert (Hlen : (8 < length (order_data_for_chart ten_categories
                    "Which tool do you use most?" false))%nat)
    by (vm_compute; lia).
  destruct (H Hlen) as (_ & Hother & _).
  apply Hother.
  - vm_compute. reflexivity.
  - vm_compute. intuition discriminate.
Defined.

(** C5, as stated, fails: of eight categories the eighth is past the cap
    of seven and still has its own slice; nothing is collapsed. *)
Lemma eighth_category_not_collapsed :
  create_pie_chart eight_categories "Which tool do you use most?"
  = eight_categories /\
  ~ beyond_cap_collapsed eight_categories "Which tool do you use most?".
Proof.
  split; [vm_compute; reflexivity|].
  intros H. specialize (H 7%nat "Memory" 2 (le_n 7) eq_refl).
  vm_compute in H. discriminate.
Qed.

End Charts.

(** ** Ranking questions *)

Section RankingFacts.

Import Prototype.

Variable chisquare : list Z -> list Q -> npfloat Q * npfloat Q.

Lemma votes_cons (name a : string) (answers : list string) :
  votes name (a :: answers)
  = (if PyStr.contains name a then 1 else 0) + votes name answers.
Proof.
  unfold votes. cbn [filter]. destruct (PyStr.contains name a); reflexivity.
Qed.

Lemma votes_length (name : string) (answers : list string) :
  votes name answers
  = Z.of_nat (length (filter (PyStr.contains name) answers)).
Proof.
  unfold votes. induction (filter (PyStr.contains name) answers) as [|x l IH];
    [reflexivity|].
  cbn [map zsum fold_right length]. unfold zsum in IH. rewrite IH. lia.
Qed.

Lemma total_votes (answers : list string) :
  zsum (Dict.values (prototype_counts answers)) = zsum (map mentions answers).
Proof.
  change (zsum (Dict.values (prototype_counts answers)))
    with (votes "Prototype A" answers
          + (votes "Prototype B" answers + (votes "Prototype C" answers + 0))).
  induction answers as [|a l IH]; [reflexivity|].
  rewrite !votes_cons. cbn [map zsum fold_right]. unfold zsum in IH.
  rewrite <- IH. unfold mentions. cbn [prototype_names map zsum fold_right].
  lia.
Qed.

(** C10: each count is the number of answers that contain the
    prototype's name, so an answer adds one to the count of every name
    it contains and nothing when it contains none; [total_responses] is
    the sum of the three counts, that is the number of mentions; for
    [ranking_df], where one of two respondents names all three prototypes
    and the other none, it is three. *)
Theorem ranking_counts_mentions :
  (forall answers : list string,
      let r := ranking_entry chisquare answers in
      (forall name, In name prototype_names ->
         Dict.get name (counts r)
         = Some (Z.of_nat (length (filter (PyStr.contains name) answers)))) /\
      total_responses r = zsum (Dict.values (counts r)) /\
      total_responses r = zsum (map mentions answers)) /\
  (forall (a : string) (answers : list string) (name : string),
      In name prototype_names ->
      Dict.get name (counts (ranking_entry chisquare (a :: answers)))
      = Some ((if PyStr.contains name a then 1 else 0) + votes name answers)
      /\ Dict.get name (counts (ranking_entry chisquare answers))
         = Some (votes name answers)) /\
  (forall a, mentions a = 0 <->
             forall name, In name prototype_names -> PyStr.contains name a = false) /\
  (forall (df : DataFrame) (q_id label : string),
      In (q_id, label) ranking_questions ->
      Dict.get label (analyze_ranking_questions chisquare df)
      = Some (ranking_entry chisquare (answers_of df q_id))) /\
  (exists r,
      Dict.get "BEST" (analyze_ranking_questions chisquare ranking_df) = Some r /\
      length (answers_of ranking_df "1763433609862") = 2%nat /\
      counts r = [("Prototype A", 1); ("Prototype B", 1); ("Prototype C", 1)] /\
      total_responses r = 3 /\
      Z.of_nat (length (answers_of ranking_df "1763433609862"))
      < total_responses r).
Proof.
  assert (Hget : forall answers name, In name prototype_names ->
             Dict.get name (prototype_counts answers) = Some (votes name answers)).
  { intros answers name Hin. simpl in Hin.
    destruct Hin as [<- | [<- | [<- | []]]]; reflexivity. }
  repeat split.
  - intros name Hin. cbn [ranking_entry counts].
    rewrite Hget by exact Hin. now rewrite votes_length.
  - cbn [ranking_entry total_responses counts]. apply total_votes.
  - cbn [ranking_entry counts]. rewrite Hget by assumption.
    now rewrite votes_cons.
  - cbn [ranking_entry counts]. now apply Hget.
  - intros H0 name Hin. unfold mentions in H0.
    cbn [prototype_names map zsum fold_right] in H0. simpl in Hin.
    destruct (PyStr.contains "Prototype A" a) eqn:EA;
      destruct (PyStr.contains "Prototype B" a) eqn:EB;
      destruct (PyStr.contains "Prototype C" a) eqn:EC; try lia.
    destruct Hin as [<- | [<- | [<- | []]]]; assumption.
  - intros H. unfold mentions. cbn [prototype_names map zsum fold_right].
    rewrite !H by (simpl; auto). reflexivity.
  - intros df q_id label Hin. simpl in Hin.
    destruct Hin as [[= <- <-] | [[= <- <-] | [[= <- <-] | []]]]; reflexivity.
  - eexists. split; [reflexivity|]. repeat split.
Qed.

End RankingFacts.

(** An answer that names two prototypes adds to two counts. *)
Lemma ranking_counts_mentions_witness :
  Dict.get "Prototype B"
    (Prototype.counts
       (Prototype.ranking_entry (fun _ _ => (NaN, NaN))
          ["Prototype A, or maybe Prototype B"; "Prototype B"]))
  = Some (1 + Prototype.votes "Prototype B" ["Prototype B"]).
Proof.
  apply (proj1 (proj2 (ranking_counts_mentions (fun _ _ => (NaN, NaN))))
           "Prototype A, or maybe Prototype B" ["Prototype B"] "Prototype B").
  simpl. auto.
Defined.

(** ** Loops that may raise *)

Section Loops.

Context {A S : Type}.

(** A property kept by every step that returns holds of the result. *)
Lemma foldM_invariant (P : S -> Prop) (f : S -> A -> result S)
      (l : list A) (s s' : S) :
  P s ->
  (forall acc a acc', In a l -> P acc -> f acc a = Ok acc' -> P acc') ->
  foldM f l s = Ok s' -> P s'.
Proof.
  revert s. induction l as [|a l IH]; intros s Hs Hstep Hrun; simpl in Hrun.
  - now injection Hrun as <-.
  - destruct (f s a) as [s1|e] eqn:E; simpl in Hrun; [|discriminate].
    apply (IH s1); auto.
    + apply (Hstep s a); simpl; auto.
    + intros acc b acc' Hb. apply Hstep. now right.
Qed.

(** A loop whose steps all return, returns. *)
Lemma foldM_total (P : S -> Prop) (f : S -> A -> result S)
      (l : list A) (s : S) :
  P s ->
  (forall acc a, In a l -> P acc -> exists acc', f acc a = Ok acc' /\ P acc') ->
  exists s', foldM f l s = Ok s'.
Proof.
  revert s. induction l as [|a l IH]; intros s Hs Hstep; simpl.
  - now exists s.
  - destruct (Hstep s a) as (s1 & E & Hs1); simpl; auto.
    rewrite E. simpl. apply (IH s1); auto.
    intros acc b Hb. apply Hstep. now right.
Qed.

End Loops.

Lemma mapM_Ok_map {A B : Type} (f : A -> result B) (l : list A) (bs : list B) :
  mapM f l = Ok bs -> Forall2 (fun a b => f a = Ok b) l bs.
Proof.
  revert bs. induction l as [|a l IH]; intros bs H; simpl in H.
  - injection H as <-. constructor.
  - destruct (f a) as [b|] eqn:E; simpl in H; [|discriminate].
    destruct (mapM f l) as [bs'|]; simpl in H; [|discriminate].
    injection H as <-. constructor; auto.
Qed.

Lemma Forall2_mapM {A B : Type} (f : A -> result B) (l : list A) (bs : list B) :
  Forall2 (fun a b => f a = Ok b) l bs -> mapM f l = Ok bs.
Proof.
  induction 1 as [|a b l bs E _ IH]; simpl; [reflexivity|].
  now rewrite E, IH.
Qed.

(** Mapping over a reordered list gives the reordered results. *)
Lemma mapM_permutation {A B : Type} (f : A -> result B) (l l' : list A)
      (bs : list B) :
  Permutation l l' -> mapM f l = Ok bs ->
  exists bs', mapM f l' = Ok bs' /\ Permutation bs bs'.
Proof.
  intros Hp. revert bs.
  induction Hp as [|a l l' Hp IH|a b l|l l' l'' Hp1 IH1 Hp2 IH2]; intros bs H.
  - exists bs. now split.
  - simpl in *. destruct (f a) as [x|]; simpl in *; [|discriminate].
    destruct (mapM f l) as [xs|]; simpl in *; [|discriminate].
    injection H as <-. destruct (IH xs eq_refl) as (xs' & -> & Hxs).
    exists (x :: xs'). simpl. split; [reflexivity | now constructor].
  - simpl in *. destruct (f b) as [y|]; simpl in *; [|discriminate].
    destruct (f a) as [x|]; simpl in *; [|discriminate].
    destruct (mapM f l) as [xs|]; simpl in *; [|discriminate].
    injection H as <-. exists (x :: y :: xs). split; [reflexivity | constructor].
  - destruct (IH1 bs H) as (bs1 & H1 & Hb1).
    destruct (IH2 bs1 H1) as (bs2 & H2 & Hb2).
    exists bs2. split; [exact H2 | now transitivity bs1].
Qed.

Lemma build_dict {A V : Type} (key : A -> string) (val : A -> V) (l : list A) :
  NoDup (map key l) ->
  fold_left (fun acc x => Dict.set (key x) (val x) acc) l Dict.empty
  = map (fun x => (key x, val x)) l.
Proof.
  intros H.
  assert (Hgen : forall acc,
             fold_left (fun acc x => Dict.set (key x) (val x) acc) l acc
             = fold_left (fun acc kv => Dict.set (fst kv) (snd kv) acc)
                         (map (fun x => (key x, val x)) l) acc).
  { induction l as [|x l IH]; intros acc; [reflexivity|].
    simpl. apply IH. now inversion H. }
  rewrite Hgen. apply (of_list_distinct (map (fun x => (key x, val x)) l)).
  unfold Dict.keys. rewrite map_map. exact H.
Qed.


(** ** Loops that set dictionary entries *)

Section SettingLoops.

Context {A S V : Type}.

(** A loop whose steps raise nothing but [e] raises [e] as soon as one
    step does. *)
Lemma foldM_raises (f : S -> A -> result S) (l : list A) (s : S)
      (e : exception) :
  (forall acc a, In a l -> f acc a = Raise e \/ exists acc', f acc a = Ok acc') ->
  (exists a, In a l /\ forall acc, f acc a = Raise e) ->
  foldM f l s = Raise e.
Proof.
  revert s. induction l as [|a l IH]; intros s Hall (b & Hb & Hbad);
    [destruct Hb|].
  cbn [foldM]. destruct Hb as [<- | Hb].
  - now rewrite Hbad.
  - destruct (Hall s a (or_introl eq_refl)) as [-> | (acc' & ->)];
      [reflexivity|].
    cbn [bind]. apply IH.
    + intros acc x Hx. apply Hall. now right.
    + now exists b.
Qed.

Lemma foldM_Ok_steps (f : S -> A -> result S) (l : list A) (s s' : S) :
  foldM f l s = Ok s' ->
  forall a, In a l -> exists acc acc', f acc a = Ok acc'.
Proof.
  revert s. induction l as [|x l IH]; intros s Hrun a Ha; [destruct Ha|].
  cbn [foldM] in Hrun. destruct (f s x) as [s1|] eqn:E; [|discriminate].
  destruct Ha as [<- | Ha]; [now exists s, s1|]. now apply (IH s1).
Qed.

Lemma mapM_raises {B : Type} (f : A -> result B) (l : list A) (e : exception) :
  (forall a, In a l -> f a = Raise e \/ exists b, f a = Ok b) ->
  (exists a, In a l /\ f a = Raise e) ->
  mapM f l = Raise e.
Proof.
  induction l as [|a l IH]; intros Hall (b & Hb & Hbad); [destruct Hb|].
  cbn [mapM]. destruct Hb as [<- | Hb].
  - now rewrite Hbad.
  - destruct (Hall a (or_introl eq_refl)) as [-> | (y & ->)]; [reflexivity|].
    cbn [bind]. rewrite IH; [reflexivity | | now exists b].
    intros x Hx. apply Hall. now right.
Qed.



(** A loop that sets one computed entry per element, under distinct keys,
    builds the dictionary of the entries in the order of the elements. *)
Lemma foldM_set_values (key : A -> string) (g : A -> result V) (val : A -> V)
      (l : list A) :
  NoDup (map key l) ->
  (forall a, In a l -> g a = Ok (val a)) ->
  foldM (fun acc a => v <- g a ;; Ok (Dict.set (key a) v acc)) l Dict.empty
  = Ok (map (fun a => (key a, val a)) l).
Proof.
  intros Hnd Hval. rewrite <- (build_dict key val l Hnd).
  generalize (@Dict.empty V). clear Hnd.
  induction l as [|x l IH]; intros acc; [reflexivity|].
  cbn [foldM fold_left]. rewrite (Hval x (or_introl eq_refl)). cbn [bind].
  apply IH. intros a Ha. apply Hval. now right.
Qed.

End SettingLoops.


(** ** The parse of the answers *)

Section Parse.

Import Prototype.

Variable isdigit : string -> bool.
Variable int : string -> option Z.

(** The parse raises nothing but [ValueError]. *)
Lemma numeric_answers_raises (answers : list string) (e : exception) :
  numeric_answers isdigit int answers = Raise e -> e = ValueError.
Proof.
  unfold numeric_answers.
  induction (filter isdigit answers) as [|a l IH]; cbn [mapM]; [discriminate|].
  destruct (int a); cbn [bind]; [|congruence].
  destruct (mapM _ l); cbn [bind]; [discriminate | exact IH].
Qed.

Lemma parsed_Ok (df : DataFrame) (q_id : string) (values : list Z) :
  numeric_answers isdigit int (answers_of df q_id) = Ok values ->
  parsed isdigit int df q_id = values.
Proof.
  unfold parsed. now intros ->.
Qed.

(** When every listed question parses, the Likert data has the parsed
    values of every question under its prototype and label. *)
Lemma get_likert_data_returns (df : DataFrame)
      (likert_questions : Dict.t (list (string * string)))
      (values_of : string -> list Z) :
  Dict.wf likert_questions ->
  Forall (fun pq => NoDup (map snd (snd pq))) likert_questions ->
  (forall pq ql, In pq likert_questions -> In ql (snd pq) ->
     numeric_answers isdigit int (answers_of df (fst ql))
     = Ok (values_of (fst ql))) ->
  get_likert_data isdigit int df likert_questions
  = Ok (map (fun pq =>
               (fst pq,
                map (fun ql => (snd ql, values_of (fst ql))) (snd pq)))
            likert_questions).
Proof.
  intros Hwf Hlabels Hparse. unfold get_likert_data, Dict.items.
  apply (foldM_set_values fst
           (fun pq => foldM (fun prototype_data ql =>
                               numeric <- numeric_answers isdigit int
                                            (answers_of df (fst ql)) ;;
                               Ok (Dict.set (snd ql) numeric prototype_data))
                            (snd pq) Dict.empty)
           (fun pq => map (fun ql => (snd ql, values_of (fst ql))) (snd pq))
           likert_questions Hwf).
  intros pq Hpq.
  apply (foldM_set_values snd
           (fun ql => numeric_answers isdigit int (answers_of df (fst ql)))
           (fun ql => values_of (fst ql))).
  - exact (proj1 (Forall_forall _ _) Hlabels pq Hpq).
  - intros ql Hql. now apply (Hparse pq).
Qed.

(** The Likert data is returned only when every listed question parses. *)
Lemma get_likert_data_Ok (df : DataFrame)
      (likert_questions : Dict.t (list (string * string)))
      (likert_data : LikertData) :
  get_likert_data isdigit int df likert_questions = Ok likert_data ->
  forall pq ql, In pq likert_questions -> In ql (snd pq) ->
    parses isdigit int df (fst ql).
Proof.
  intros Hrun pq ql Hpq Hql. unfold get_likert_data, Dict.items in Hrun.
  destruct (foldM_Ok_steps _ _ _ _ Hrun pq Hpq) as (acc & acc' & Hstep).
  destruct (foldM _ (snd pq) Dict.empty) as [pd|] eqn:Einner;
    [|discriminate].
  destruct (foldM_Ok_steps _ _ _ _ Einner ql Hql) as (acc0 & acc0' & Hstep0).
  unfold parses.
  destruct (numeric_answers isdigit int (answers_of df (fst ql))) as [v|];
    [now exists v | discriminate].
Qed.

(** A question that does not parse makes the extraction raise
    [ValueError]. *)
Lemma get_likert_data_raises (df : DataFrame)
      (likert_questions : Dict.t (list (string * string))) :
  (exists pq ql, In pq likert_questions /\ In ql (snd pq) /\
                 ~ parses isdigit int df (fst ql)) ->
  get_likert_data isdigit int df likert_questions = Raise ValueError.
Proof.
  intros (pq & ql & Hpq & Hql & Hbad).
  assert (Hinner : forall l acc,
             foldM (fun prototype_data ql0 =>
                      numeric <- numeric_answers isdigit int
                                   (answers_of df (fst ql0)) ;;
                      Ok (Dict.set (snd ql0) numeric prototype_data))
                   l acc = Raise ValueError
             \/ exists pd, foldM (fun prototype_data ql0 =>
                      numeric <- numeric_answers isdigit int
                                   (answers_of df (fst ql0)) ;;
                      Ok (Dict.set (snd ql0) numeric prototype_data))
                   l acc = Ok pd).
  { induction l as [|x l IH]; intros acc; [right; now exists acc|].
    cbn [foldM].
    destruct (numeric_answers isdigit int (answers_of df (fst x))) as [v|e]
      eqn:E; cbn [bind]; [apply IH|].
    left. now rewrite (numeric_answers_raises _ _ E). }
  unfold get_likert_data, Dict.items. apply foldM_raises.
  - intros acc x _. destruct (Hinner (snd x) Dict.empty) as [-> | (pd & ->)];
      cbn [bind]; [now left | right; eauto].
  - exists pq. split; [exact Hpq|]. intros acc.
    assert (Hq : foldM (fun prototype_data ql0 =>
                      numeric <- numeric_answers isdigit int
                                   (answers_of df (fst ql0)) ;;
                      Ok (Dict.set (snd ql0) numeric prototype_data))
                   (snd pq) Dict.empty = Raise ValueError).
    { apply foldM_raises.
      - intros acc0 x _.
        destruct (numeric_answers isdigit int (answers_of df (fst x)))
          as [v|e] eqn:E; cbn [bind]; [right; eauto|].
        left. now rewrite (numeric_answers_raises _ _ E).
      - exists ql. split; [exact Hql|]. intros acc0.
        destruct (numeric_answers isdigit int (answers_of df (fst ql)))
          as [v|e] eqn:E; cbn [bind].
        + exfalso. apply Hbad. now exists v.
        + now rewrite (numeric_answers_raises _ _ E). }
    now rewrite Hq.
Qed.

End Parse.

(** The Likert questions of the script: no prototype twice, and no label
    twice under a prototype. *)
Lemma likert_questions_wf :
  Dict.wf Prototype.identify_likert_questions /\
  Forall (fun pq => NoDup (map snd (snd pq))) Prototype.identify_likert_questions.
Proof.
  split.
  - unfold Dict.wf. vm_compute. repeat constructor; simpl; intuition discriminate.
  - vm_compute. repeat constructor; simpl; intuition discriminate.
Qed.

(** ** Descriptive statistics *)

Section Descriptive.

Import Prototype.

Lemma likert_sum_bounds (values : list Z) :
  likert values ->
  Z.of_nat (length values) <= zsum values <= 5 * Z.of_nat (length values).
Proof.
  induction 1 as [|v l Hv Hl IH]; cbn [length zsum fold_right].
  - lia.
  - unfold zsum in IH. lia.
Qed.

Lemma Qsquare_nonneg (x : Q) : (0 <= x * x)%Q.
Proof.
  unfold Qle, Qmult. simpl. rewrite Z.mul_1_r. apply Z.square_nonneg.
Qed.

Lemma qsum_squares_nonneg (m : Q) (values : list Z) :
  (0 <= Np.qsum (map (fun v => (inject_Z v - m) * (inject_Z v - m)) values))%Q.
Proof.
  induction values as [|v l IH]; cbn [map Np.qsum fold_right].
  - apply Qle_refl.
  - apply (Qplus_le_compat 0 _ 0 _); [apply Qsquare_nonneg | exact IH].
Qed.

Lemma mean_finite (values : list Z) :
  values <> [] ->
  Np.mean values
  = Fin (inject_Z (zsum values) / inject_Z (Z.of_nat (length values)))%Q.
Proof.
  intros Hne. unfold Np.mean, Np.divide.
  destruct (Z.eqb_spec (Z.of_nat (length values)) 0) as [E | E];
    [|reflexivity].
  destruct values; [congruence | simpl in E; lia].
Qed.

(** The statistics of Likert values. *)
Lemma question_stats_likert (values : list Z) :
  values <> [] ->
  likert values ->
  exists st,
    question_stats values = Ok st /\
    s_n st = Z.of_nat (length values) /\
    in_range (s_mean st) 1 5 /\
    ((2 <= length values)%nat -> nonneg (s_std st)) /\
    (length values = 1%nat -> s_std st = NaN).
Proof.
  intros Hne Hlik.
  destruct values as [|v0 vs] eqn:Ev; [congruence|].
  eexists. split; [reflexivity|]. cbn [s_mean s_std s_n].
  rewrite <- Ev in *. clear Ev v0 vs. split; [reflexivity|].
  pose proof (likert_sum_bounds values Hlik) as [Hlo Hhi].
  assert (Hn : 0 < Z.of_nat (length values))
    by (destruct values; [congruence | simpl; lia]).
  rewrite (mean_finite values Hne).
  assert (HnQ : (0 < inject_Z (Z.of_nat (length values)))%Q)
    by (unfold Qlt; simpl; lia).
  split; [|split].
  - split.
    + apply Qle_shift_div_l; [exact HnQ|].
      rewrite Qmult_1_l, <- Zle_Qle. exact Hlo.
    + apply Qle_shift_div_r; [exact HnQ|].
      change 5%Q with (inject_Z 5).
      rewrite <- inject_Z_mult, <- Zle_Qle. exact Hhi.
  - intros H2. unfold Np.std, Np.var. rewrite (mean_finite values Hne).
    unfold Np.divide.
    destruct (Z.eqb_spec (Z.max (Z.of_nat (length values) - 1) 0) 0) as [E | E];
      [lia|].
    set (q := (Np.qsum _ / inject_Z _)%Q).
    assert (Hq : (0 <= q)%Q).
    { apply Qle_shift_div_l.
      - unfold Qlt; simpl; lia.
      - rewrite Qmult_0_l. apply qsum_squares_nonneg. }
    unfold Np.sqrt, Np.Qltb.
    apply Qle_bool_iff in Hq. rewrite Hq. cbn [negb nonneg].
    apply sqrt_pos.
  - intros H1. unfold Np.std, Np.var. rewrite (mean_finite values Hne).
    destruct values as [|v [|w l]]; try discriminate.
    unfold Np.divide. cbn [length Z.of_nat].
    replace (Z.max (Z.of_nat 1 - 1) 0 =? 0) with true by reflexivity.
    assert (Hz : Qeq_bool (Np.qsum (map (fun v1 =>
                   ((inject_Z v1 - inject_Z (zsum [v]) / inject_Z (Z.of_nat 1))
                    * (inject_Z v1 - inject_Z (zsum [v]) / inject_Z (Z.of_nat 1)))%Q)
                   [v])) 0 = true).
    { apply Qeq_bool_iff. cbn [map Np.qsum fold_right zsum].
      unfold Qeq, Qplus, Qminus, Qmult, Qdiv, Qinv, Qopp, inject_Z; simpl. lia. }
    cbn [length Z.of_nat] in Hz |- *. rewrite Hz. reflexivity.
Qed.

(** Every entry of the descriptive statistics is the statistics of the
    values of some question of some prototype. *)
Lemma descriptive_stats_entries (likert_data : LikertData)
      (stats_results : Dict.t (Dict.t stats)) :
  calculate_descriptive_stats likert_data = Ok stats_results ->
  forall prototype_stats, In prototype_stats (Dict.values stats_results) ->
  forall st, In st (Dict.values prototype_stats) ->
    exists p pd q values,
      In (p, pd) likert_data /\ In (q, values) pd /\
      question_stats values = Ok st.
Proof.
  unfold calculate_descriptive_stats.
  apply (foldM_invariant (fun acc =>
           forall ps, In ps (Dict.values acc) ->
           forall st, In st (Dict.values ps) ->
             exists p pd q values,
               In (p, pd) likert_data /\ In (q, values) pd /\
               question_stats values = Ok st)).
  - intros ps [].
  - intros acc [p pd] acc' Hp Hacc Hstep ps Hps. cbn [fst snd] in Hstep.
    destruct (foldM _ (Dict.items pd) Dict.empty) as [ps0|] eqn:Einner;
      simpl in Hstep; [|discriminate].
    injection Hstep as <-. apply In_values_set in Hps.
    destruct Hps as [-> | Hps]; [|now apply Hacc].
    revert Einner.
    apply (foldM_invariant (fun acc0 =>
             forall st, In st (Dict.values acc0) ->
               exists p1 pd1 q values,
                 In (p1, pd1) likert_data /\ In (q, values) pd1 /\
                 question_stats values = Ok st)).
    + intros st [].
    + intros acc0 [q values] acc0' Hq Hacc0 Hstep0 st Hst.
      cbn [fst snd] in Hstep0.
      destruct (question_stats values) as [st0|] eqn:Est; simpl in Hstep0;
        [|discriminate].
      injection Hstep0 as <-. apply In_values_set in Hst.
      destruct Hst as [-> | Hst]; [|now apply Hacc0].
      now exists p, pd, q, values.
Qed.

(** C6, as the code has it: for Likert answers that parse to at least one
    integer, all between 1 and 5, the statistics are computed, the mean is
    a number in [1,5], and the sample standard deviation is a non-negative
    number when there are at least two values; for a single value it is
    NaN.  The same holds of every entry that [calculate_descriptive_stats]
    returns for data on the Likert scale. *)
Theorem likert_mean_and_std :
  (forall (isdigit : string -> bool) (int : string -> option Z)
          (answers : list string) (values : list Z),
      numeric_answers isdigit int answers = Ok values ->
      values <> [] ->
      likert values ->
      exists st,
        question_stats values = Ok st /\
        in_range (s_mean st) 1 5 /\
        ((2 <= length values)%nat -> nonneg (s_std st)) /\
        (length values = 1%nat -> s_std st = NaN)) /\
  (forall (likert_data : LikertData) (stats_results : Dict.t (Dict.t stats)),
      (forall p pd q values,
          In (p, pd) likert_data -> In (q, values) pd -> likert values) ->
      calculate_descriptive_stats likert_data = Ok stats_results ->
      forall p prototype_stats q st,
        Dict.get p stats_results = Some prototype_stats ->
        Dict.get q prototype_stats = Some st ->
        1 <= s_n st /\
        in_range (s_mean st) 1 5 /\
        (2 <= s_n st -> nonneg (s_std st)) /\
        (s_n st = 1 -> s_std st = NaN)).
Proof.
  split.
  - intros isdigit int answers values _ Hne Hlik.
    destruct (question_stats_likert values Hne Hlik) as (st & H1 & _ & H2).
    now exists st.
  - intros likert_data stats_results Hlik Hrun p ps q st Hps Hst.
    apply get_In_values in Hps, Hst.
    destruct (descriptive_stats_entries _ _ Hrun ps Hps st Hst)
      as (p1 & pd & q1 & values & Hp1 & Hq1 & Hstats).
    assert (Hne : values <> []) by (intros ->; discriminate).
    destruct (question_stats_likert values Hne (Hlik _ _ _ _ Hp1 Hq1))
      as (st' & Hst' & Hn & Hmean & Hstd & Hnan).
    rewrite Hstats in Hst'. injection Hst' as <-. rewrite Hn.
    assert (Hlen : (1 <= length values)%nat)
      by (destruct values; [congruence | simpl; lia]).
    repeat split; try (apply Hmean); try lia.
    + intros H. apply Hstd. lia.
    + intros H. apply Hnan. lia.
Qed.

Lemma likert_mean_and_std_witness :
  numeric_answers PyStr.ascii_isdigit PyStr.ascii_int ["4"; "n/a"; "5"; "2"]
  = Ok [4; 5; 2] /\
  exists st,
    question_stats [4; 5; 2] = Ok st /\
    in_range (s_mean st) 1 5 /\
    ((2 <= length [4; 5; 2])%nat -> nonneg (s_std st)) /\
    (length [4; 5; 2] = 1%nat -> s_std st = NaN).
Proof.
  assert (Hparse : numeric_answers PyStr.ascii_isdigit PyStr.ascii_int
                                   ["4"; "n/a"; "5"; "2"] = Ok [4; 5; 2])
    by (vm_compute; reflexivity).
  split; [exact Hparse|].
  apply (proj1 likert_mean_and_std PyStr.ascii_isdigit PyStr.ascii_int
               ["4"; "n/a"; "5"; "2"] [4; 5; 2] Hparse).
  - discriminate.
  - repeat constructor; discriminate.
Defined.

(** C6, as stated, fails: a single Likert answer has a mean but its
    sample standard deviation is NaN, which is not a non-negative
    number. *)
Lemma single_answer_std_nan :
  numeric_answers PyStr.ascii_isdigit PyStr.ascii_int ["3"] = Ok [3] /\
  likert [3] /\
  exists st,
    question_stats [3] = Ok st /\
    s_std st = NaN /\
    ~ nonneg (s_std st).
Proof.
  split; [vm_compute; reflexivity|]. split.
  - repeat constructor; discriminate.
  - eexists. split; [reflexivity|].
    assert (Hnan : Np.std [3] 1 = NaN) by (vm_compute; reflexivity).
    cbn [s_std]. rewrite Hnan. split; [reflexivity | intros []].
Qed.

End Descriptive.

(** ** The omnibus test *)

Section OmnibusFacts.

Import Prototype.

Variable chi2_contingency : table -> option Chi2ContingencyResult.

Lemma contingency_table_entry (t : table) :
  contingency_table (omnibus_entry chi2_contingency t) = t.
Proof.
  unfold omnibus_entry.
  destruct (_ && _)%bool; [destruct (chi2_contingency _)|]; reflexivity.
Qed.

(** The two outcomes of the omnibus step on a table. *)
Lemma omnibus_entry_cases (t : table) :
  let f := filter_table t in
  let o := omnibus_entry chi2_contingency t in
  (0 < table_size f /\ 0 < table_sum f /\
   exists r, chi2_contingency f = Some r /\
     o = mkOmnibus (statistic r) (pvalue r) (chi2_dof r)
                   (Np.lt (pvalue r) alpha) t None)
  \/
  (~ (0 < table_size f /\ 0 < table_sum f /\ chi2_contingency f <> None) /\
   chi2 o = NaN /\ p_value o = Fin 1%Q /\ dof o = 0 /\
   significant o = false /\ note o <> None).
Proof.
  intros f o. unfold o, Prototype.omnibus_entry. fold f.
  destruct (Z.ltb_spec 0 (table_size f)) as [Hsize | Hsize];
    destruct (Z.ltb_spec 0 (table_sum f)) as [Hsum | Hsum]; cbn [andb];
    try (right; repeat split; try discriminate; intros (? & ? & ?); lia).
  destruct (chi2_contingency f) as [r|] eqn:E.
  - left. repeat split; try assumption. now exists r.
  - right. repeat split; try discriminate. intros (_ & _ & H). now apply H.
Qed.

Lemma rating_row_length (data : list Z) : length (rating_row data) = 5%nat.
Proof. reflexivity. Qed.

Lemma build_table_rows (order : list string) (likert_data : LikertData)
      (question : string) (t : table) :
  build_table order likert_data question = Ok t ->
  Forall2 (fun p r => exists prototype_data data,
               Dict.get p likert_data = Some prototype_data /\
               Dict.get question prototype_data = Some data /\
               r = rating_row data) order t.
Proof.
  intros H. apply mapM_Ok_map in H.
  induction H as [|p r order t Hp _ IH]; constructor; [|exact IH].
  unfold getitem in Hp.
  destruct (Dict.get p likert_data) as [pd|] eqn:Epd; simpl in Hp;
    [|discriminate].
  destruct (Dict.get question pd) as [data|] eqn:Edata; simpl in Hp;
    [|discriminate].
  injection Hp as <-. now exists pd, data.
Qed.

Lemma build_table_complete (order : list string) (likert_data : LikertData)
      (question : string) :
  (forall p, In p order -> exists prototype_data data,
      Dict.get p likert_data = Some prototype_data /\
      Dict.get question prototype_data = Some data) ->
  exists t, build_table order likert_data question = Ok t.
Proof.
  unfold build_table. induction order as [|p order IH]; intros H.
  - now exists [].
  - destruct (H p (or_introl eq_refl)) as (pd & data & Hpd & Hdata).
    destruct IH as (t & Ht); [intros; apply H; now right|].
    exists (rating_row data :: t). cbn [mapM]. unfold getitem at 1 2.
    rewrite Hpd. cbn [bind]. rewrite Hdata. cbn [bind]. now rewrite Ht.
Qed.

Lemma build_table_length5 (order : list string) (likert_data : LikertData)
      (question : string) (t : table) :
  build_table order likert_data question = Ok t ->
  Forall (fun r => length r = 5%nat) t.
Proof.
  intros H. apply build_table_rows in H.
  induction H as [|p r order t (pd & data & _ & _ & ->) _ IH]; constructor;
    [reflexivity | exact IH].
Qed.

(** Masking a row of five ratings keeps the entries of the kept
    positions. *)
Lemma select_cols_positions (c r : list Z) :
  length c = 5%nat -> length r = 5%nat ->
  select_cols (map (fun s => 0 <? s) c) r
  = map (fun j => nth j r 0)
        (filter (fun j => 0 <? nth j c 0) (seq 0 5)).
Proof.
  intros Hc Hr.
  destruct c as [|c0 [|c1 [|c2 [|c3 [|c4 [|]]]]]]; try discriminate.
  destruct r as [|r0 [|r1 [|r2 [|r3 [|r4 [|]]]]]]; try discriminate.
  unfold select_cols. cbn [map combine seq filter nth].
  destruct (0 <? c0), (0 <? c1), (0 <? c2), (0 <? c3), (0 <? c4); reflexivity.
Qed.

Lemma filter_table_drops (t : table) :
  Forall (fun r => length r = 5%nat) t ->
  drops_zero_columns t (filter_table t).
Proof.
  intros H. unfold drops_zero_columns, filter_table, kept_columns.
  apply map_ext_in. intros r Hr.
  apply select_cols_positions; [reflexivity|].
  rewrite Forall_forall in H. now apply H.
Qed.

(** What the loop of the omnibus step leaves in the results. *)
Lemma omnibus_fold_spec (order : list string) (likert_data : LikertData)
      (qs : list string) (acc res : Dict.t omnibus_result) :
  foldM (fun omnibus_results question =>
           contingency_table <- build_table order likert_data question ;;
           Ok (Dict.set question (omnibus_entry chi2_contingency contingency_table)
                        omnibus_results)) qs acc = Ok res ->
  (forall q, In q qs ->
             exists t, build_table order likert_data q = Ok t /\
                       Dict.get q res = Some (omnibus_entry chi2_contingency t)) /\
  (forall q, ~ In q qs -> Dict.get q res = Dict.get q acc) /\
  (Dict.wf acc -> Dict.wf res).
Proof.
  revert acc. induction qs as [|q0 qs IH]; intros acc Hrun; simpl in Hrun.
  - injection Hrun as <-. repeat split; auto. intros q [].
  - destruct (build_table order likert_data q0) as [t0|] eqn:E0;
      simpl in Hrun; [|discriminate].
    destruct (IH _ Hrun) as (Hin & Hout & Hwf).
    repeat split.
    + intros q [<- | Hq]; [|now apply Hin].
      destruct (in_dec string_dec q0 qs) as [Hq | Hq].
      * destruct (Hin q0 Hq) as (t & Ht & Hget). exists t. now split.
      * exists t0. split; [exact E0|]. rewrite (Hout q0 Hq). apply get_set_eq.
    + intros q Hq. rewrite Hout by (simpl in Hq; tauto).
      apply get_set_ne. simpl in Hq. tauto.
    + intros Hacc. apply Hwf. now apply wf_set.
Qed.

Lemma omnibus_fold_total (order : list string) (likert_data : LikertData)
      (qs : list string) (acc : Dict.t omnibus_result) :
  (forall q, In q qs -> exists t, build_table order likert_data q = Ok t) ->
  exists res,
    foldM (fun omnibus_results question =>
             contingency_table <- build_table order likert_data question ;;
             Ok (Dict.set question (omnibus_entry chi2_contingency contingency_table)
                          omnibus_results)) qs acc = Ok res.
Proof.
  intros H. apply (foldM_total (fun _ => True)); [exact I|].
  intros acc' q Hq _. destruct (H q Hq) as (t & ->). simpl. eauto.
Qed.

Lemma omnibus_in_unfold (order : list string) (likert_data : LikertData) :
  likert_data <> [] ->
  perform_chi_squared_omnibus_in chi2_contingency order likert_data
  = foldM (fun omnibus_results question =>
             contingency_table <- build_table order likert_data question ;;
             Ok (Dict.set question (omnibus_entry chi2_contingency contingency_table)
                          omnibus_results))
          (questions_of likert_data) Dict.empty.
Proof.
  intros H. unfold perform_chi_squared_omnibus_in, questions_of.
  destruct likert_data as [|[p pd] rest]; [congruence | reflexivity].
Qed.

(** What the omnibus step returns on complete data. *)
Lemma omnibus_results_spec (likert_data : LikertData) :
  likert_data <> [] ->
  complete prototypes likert_data ->
  exists res,
    perform_chi_squared_omnibus chi2_contingency likert_data = Ok res /\
    (forall q, In q (questions_of likert_data) <-> Dict.has q res = true) /\
    forall q o, Dict.get q res = Some o ->
      let t := contingency_table o in
      let f := filter_table t in
      build_table prototypes likert_data q = Ok t /\
      drops_zero_columns t f /\
      ((0 < table_size f /\ 0 < table_sum f /\
        exists r, chi2_contingency f = Some r /\
          o = mkOmnibus (statistic r) (pvalue r) (chi2_dof r)
                        (Np.lt (pvalue r) alpha) t None)
       \/
       (~ (0 < table_size f /\ 0 < table_sum f /\ chi2_contingency f <> None) /\
        chi2 o = NaN /\ p_value o = Fin 1%Q /\ dof o = 0 /\
        significant o = false /\ note o <> None)).
Proof.
  intros Hne Hcomplete.
  unfold perform_chi_squared_omnibus. rewrite omnibus_in_unfold by exact Hne.
  destruct (omnibus_fold_total prototypes likert_data
              (questions_of likert_data) Dict.empty) as (res & Hres).
  { intros q Hq. apply build_table_complete. intros p Hp.
    now apply Hcomplete. }
  exists res. split; [exact Hres|].
  destruct (omnibus_fold_spec _ _ _ _ _ Hres) as (Hin & Hout & _).
  assert (Hkeys : forall q, In q (questions_of likert_data)
                            <-> Dict.has q res = true).
  { intros q. unfold Dict.has. split.
    - intros Hq. destruct (Hin q Hq) as (t & _ & ->). reflexivity.
    - intros Hhas.
      destruct (in_dec string_dec q (questions_of likert_data)) as [Hq | Hq];
        [exact Hq|].
      rewrite (Hout q Hq) in Hhas. discriminate. }
  split; [exact Hkeys|].
  intros q o Hget.
  assert (Hq : In q (questions_of likert_data)).
  { apply Hkeys. unfold Dict.has. now rewrite Hget. }
  destruct (Hin q Hq) as (t0 & Hbuild & Hget0).
  rewrite Hget in Hget0. injection Hget0 as ->.
  rewrite contingency_table_entry.
  split; [exact Hbuild|]. split.
  - apply filter_table_drops. now apply build_table_length5 in Hbuild.
  - apply omnibus_entry_cases.
Qed.

(** The Likert data that the script extracts from a data frame has every
    question for every prototype. *)
Lemma likert_data_of_frame (isdigit : string -> bool) (int : string -> option Z)
      (df : DataFrame) (likert_data : LikertData) :
  get_likert_data isdigit int df identify_likert_questions = Ok likert_data ->
  likert_data <> [] /\ complete prototypes likert_data.
Proof.
  intros Hrun.
  pose proof (get_likert_data_Ok isdigit int _ _ _ Hrun) as Hparses.
  rewrite (get_likert_data_returns isdigit int df identify_likert_questions
             (parsed isdigit int df)
             (proj1 likert_questions_wf) (proj2 likert_questions_wf)) in Hrun.
  - injection Hrun as <-. split; [discriminate|].
    intros q p Hq Hp.
    change (In q ["Understand Tasks"; "Understand How to Use"; "Easy to Use";
                  "Has Features Needed"; "Superior to Existing Tools"]) in Hq.
    simpl in Hq, Hp.
    destruct Hq as [<- | [<- | [<- | [<- | [<- | []]]]]];
      destruct Hp as [<- | [<- | [<- | []]]];
      eexists _, _; split; reflexivity.
  - intros pq ql Hpq Hql. destruct (Hparses pq ql Hpq Hql) as (v & Hv).
    rewrite Hv. f_equal. symmetry. now apply parsed_Ok.
Qed.

Lemma col_sums_column (t : table) (j : nat) :
  (j < 5)%nat -> nth j (col_sums t) 0 = column j t.
Proof.
  intros Hj. unfold col_sums, column, ratings. cbn [length seq map].
  do 5 (destruct j as [|j]; [reflexivity|]). lia.
Qed.

Lemma filter_sorted (keep : nat -> bool) (l : list nat) :
  StronglySorted lt l -> StronglySorted lt (filter keep l).
Proof.
  induction 1 as [|a l _ IH Ha]; [constructor|].
  cbn [filter]. destruct (keep a); [|exact IH].
  constructor; [exact IH|].
  apply Forall_forall. intros x Hx. apply filter_In in Hx.
  rewrite Forall_forall in Ha. now apply Ha.
Qed.

(** The filtered table, said with the totals of the columns. *)
Lemma filter_table_without_zero_columns (t : table) :
  Forall (fun r => length r = 5%nat) t ->
  without_zero_columns t (filter_table t).
Proof.
  intros H. exists (kept_columns t). split; [|split].
  - unfold kept_columns, ratings. apply filter_sorted. cbn [length seq].
    repeat constructor.
  - intros j. unfold kept_columns, ratings. rewrite filter_In, in_seq.
    cbn [length]. split.
    + intros (Hj & Hpos). split; [lia|].
      rewrite col_sums_column in Hpos by lia. now apply Z.ltb_lt.
    + intros (Hj & Hpos). split; [lia|].
      rewrite col_sums_column by exact Hj. now apply Z.ltb_lt.
  - exact (filter_table_drops t H).
Qed.

(** C2: on Likert data where each prototype has every question, the
    omnibus step returns a result for every question.  Each result keeps
    the contingency table of the question, one row of rating counts per
    group; the tested table is this table without the rating columns whose
    total over the groups is zero; the result holds the statistic, p-value
    and flag [p < 0.05] of the chi-squared test exactly when the tested
    table has entries, a positive total, and the test does not raise;
    otherwise it is the placeholder: statistic NaN, p-value 1.0, flag
    false.  The Likert data extracted from a data frame is such data, so
    the step returns on it. *)
Theorem omnibus_guards_degenerate_tables :
  (forall likert_data : LikertData,
      likert_data <> [] ->
      complete prototypes likert_data ->
      exists res,
        perform_chi_squared_omnibus chi2_contingency likert_data = Ok res /\
        (forall q, In q (questions_of likert_data) <-> Dict.has q res = true) /\
        forall q o, Dict.get q res = Some o ->
          let t := contingency_table o in
          let f := filter_table t in
          build_table prototypes likert_data q = Ok t /\
          without_zero_columns t f /\
          ((0 < table_size f /\ 0 < table_sum f /\
            exists r, chi2_contingency f = Some r /\
              o = mkOmnibus (statistic r) (pvalue r) (chi2_dof r)
                            (Np.lt (pvalue r) alpha) t None)
           \/
           (~ (0 < table_size f /\ 0 < table_sum f /\ chi2_contingency f <> None) /\
            chi2 o = NaN /\ p_value o = Fin 1%Q /\ dof o = 0 /\
            significant o = false /\ note o <> None))) /\
  (forall (isdigit : string -> bool) (int : string -> option Z)
          (df : DataFrame) (likert_data : LikertData),
      get_likert_data isdigit int df identify_likert_questions
      = Ok likert_data ->
      exists res,
        perform_chi_squared_omnibus chi2_contingency likert_data = Ok res).
Proof.
  split.
  - intros likert_data Hne Hcomplete.
    destruct (omnibus_results_spec likert_data Hne Hcomplete)
      as (res & Hres & Hkeys & Hentries).
    exists res. split; [exact Hres|]. split; [exact Hkeys|].
    intros q o Hget. destruct (Hentries q o Hget) as (Hbuild & _ & Hcases).
    split; [exact Hbuild|]. split; [|exact Hcases].
    apply filter_table_without_zero_columns.
    now apply build_table_length5 in Hbuild.
  - intros isdigit int df likert_data Hrun.
    destruct (likert_data_of_frame isdigit int df likert_data Hrun)
      as (Hne & Hcomplete).
    destruct (omnibus_results_spec _ Hne Hcomplete) as (res & Hres & _).
    now exists res.
Qed.

End OmnibusFacts.

(** ** The pairwise tests *)

Section PairwiseFacts.

Import Prototype.

Variable chi2_contingency : table -> option Chi2ContingencyResult.
Variable ks_2samp : list Z -> list Z -> option (npfloat Q * npfloat Q).

Lemma Qltb_true (x y : Q) : Np.Qltb x y = true <-> (x < y)%Q.
Proof.
  unfold Np.Qltb. rewrite negb_true_iff. split.
  - intros H. apply Qnot_le_lt. intros Hle.
    apply Qle_bool_iff in Hle. congruence.
  - intros H. destruct (Qle_bool y x) eqn:E; [|reflexivity].
    apply Qle_bool_iff in E. exfalso. now apply (Qlt_not_le x y).
Qed.

Lemma Qltb_false (x y : Q) : Np.Qltb x y = false <-> (y <= x)%Q.
Proof.
  unfold Np.Qltb. rewrite negb_false_iff. apply Qle_bool_iff.
Qed.

(** The Bonferroni adjustment of one comparison. *)
Lemma pairwise_entry_bonferroni (ks : npfloat Q * npfloat Q) :
  let r := pairwise_entry ks in
  adjusted_p_value r = Np.min (Np.mul (pw_p_value r) 3) 1 /\
  (forall p, pw_p_value r = Fin p -> (0 <= p)%Q -> (p <= 1)%Q ->
     exists a, adjusted_p_value r = Fin a /\
               (p <= a)%Q /\ (a <= 1)%Q /\ (a == Qmin (p * 3) 1)%Q) /\
  (pw_significant r = true <-> Np.lt (adjusted_p_value r) alpha = true).
Proof.
  destruct ks as [stat p]. cbn [pairwise_entry fst snd adjusted_p_value
                                 pw_p_value pw_significant].
  split; [reflexivity|]. split.
  - intros q -> H0 H1. cbn [Np.mul Np.min].
    destruct (Np.Qltb 1 (q * 3)) eqn:E.
    + apply Qltb_true in E. exists 1%Q. repeat split.
      * exact H1.
      * apply Qle_refl.
      * symmetry. apply Q.min_r. now apply Qlt_le_weak.
    + apply Qltb_false in E. exists (q * 3)%Q. repeat split.
      * Lqa.lra.
      * exact E.
      * symmetry. now apply Q.min_l.
  - destruct p as [q| |]; cbn [Np.mul Np.min Np.lt]; try tauto.
    destruct (Np.Qltb 1 (q * 3)) eqn:E; cbn [Np.lt]; [|tauto].
    apply Qltb_true in E.
    assert (Hf : Np.Qltb (q * 3) alpha = false).
    { apply Qltb_false. unfold alpha. Lqa.lra. }
    rewrite Hf. split; [discriminate|].
    intros H. apply Qltb_true in H. unfold alpha in H. Lqa.lra.
Qed.

Lemma pairwise_question_entries (likert_data : LikertData) (question : string)
      (inner : Dict.t pairwise_result) :
  pairwise_question ks_2samp likert_data question = Ok inner ->
  forall r, In r (Dict.values inner) ->
    exists data1 data2 ks,
      ks_2samp data1 data2 = Some ks /\ r = pairwise_entry ks.
Proof.
  unfold pairwise_question.
  apply (foldM_invariant (fun acc => forall r, In r (Dict.values acc) ->
           exists data1 data2 ks,
             ks_2samp data1 data2 = Some ks /\ r = pairwise_entry ks)).
  - intros r [].
  - intros acc [p1 p2] acc' _ Hacc Hstep r Hr. cbn [fst snd] in Hstep.
    destruct (getitem p1 likert_data) as [d1|]; simpl in Hstep; [|discriminate].
    destruct (getitem question d1) as [data1|]; simpl in Hstep; [|discriminate].
    destruct (getitem p2 likert_data) as [d2|]; simpl in Hstep; [|discriminate].
    destruct (getitem question d2) as [data2|]; simpl in Hstep; [|discriminate].
    destruct (ks_2samp data1 data2) as [ks|] eqn:Eks; [|discriminate].
    injection Hstep as <-. apply In_values_set in Hr.
    destruct Hr as [-> | Hr]; [|now apply Hacc].
    now exists data1, data2, ks.
Qed.

Lemma pairwise_tests_entries (likert_data : LikertData)
      (omnibus_results : Dict.t omnibus_result)
      (pw : Dict.t (Dict.t pairwise_result)) :
  perform_pairwise_ks_tests ks_2samp likert_data omnibus_results = Ok pw ->
  forall inner, In inner (Dict.values pw) ->
  forall r, In r (Dict.values inner) ->
    exists data1 data2 ks,
      ks_2samp data1 data2 = Some ks /\ r = pairwise_entry ks.
Proof.
  unfold perform_pairwise_ks_tests.
  apply (foldM_invariant (fun acc => forall inner, In inner (Dict.values acc) ->
           forall r, In r (Dict.values inner) ->
           exists data1 data2 ks,
             ks_2samp data1 data2 = Some ks /\ r = pairwise_entry ks)).
  - intros inner [].
  - intros acc [q o] acc' _ Hacc Hstep inner Hinner. cbn [fst snd] in Hstep.
    destruct (significant o).
    + destruct (pairwise_question ks_2samp likert_data q) as [inner0|] eqn:Eq;
        simpl in Hstep; [|discriminate].
      injection Hstep as <-. apply In_values_set in Hinner.
      destruct Hinner as [-> | Hinner]; [|now apply Hacc].
      now apply (pairwise_question_entries likert_data q).
    + injection Hstep as <-. now apply Hacc.
Qed.

(** C3: in every pairwise result the adjusted p-value is
    [min(3 * p, 1.0)] of the raw p-value [p]; for a raw p-value in [0,1]
    it is a number between the raw p-value and 1; and the flag is set
    exactly when the adjusted p-value is below 0.05. *)
Theorem bonferroni_adjusted_p_value (likert_data : LikertData)
        (omnibus_results : Dict.t omnibus_result)
        (pairwise_results : Dict.t (Dict.t pairwise_result)) :
  perform_pairwise_ks_tests ks_2samp likert_data omnibus_results
  = Ok pairwise_results ->
  forall question inner pair r,
    Dict.get question pairwise_results = Some inner ->
    Dict.get pair inner = Some r ->
    adjusted_p_value r = Np.min (Np.mul (pw_p_value r) 3) 1 /\
    (forall p, pw_p_value r = Fin p -> (0 <= p)%Q -> (p <= 1)%Q ->
       exists a, adjusted_p_value r = Fin a /\
                 (p <= a)%Q /\ (a <= 1)%Q /\ (a == Qmin (p * 3) 1)%Q) /\
    (pw_significant r = true <-> Np.lt (adjusted_p_value r) alpha = true).
Proof.
  intros Hrun question inner pair r Hinner Hr.
  apply get_In_values in Hinner, Hr.
  destruct (pairwise_tests_entries _ _ _ Hrun inner Hinner r Hr)
    as (_ & _ & ks & _ & ->).
  apply pairwise_entry_bonferroni.
Qed.

(** A group without data gives a row of zeros, also after the columns
    are dropped. *)
Lemma select_cols_zero_row (c : list Z) :
  length c = 5%nat ->
  zsum (select_cols (map (fun s => 0 <? s) c) (rating_row [])) = 0.
Proof.
  intros Hc.
  destruct c as [|c0 [|c1 [|c2 [|c3 [|c4 [|]]]]]]; try discriminate.
  unfold select_cols. cbn [map combine rating_row ratings].
  destruct (0 <? c0), (0 <? c1), (0 <? c2), (0 <? c3), (0 <? c4); reflexivity.
Qed.

Lemma filter_table_rectangular (t : table) :
  Forall (fun r => length r = 5%nat) t -> rectangular (filter_table t).
Proof.
  intros H. exists (length (kept_columns t)).
  rewrite (filter_table_drops t H). apply Forall_map.
  apply Forall_forall. intros r _. apply length_map.
Qed.

Section Contracts.

(** What the script needs of the two tests: [chi2_contingency] raises on
    a table of positive total with a row of total zero (an expected
    frequency is zero there), and [ks_2samp] raises on empty samples
    only. *)
Hypothesis chi2_rejects_zero_row :
  forall t, rectangular t -> 0 < table_sum t ->
            (exists r, In r t /\ zsum r = 0) ->
            chi2_contingency t = None.
Hypothesis ks_accepts_samples :
  forall data1 data2, data1 <> [] -> data2 <> [] ->
                      ks_2samp data1 data2 <> None.

(** A significant omnibus result means every prototype has data. *)
Lemma significant_has_data (likert_data : LikertData) (question : string)
      (t : table) :
  build_table prototypes likert_data question = Ok t ->
  significant (omnibus_entry chi2_contingency t) = true ->
  forall p, In p prototypes ->
    exists prototype_data data,
      Dict.get p likert_data = Some prototype_data /\
      Dict.get question prototype_data = Some data /\
      data <> [].
Proof.
  intros Hbuild Hsig p Hp.
  pose proof (build_table_length5 _ _ _ _ Hbuild) as Hlen.
  pose proof (build_table_rows _ _ _ _ Hbuild) as Hrows.
  assert (Hrow : exists pd data,
             Dict.get p likert_data = Some pd /\
             Dict.get question pd = Some data /\
             In (rating_row data) t).
  { clear -Hrows Hp. induction Hrows as [|p0 r order t0 Hr _ IH];
      [destruct Hp|].
    destruct Hp as [-> | Hp].
    - destruct Hr as (pd & data & H1 & H2 & ->).
      exists pd, data. simpl. auto.
    - destruct (IH Hp) as (pd & data & H1 & H2 & H3).
      exists pd, data. simpl. auto. }
  destruct Hrow as (pd & data & Hpd & Hdata & Hin).
  exists pd, data. repeat split; try assumption.
  intros ->.
  destruct (omnibus_entry_cases chi2_contingency t)
    as [(_ & Hsum & r & Hr & _) | (_ & _ & _ & _ & Hns & _)];
    [|congruence].
  rewrite chi2_rejects_zero_row in Hr; [discriminate | | exact Hsum |].
  - now apply filter_table_rectangular.
  - exists (select_cols (map (fun s => 0 <? s) (col_sums t)) (rating_row [])).
    split; [|now apply select_cols_zero_row].
    unfold filter_table. now apply in_map.
Qed.

Lemma pairwise_question_total (likert_data : LikertData) (question : string) :
  (forall p, In p prototypes ->
     exists prototype_data data,
       Dict.get p likert_data = Some prototype_data /\
       Dict.get question prototype_data = Some data /\
       data <> []) ->
  exists inner,
    pairwise_question ks_2samp likert_data question = Ok inner /\
    Dict.keys inner = ["A vs B"; "A vs C"; "B vs C"].
Proof.
  intros H.
  destruct (H "A") as (pA & dA & HpA & HdA & HnA); [simpl; auto|].
  destruct (H "B") as (pB & dB & HpB & HdB & HnB); [simpl; auto|].
  destruct (H "C") as (pC & dC & HpC & HdC & HnC); [simpl; auto|].
  unfold pairwise_question, pairs. cbn [foldM fst snd]. unfold getitem.
  rewrite HpA, HpB, HpC. cbn [bind]. rewrite HdA, HdB, HdC. cbn [bind].
  pose proof (ks_accepts_samples dA dB HnA HnB) as HAB.
  pose proof (ks_accepts_samples dA dC HnA HnC) as HAC.
  pose proof (ks_accepts_samples dB dC HnB HnC) as HBC.
  destruct (ks_2samp dA dB); [|congruence]. cbn [bind].
  destruct (ks_2samp dA dC); [|congruence]. cbn [bind].
  destruct (ks_2samp dB dC); [|congruence]. cbn [bind].
  eexists. split; reflexivity.
Qed.

(** The entry of a question: the three comparisons, each the result of
    [ks_2samp] on the answers of the two groups. *)
Lemma pairwise_question_runs (likert_data : LikertData) (question : string) :
  (forall p, In p prototypes ->
     exists prototype_data data,
       Dict.get p likert_data = Some prototype_data /\
       Dict.get question prototype_data = Some data /\
       data <> []) ->
  exists inner,
    pairwise_question ks_2samp likert_data question = Ok inner /\
    ks_comparisons ks_2samp likert_data question inner.
Proof.
  intros H.
  destruct (H "A") as (pA & dA & HpA & HdA & HnA); [simpl; auto|].
  destruct (H "B") as (pB & dB & HpB & HdB & HnB); [simpl; auto|].
  destruct (H "C") as (pC & dC & HpC & HdC & HnC); [simpl; auto|].
  unfold pairwise_question, pairs. cbn [foldM fst snd]. unfold getitem.
  rewrite HpA, HpB, HpC. cbn [bind]. rewrite HdA, HdB, HdC. cbn [bind].
  pose proof (ks_accepts_samples dA dB HnA HnB) as HAB.
  pose proof (ks_accepts_samples dA dC HnA HnC) as HAC.
  pose proof (ks_accepts_samples dB dC HnB HnC) as HBC.
  destruct (ks_2samp dA dB) as [ksAB|] eqn:EAB; [|congruence]. cbn [bind].
  destruct (ks_2samp dA dC) as [ksAC|] eqn:EAC; [|congruence]. cbn [bind].
  destruct (ks_2samp dB dC) as [ksBC|] eqn:EBC; [|congruence]. cbn [bind].
  eexists. split; [reflexivity|].
  exists dA, dB, dC, ksAB, ksAC, ksBC. unfold group_data.
  rewrite HpA, HpB, HpC. repeat split; assumption.
Qed.

Lemma has_set {V : Type} (k k' : string) (v : V) (d : Dict.t V) :
  Dict.has k' (Dict.set k v d) = true <-> k = k' \/ Dict.has k' d = true.
Proof.
  unfold Dict.has. destruct (string_dec k k') as [-> | Hne].
  - rewrite get_set_eq. tauto.
  - rewrite get_set_ne by exact Hne. tauto.
Qed.

Lemma pairwise_fold_spec (likert_data : LikertData)
      (items : list (string * omnibus_result))
      (acc : Dict.t (Dict.t pairwise_result)) :
  (forall q o, In (q, o) items -> significant o = true ->
               exists inner,
                 pairwise_question ks_2samp likert_data q = Ok inner) ->
  exists pw,
    foldM (fun pairwise_results qo =>
             if significant (snd qo) then
               inner <- pairwise_question ks_2samp likert_data (fst qo) ;;
               Ok (Dict.set (fst qo) inner pairwise_results)
             else Ok pairwise_results) items acc = Ok pw /\
    (forall q, Dict.has q pw = true <->
               Dict.has q acc = true \/
               exists o, In (q, o) items /\ significant o = true) /\
    (forall q inner, Dict.get q pw = Some inner ->
                     Dict.get q acc = Some inner \/
                     pairwise_question ks_2samp likert_data q = Ok inner).
Proof.
  revert acc. induction items as [|[q0 o0] items IH]; intros acc Hok.
  - exists acc. split; [reflexivity|]. split.
    + intros q. split; [auto | intros [H | (o & [] & _)]; exact H].
    + auto.
  - cbn [foldM fst snd]. destruct (significant o0) eqn:Esig.
    + destruct (Hok q0 o0 (or_introl eq_refl) Esig) as (inner0 & Hinner0).
      rewrite Hinner0. cbn [bind].
      destruct (IH (Dict.set q0 inner0 acc)) as (pw & Hpw & Hhas & Hget).
      { intros q o Hin. apply Hok. now right. }
      exists pw. split; [exact Hpw|]. split.
      * intros q. rewrite Hhas, has_set. split.
        -- intros [[<- | H] | (o & Hin & Hs)]; auto.
           ++ right. exists o0. split; [now left | exact Esig].
           ++ right. exists o. split; [now right | exact Hs].
        -- intros [H | (o & [[= <- <-] | Hin] & Hs)]; auto.
           right. now exists o.
      * intros q inner Hq. destruct (Hget q inner Hq) as [H | H]; auto.
        destruct (string_dec q0 q) as [<- | Hne].
        -- rewrite get_set_eq in H. injection H as <-. now right.
        -- rewrite get_set_ne in H by exact Hne. now left.
    + destruct (IH acc) as (pw & Hpw & Hhas & Hget).
      { intros q o Hin. apply Hok. now right. }
      exists pw. split; [exact Hpw|]. split; [|exact Hget].
      intros q. rewrite Hhas. split.
      * intros [H | (o & Hin & Hs)]; auto.
        right. exists o. split; [now right | exact Hs].
      * intros [H | (o & [[= <- <-] | Hin] & Hs)]; auto; [congruence|].
        right. now exists o.
Qed.

(** C1: after the omnibus step has returned its results, the pairwise
    step returns, and a question has an entry in the pairwise results
    exactly when its omnibus result has the significance flag set,
    which is exactly when its omnibus p-value is below 0.05; a question
    with a placeholder result has no entry; an entry holds the three
    comparisons A vs B, A vs C and B vs C, each the result of [ks_2samp]
    on the answers that the two groups gave to the question. *)
Theorem pairwise_iff_omnibus_significant (likert_data : LikertData)
        (omnibus_results : Dict.t omnibus_result) :
  perform_chi_squared_omnibus chi2_contingency likert_data
  = Ok omnibus_results ->
  exists pairwise_results,
    perform_pairwise_ks_tests ks_2samp likert_data omnibus_results
    = Ok pairwise_results /\
    forall q,
      (Dict.has q pairwise_results = true <->
       exists o, Dict.get q omnibus_results = Some o /\
                 significant o = true) /\
      (forall o, Dict.get q omnibus_results = Some o ->
         (significant o = true <-> Np.lt (p_value o) alpha = true) /\
         (note o <> None -> Dict.has q pairwise_results = false)) /\
      (forall inner, Dict.get q pairwise_results = Some inner ->
         Dict.keys inner = ["A vs B"; "A vs C"; "B vs C"] /\
         ks_comparisons ks_2samp likert_data q inner).
Proof.
  intros Hrun.
  assert (Hne : likert_data <> []) by (intros ->; discriminate).
  unfold perform_chi_squared_omnibus in Hrun.
  rewrite omnibus_in_unfold in Hrun by exact Hne.
  destruct (omnibus_fold_spec _ _ _ _ _ _ Hrun) as (Hin & Hout & Hwf).
  specialize (Hwf (NoDup_nil _)).
  assert (Hentry : forall q o, Dict.get q omnibus_results = Some o ->
             exists t, build_table prototypes likert_data q = Ok t /\
                       o = omnibus_entry chi2_contingency t).
  { intros q o Hget.
    destruct (in_dec string_dec q (questions_of likert_data)) as [Hq | Hq].
    - destruct (Hin q Hq) as (t & Ht & Hget'). exists t.
      split; [exact Ht | congruence].
    - rewrite (Hout q Hq) in Hget. discriminate. }
  destruct (pairwise_fold_spec likert_data (Dict.items omnibus_results)
                               Dict.empty) as (pw & Hpw & Hhas & Hget).
  { intros q o Hqo Hsig. apply (wf_In_get _ _ _ Hwf) in Hqo.
    destruct (Hentry q o Hqo) as (t & Ht & ->).
    destruct (pairwise_question_total likert_data q) as (inner & Hi & _);
      [|now exists inner].
    now apply (significant_has_data likert_data q t). }
  exists pw. split; [exact Hpw|].
  assert (Hiff : forall q, Dict.has q pw = true <->
             exists o, Dict.get q omnibus_results = Some o /\
                       significant o = true).
  { intros q. rewrite Hhas. split.
    - intros [H | (o & Hqo & Hs)]; [discriminate|].
      exists o. split; [now apply wf_In_get | exact Hs].
    - intros (o & Hqo & Hs). right. exists o.
      split; [now apply get_In | exact Hs]. }
  intros q. split; [apply Hiff|]. split.
  - intros o Hqo. destruct (Hentry q o Hqo) as (t & Ht & ->). split.
    + destruct (omnibus_entry_cases chi2_contingency t)
        as [(_ & _ & r & _ & ->) | (_ & _ & -> & _ & -> & _)].
      * reflexivity.
      * split; discriminate.
    + intros Hnote.
      destruct (Dict.has q pw) eqn:E; [|reflexivity].
      apply Hiff in E. destruct E as (o & Hqo' & Hs).
      rewrite Hqo in Hqo'. injection Hqo' as <-.
      destruct (omnibus_entry_cases chi2_contingency t)
        as [(_ & _ & r & _ & Hr) | (_ & _ & _ & _ & Hns & _)].
      * rewrite Hr in Hnote. now contradiction Hnote.
      * congruence.
  - intros inner Hinner.
    assert (Hq : Dict.has q pw = true) by (unfold Dict.has; now rewrite Hinner).
    apply Hiff in Hq. destruct Hq as (o & Hqo & Hs).
    destruct (Hentry q o Hqo) as (t & Ht & ->).
    pose proof (significant_has_data likert_data q t Ht Hs) as Hdata.
    destruct (pairwise_question_total likert_data q Hdata)
      as (inner' & Hi & Hk).
    destruct (pairwise_question_runs likert_data q Hdata)
      as (inner'' & Hi' & Hcmp).
    destruct (Hget q inner Hinner) as [H | H]; [discriminate|].
    split; congruence.
Qed.

End Contracts.

End PairwiseFacts.

(** ** The order of the groups *)

Section Reordering.

Lemma existsb_permutation {A : Type} (f : A -> bool) (l l' : list A) :
  Permutation l l' -> existsb f l = existsb f l'.
Proof.
  induction 1 as [|a l l' _ IH|a b l|l l' l'' _ IH1 _ IH2]; simpl.
  - reflexivity.
  - now rewrite IH.
  - destruct (f a), (f b); reflexivity.
  - congruence.
Qed.

Lemma zsum_permutation (l l' : list Z) : Permutation l l' -> zsum l = zsum l'.
Proof.
  induction 1 as [|a l l' _ IH|a b l|l l' l'' _ IH1 _ IH2]; simpl;
    unfold zsum in *; lia.
Qed.

Lemma qsum_permutation (l l' : list Q) :
  Permutation l l' -> (Np.qsum l == Np.qsum l')%Q.
Proof.
  induction 1 as [|a l l' _ IH|a b l|l l' l'' _ IH1 _ IH2];
    cbn [Np.qsum fold_right].
  - reflexivity.
  - fold (Np.qsum l). fold (Np.qsum l'). now rewrite IH.
  - ring.
  - now rewrite IH1.
Qed.

Lemma concat_length_permutation {A : Type} (t t' : list (list A)) :
  Permutation t t' -> length (concat t) = length (concat t').
Proof.
  induction 1 as [|a l l' _ IH|a b l|l l' l'' _ IH1 _ IH2]; simpl.
  - reflexivity.
  - rewrite !length_app. lia.
  - rewrite !length_app. lia.
  - congruence.
Qed.

End Reordering.

Section ScipyFacts.

Import Prototype.

Variable chi2_sf : Q -> Z -> npfloat Q.

Lemma table_sum_permutation (t t' : table) :
  Permutation t t' -> table_sum t = table_sum t'.
Proof.
  intros H. unfold table_sum. apply zsum_permutation.
  now apply Permutation_map.
Qed.

Lemma table_size_permutation (t t' : table) :
  Permutation t t' -> table_size t = table_size t'.
Proof.
  intros H. unfold table_size. f_equal. now apply concat_length_permutation.
Qed.

Lemma ncols_permutation (n : nat) (t t' : table) :
  Permutation t t' -> Forall (fun r => length r = n) t ->
  Scipy.ncols t = Scipy.ncols t'.
Proof.
  intros Hp Hlen.
  assert (Hlen' : Forall (fun r => length r = n) t')
    by (now apply (Permutation_Forall Hp)).
  destruct t as [|r t]; destruct t' as [|r' t'].
  - reflexivity.
  - apply Permutation_nil in Hp. discriminate.
  - apply Permutation_sym, Permutation_nil in Hp. discriminate.
  - simpl. inversion Hlen; inversion Hlen'; congruence.
Qed.

Lemma margin_cols_permutation (n : nat) (t t' : table) :
  Permutation t t' -> Forall (fun r => length r = n) t ->
  Scipy.margin_cols t = Scipy.margin_cols t'.
Proof.
  intros Hp Hlen. unfold Scipy.margin_cols.
  rewrite (ncols_permutation n t t' Hp Hlen).
  apply map_ext. intros j. apply zsum_permutation. now apply Permutation_map.
Qed.

(** The test does not depend on the order of the rows. *)
Lemma chi2_contingency_permutation (n : nat) (t t' : table) :
  Permutation t t' -> Forall (fun r => length r = n) t ->
  Scipy.chi2_contingency chi2_sf t = Scipy.chi2_contingency chi2_sf t'.
Proof.
  intros Hp Hlen. unfold Scipy.chi2_contingency.
  rewrite <- (existsb_permutation _ t t' Hp).
  rewrite <- (table_size_permutation t t' Hp).
  rewrite <- (table_sum_permutation t t' Hp).
  assert (Hexp : Permutation (Scipy.expected_freq t) (Scipy.expected_freq t')).
  { unfold Scipy.expected_freq.
    rewrite <- (margin_cols_permutation n t t' Hp Hlen).
    rewrite <- (table_sum_permutation t t' Hp).
    now apply Permutation_map. }
  rewrite <- (existsb_permutation _ _ _ Hexp).
  assert (Hdeg : Scipy.degrees t = Scipy.degrees t').
  { unfold Scipy.degrees.
    now rewrite (ncols_permutation n t t' Hp Hlen), (Permutation_length Hp). }
  rewrite <- Hdeg.
  assert (Hstat : forall c, Scipy.pearson c t = Scipy.pearson c t').
  { intros c. unfold Scipy.pearson. apply Qred_complete.
    rewrite <- (margin_cols_permutation n t t' Hp Hlen).
    rewrite <- (table_sum_permutation t t' Hp).
    apply qsum_permutation. now apply Permutation_map. }
  now rewrite <- Hstat.
Qed.

Lemma col_sums_permutation (t t' : table) :
  Permutation t t' -> col_sums t = col_sums t'.
Proof.
  intros Hp. unfold col_sums. apply map_ext. intros j.
  apply zsum_permutation. now apply Permutation_map.
Qed.

Lemma filter_table_permutation (t t' : table) :
  Permutation t t' -> Permutation (filter_table t) (filter_table t').
Proof.
  intros Hp. unfold filter_table.
  rewrite <- (col_sums_permutation t t' Hp). now apply Permutation_map.
Qed.

(** The omnibus result of a table and of the same rows in another order
    differ in the recorded table only. *)
Lemma omnibus_entry_permutation (t t' : table) :
  Permutation t t' -> Forall (fun r => length r = 5%nat) t ->
  let o := omnibus_entry (Scipy.chi2_contingency chi2_sf) t in
  let o' := omnibus_entry (Scipy.chi2_contingency chi2_sf) t' in
  p_value o = p_value o' /\ chi2 o = chi2 o' /\ dof o = dof o' /\
  significant o = significant o' /\ note o = note o'.
Proof.
  intros Hp Hlen. cbv zeta. unfold omnibus_entry.
  pose proof (filter_table_permutation t t' Hp) as Hf.
  rewrite <- (table_size_permutation _ _ Hf).
  rewrite <- (table_sum_permutation _ _ Hf).
  destruct (filter_table_rectangular t Hlen) as (n & Hn).
  rewrite <- (chi2_contingency_permutation n _ _ Hf Hn).
  destruct (_ && _)%bool; [|repeat split].
  destruct (Scipy.chi2_contingency chi2_sf (filter_table t)); repeat split.
Qed.

(** In exact arithmetic the results of the omnibus step do not depend on
    the order of the groups. *)
Lemma omnibus_results_permutation (order1 order2 : list string)
        (likert_data : LikertData) (res1 : Dict.t omnibus_result) :
  Permutation order1 order2 ->
  perform_chi_squared_omnibus_in (Scipy.chi2_contingency chi2_sf)
                                 order1 likert_data = Ok res1 ->
  exists res2,
    perform_chi_squared_omnibus_in (Scipy.chi2_contingency chi2_sf)
                                   order2 likert_data = Ok res2 /\
    (forall q, Dict.has q res1 = Dict.has q res2) /\
    (forall q o1 o2,
        Dict.get q res1 = Some o1 -> Dict.get q res2 = Some o2 ->
        p_value o1 = p_value o2 /\ chi2 o1 = chi2 o2 /\ dof o1 = dof o2 /\
        significant o1 = significant o2).
Proof.
  intros Hp Hrun.
  assert (Hne : likert_data <> []) by (intros ->; discriminate).
  rewrite omnibus_in_unfold in Hrun |- * by exact Hne.
  destruct (omnibus_fold_spec _ _ _ _ _ _ Hrun) as (Hin1 & Hout1 & _).
  destruct (omnibus_fold_total (Scipy.chi2_contingency chi2_sf) order2
              likert_data (questions_of likert_data) Dict.empty)
    as (res2 & Hres2).
  { intros q Hq. destruct (Hin1 q Hq) as (t & Ht & _).
    destruct (mapM_permutation _ _ _ _ Hp Ht) as (t' & Ht' & _).
    now exists t'. }
  exists res2. split; [exact Hres2|].
  destruct (omnibus_fold_spec _ _ _ _ _ _ Hres2) as (Hin2 & Hout2 & _).
  split.
  - intros q. unfold Dict.has.
    destruct (in_dec string_dec q (questions_of likert_data)) as [Hq | Hq].
    + destruct (Hin1 q Hq) as (t1 & _ & ->).
      destruct (Hin2 q Hq) as (t2 & _ & ->). reflexivity.
    + now rewrite (Hout1 q Hq), (Hout2 q Hq).
  - intros q o1 o2 H1 H2.
    destruct (in_dec string_dec q (questions_of likert_data)) as [Hq | Hq].
    + destruct (Hin1 q Hq) as (t1 & Ht1 & Hg1).
      destruct (Hin2 q Hq) as (t2 & Ht2 & Hg2).
      rewrite H1 in Hg1. rewrite H2 in Hg2.
      injection Hg1 as ->. injection Hg2 as ->.
      destruct (mapM_permutation _ _ _ _ Hp Ht1) as (t' & Ht' & Hperm).
      unfold build_table in Ht2. rewrite Ht2 in Ht'. injection Ht' as <-.
      pose proof (build_table_length5 _ _ _ _ Ht1) as Hlen.
      destruct (omnibus_entry_permutation t1 t2 Hperm Hlen)
        as (Ha & Hb & Hc & Hd & _).
      auto.
    + rewrite (Hout1 q Hq) in H1. discriminate.
Qed.

End ScipyFacts.

(** ** The order of the groups in binary64 *)

Section Binary64Facts.

Import Prototype.

Variable chi2_sf : PrimFloat.float -> Z -> PrimFloat.float.

(** In binary64 the test of a table and of the same rows in another order
    raise together, and otherwise have the same degrees of freedom and the
    same cell terms, in another order. *)
Lemma binary64_permutation (n : nat) (t t' : table) :
  Permutation t t' -> Forall (fun r => length r = n) t ->
  (Binary64.chi2_contingency chi2_sf t = None /\
   Binary64.chi2_contingency chi2_sf t' = None)
  \/
  (Scipy.degrees t = Scipy.degrees t' /\
   Permutation (Binary64.terms (Scipy.degrees t =? 1) t)
               (Binary64.terms (Scipy.degrees t' =? 1) t') /\
   Binary64.chi2_contingency chi2_sf t
   = Some (Binary64.test_result chi2_sf (Scipy.degrees t)
             (Binary64.terms (Scipy.degrees t =? 1) t)) /\
   Binary64.chi2_contingency chi2_sf t'
   = Some (Binary64.test_result chi2_sf (Scipy.degrees t')
             (Binary64.terms (Scipy.degrees t' =? 1) t'))).
Proof.
  intros Hp Hlen. unfold Binary64.chi2_contingency.
  rewrite <- (existsb_permutation _ t t' Hp).
  rewrite <- (table_size_permutation t t' Hp).
  assert (Hexp : Permutation (Binary64.expected_freq t)
                             (Binary64.expected_freq t')).
  { unfold Binary64.expected_freq.
    rewrite <- (margin_cols_permutation n t t' Hp Hlen).
    rewrite <- (table_sum_permutation t t' Hp).
    now apply Permutation_map. }
  rewrite <- (existsb_permutation _ _ _ Hexp).
  assert (Hdeg : Scipy.degrees t = Scipy.degrees t').
  { unfold Scipy.degrees.
    now rewrite (ncols_permutation n t t' Hp Hlen), (Permutation_length Hp). }
  rewrite <- Hdeg.
  destruct (existsb _ t); [now left|].
  destruct (table_size t =? 0); [now left|].
  match goal with
  | |- context [if ?b then None else _] => destruct b; [now left|]
  end.
  right. split; [reflexivity|]. split; [|split; reflexivity].
  unfold Binary64.terms.
  rewrite <- (margin_cols_permutation n t t' Hp Hlen).
  rewrite <- (table_sum_permutation t t' Hp).
  now apply Permutation_flat_map.
Qed.

(** What the omnibus step records in binary64 for a table and for the
    same rows in another order: the placeholder for both, or the results
    of the same cell terms in another order. *)
Lemma binary64_entry_permutation (t t' : table) :
  Permutation t t' -> Forall (fun r => length r = 5%nat) t ->
  same_up_to_order chi2_sf t t'.
Proof.
  intros Hp Hlen. unfold same_up_to_order, Binary64.omnibus_entry.
  pose proof (filter_table_permutation t t' Hp) as Hf.
  split; [exact Hf|].
  rewrite <- (table_size_permutation _ _ Hf).
  rewrite <- (table_sum_permutation _ _ Hf).
  destruct (filter_table_rectangular t Hlen) as (n & Hn).
  destruct (_ && _)%bool; [|now left].
  destruct (binary64_permutation n _ _ Hf Hn)
    as [(-> & ->) | (Hdeg & Hcells & -> & ->)]; [now left|].
  right. repeat split; assumption.
Qed.

End Binary64Facts.

Section OrderOfGroups.

Import Prototype.

Variable chi2_sf : Q -> Z -> npfloat Q.

(** C7, as the code has it: two runs of the omnibus step that differ only
    in the order in which the groups are put into the contingency table
    return results for the same questions.  For every question the two
    contingency tables hold the same rows, and so do the tested tables; in
    binary64 the two runs record the placeholder together, and otherwise
    the same degrees of freedom and the results of the same cell terms,
    added in the order of the rows: the statistic is their binary64 sum
    and the p-value the survival function at this sum.  In exact
    arithmetic the sum does not depend on the order, and the statistic,
    the p-value, the degrees of freedom and the flag of the two runs are
    equal. *)
Theorem omnibus_order_invariant_up_to_rounding (order1 order2 : list string)
        (likert_data : LikertData) (res1 : Dict.t omnibus_result) :
  Permutation order1 order2 ->
  perform_chi_squared_omnibus_in (Scipy.chi2_contingency chi2_sf)
                                 order1 likert_data = Ok res1 ->
  (exists res2,
      perform_chi_squared_omnibus_in (Scipy.chi2_contingency chi2_sf)
                                     order2 likert_data = Ok res2 /\
      (forall q, Dict.has q res1 = Dict.has q res2) /\
      (forall q o1 o2,
          Dict.get q res1 = Some o1 -> Dict.get q res2 = Some o2 ->
          p_value o1 = p_value o2 /\ chi2 o1 = chi2 o2 /\ dof o1 = dof o2 /\
          significant o1 = significant o2)) /\
  (forall (sf64 : PrimFloat.float -> Z -> PrimFloat.float) q t1,
      build_table order1 likert_data q = Ok t1 ->
      exists t2,
        build_table order2 likert_data q = Ok t2 /\
        Permutation t1 t2 /\
        same_up_to_order sf64 t1 t2).
Proof.
  intros Hp Hrun. split.
  - exact (omnibus_results_permutation chi2_sf order1 order2 likert_data res1
             Hp Hrun).
  - intros sf64 q t1 Ht1.
    destruct (mapM_permutation _ _ _ _ Hp Ht1) as (t2 & Ht2 & Hperm).
    exists t2. split; [exact Ht2|]. split; [exact Hperm|].
    apply binary64_entry_permutation; [exact Hperm|].
    exact (build_table_length5 _ _ _ _ Ht1).
Qed.

End OrderOfGroups.


(** ** The tests on the example data *)

Section Examples.

Import Prototype.

Lemma concat_empty_rows (t : table) :
  Forall (fun r => length r = 0%nat) t -> concat t = [].
Proof.
  induction 1 as [|r t Hr _ IH]; [reflexivity|].
  destruct r; [exact IH | discriminate].
Qed.

(** scipy's test meets the contract of the pairwise step: a row of total
    zero in a table of positive total has expected frequencies zero. *)
Lemma scipy_rejects_zero_row (chi2_sf : Q -> Z -> npfloat Q) (t : table) :
  rectangular t -> 0 < table_sum t ->
  (exists r, In r t /\ zsum r = 0) ->
  Scipy.chi2_contingency chi2_sf t = None.
Proof.
  intros (n & Hn) Hsum (r & Hr & Hzero). unfold Scipy.chi2_contingency.
  destruct (existsb _ t); [reflexivity|].
  destruct (Z.eqb_spec (table_size t) 0) as [Hsize | Hsize]; [reflexivity|].
  destruct (Z.eqb_spec (table_sum t) 0) as [E | _]; [lia|]. cbn [negb andb].
  assert (Hpos : (0 < n)%nat).
  { destruct n; [|lia]. exfalso. apply Hsize. unfold table_size.
    now rewrite (concat_empty_rows t Hn). }
  assert (Hcs : exists c cs, Scipy.margin_cols t = c :: cs).
  { unfold Scipy.margin_cols. destruct t as [|r0 t0]; [destruct Hr|].
    inversion Hn as [|? ? Hr0 _]; subst. cbn [Scipy.ncols].
    destruct (length r0); [lia|]. cbn [seq map]. eauto. }
  destruct Hcs as (c & cs & Hcs).
  assert (Hex : existsb (existsb (Qeq_bool 0)) (Scipy.expected_freq t) = true).
  { apply existsb_exists.
    exists (Scipy.expected_row (Scipy.margin_cols t) (table_sum t) r).
    split; [unfold Scipy.expected_freq; now apply in_map|].
    rewrite Hcs. unfold Scipy.expected_row. cbn [map existsb].
    rewrite Hzero. apply orb_true_iff. left.
    apply Qeq_bool_iff. cbn [Z.mul]. unfold Qdiv. ring. }
  now rewrite Hex.
Qed.

Lemma example_ks_accepts (data1 data2 : list Z) :
  data1 <> [] -> data2 <> [] -> example_ks data1 data2 <> None.
Proof.
  destruct data1, data2; intros H1 H2; try congruence; discriminate.
Qed.

Lemma example_likert_complete : complete prototypes example_likert.
Proof.
  intros q p Hq Hp. vm_compute in Hq. simpl in Hp.
  destruct Hq as [<- | [<- | [<- | [<- | []]]]];
    destruct Hp as [<- | [<- | [<- | []]]];
    eexists _, _; split; reflexivity.
Qed.

Lemma prototypes_rotated : Permutation prototypes ["C"; "A"; "B"].
Proof.
  unfold prototypes.
  apply (Permutation_cons_app ["C"] ["B"]).
  apply (Permutation_cons_app ["C"] []). reflexivity.
Qed.

End Examples.

(** Of the four questions of the example only the first is significant,
    and only it has pairwise results: the three comparisons, each holding
    the outcome of the two-sample test on the answers of the two groups. *)
Lemma pairwise_iff_omnibus_significant_witness :
  exists pairwise_results,
    Prototype.perform_pairwise_ks_tests example_ks example_likert example_omnibus
    = Ok pairwise_results /\
    Dict.has "Easy to Use" pairwise_results = true /\
    Dict.has "Has Features Needed" pairwise_results = false /\
    example_ks (repeat 5 20) (repeat 1 20) = Some (Fin 1%Q, Fin 0%Q) /\
    example_ks (repeat 5 20) (repeat 5 20) = Some (Fin 0%Q, Fin (1 # 50)) /\
    example_ks (repeat 1 20) (repeat 5 20) = Some (Fin 1%Q, Fin 0%Q) /\
    Dict.get "Easy to Use" pairwise_results
    = Some [ ("A vs B", Prototype.pairwise_entry (Fin 1%Q, Fin 0%Q));
             ("A vs C", Prototype.pairwise_entry (Fin 0%Q, Fin (1 # 50)));
             ("B vs C", Prototype.pairwise_entry (Fin 1%Q, Fin 0%Q)) ].
Proof.
  destruct (pairwise_iff_omnibus_significant
              (Scipy.chi2_contingency markov_sf) example_ks
              (scipy_rejects_zero_row markov_sf) example_ks_accepts
              example_likert example_omnibus)
    as (pw & Hpw & H).
  - vm_compute. reflexivity.
  - exists pw. split; [exact Hpw|].
    assert (Hhas : Dict.has "Easy to Use" pw = true).
    { apply (proj1 (H "Easy to Use")). eexists. split; reflexivity. }
    split; [exact Hhas|]. split.
    + destruct (H "Has Features Needed") as (_ & Hnote & _).
      eapply Hnote; [reflexivity | discriminate].
    + assert (HAB : example_ks (repeat 5 20) (repeat 1 20)
                    = Some (Fin 1%Q, Fin 0%Q)) by (vm_compute; reflexivity).
      assert (HAC : example_ks (repeat 5 20) (repeat 5 20)
                    = Some (Fin 0%Q, Fin (1 # 50))) by (vm_compute; reflexivity).
      assert (HBC : example_ks (repeat 1 20) (repeat 5 20)
                    = Some (Fin 1%Q, Fin 0%Q)) by (vm_compute; reflexivity).
      split; [exact HAB|]. split; [exact HAC|]. split; [exact HBC|].
      unfold Dict.has in Hhas.
      destruct (Dict.get "Easy to Use" pw) as [inner|] eqn:Einner;
        [|discriminate].
      destruct (H "Easy to Use") as (_ & _ & Hinner).
      destruct (Hinner inner Einner)
        as (_ & dA & dB & dC & ksAB & ksAC & ksBC & HA & HB & HC & H1 & H2 & H3
            & ->).
      injection HA as <-. injection HB as <-. injection HC as <-.
      vm_compute in H1, H2, H3.
      injection H1 as <-. injection H2 as <-. injection H3 as <-.
      reflexivity.
Defined.

(** The example has a question where the prototypes differ, which is
    tested on the two rating columns in use; a question nobody answered,
    whose tested table has no column left; and one that a prototype's
    respondents left out, on which the test raises.  The omnibus step
    returns for all of them, with the placeholder for the last two. *)
Lemma omnibus_guards_degenerate_tables_witness :
  exists res,
    Prototype.perform_chi_squared_omnibus (Scipy.chi2_contingency markov_sf)
                                          example_likert = Ok res /\
    Dict.keys res = ["Easy to Use"; "Understand Tasks"; "Has Features Needed";
                     "Superior to Existing Tools"] /\
    (exists o,
        Dict.get "Easy to Use" res = Some o /\
        Prototype.contingency_table o
        = [[0; 0; 0; 0; 20]; [20; 0; 0; 0; 0]; [0; 0; 0; 0; 20]] /\
        without_zero_columns (Prototype.contingency_table o)
                             [[0; 20]; [20; 0]; [0; 20]] /\
        Prototype.chi2 o = Fin 60%Q /\ Prototype.significant o = true) /\
    (exists o,
        Dict.get "Has Features Needed" res = Some o /\
        without_zero_columns (Prototype.contingency_table o) [[]; []; []] /\
        Prototype.chi2 o = NaN /\ Prototype.p_value o = Fin 1%Q /\
        Prototype.significant o = false) /\
    (exists o,
        Dict.get "Superior to Existing Tools" res = Some o /\
        Prototype.contingency_table o
        = [[0; 0; 0; 1; 1]; [0; 0; 0; 0; 0]; [0; 2; 0; 0; 0]] /\
        without_zero_columns (Prototype.contingency_table o)
                             [[0; 1; 1]; [0; 0; 0]; [2; 0; 0]] /\
        Prototype.chi2 o = NaN /\ Prototype.p_value o = Fin 1%Q /\
        Prototype.significant o = false).
Proof.
  destruct (proj1 (omnibus_guards_degenerate_tables
                     (Scipy.chi2_contingency markov_sf)) example_likert)
    as (res & Hres & Hkeys & Hentries).
  - discriminate.
  - exact example_likert_complete.
  - assert (Hrun : Prototype.perform_chi_squared_omnibus
                     (Scipy.chi2_contingency markov_sf) example_likert
                   = Ok example_omnibus) by (vm_compute; reflexivity).
    rewrite Hrun in Hres. injection Hres as <-.
    exists example_omnibus. split; [exact Hrun|]. split; [reflexivity|].
    split; [|split].
    + eexists. split; [reflexivity|]. split; [reflexivity|].
      split; [|split; reflexivity].
      exact (proj1 (proj2 (Hentries "Easy to Use" _ eq_refl))).
    + eexists. split; [reflexivity|].
      split; [|repeat split; reflexivity].
      exact (proj1 (proj2 (Hentries "Has Features Needed" _ eq_refl))).
    + eexists. split; [reflexivity|]. split; [reflexivity|].
      split; [|repeat split; reflexivity].
      exact (proj1 (proj2 (Hentries "Superior to Existing Tools" _ eq_refl))).
Defined.

(** The comparison of A and C in the example: raw p-value 1/50, adjusted
    3/50. *)
Lemma bonferroni_adjusted_p_value_witness :
  exists a,
    Prototype.adjusted_p_value
      (Prototype.pairwise_entry (Fin 0%Q, Fin (1 # 50))) = Fin a /\
    (1 # 50 <= a)%Q /\ (a <= 1)%Q /\ (a == Qmin ((1 # 50) * 3) 1)%Q.
Proof.
  destruct (bonferroni_adjusted_p_value example_ks example_likert
              example_omnibus example_pairwise)
    with (question := "Easy to Use") (pair := "A vs C")
         (inner := Dict.get_default "Easy to Use" [] example_pairwise)
         (r := Prototype.pairwise_entry (Fin 0%Q, Fin (1 # 50)))
    as (_ & H & _).
  - vm_compute. reflexivity.
  - reflexivity.
  - reflexivity.
  - apply (H (1 # 50)); [reflexivity | discriminate | discriminate].
Defined.

Lemma prototypes_rotated_left : Permutation ["A"; "B"; "C"] ["B"; "C"; "A"].
Proof.
  apply (Permutation_cons_app ["B"; "C"] []). reflexivity.
Qed.

Lemma statistics_differ : rounded_statistic <> next_statistic.
Proof.
  intros H. apply (f_equal (fun x => PrimFloat.eqb x rounded_statistic)) in H.
  vm_compute in H. discriminate.
Qed.

Lemma order_example_tables :
  Prototype.build_table ["A"; "B"; "C"] order_example "Easy to Use"
  = Ok [[1; 1; 0; 0; 0]; [3; 0; 0; 0; 0]; [3; 0; 0; 0; 0]] /\
  Prototype.build_table ["B"; "C"; "A"] order_example "Easy to Use"
  = Ok [[3; 0; 0; 0; 0]; [3; 0; 0; 0; 0]; [1; 1; 0; 0; 0]] /\
  forall chi2_sf : PrimFloat.float -> Z -> PrimFloat.float,
    Binary64.omnibus_entry chi2_sf
      [[1; 1; 0; 0; 0]; [3; 0; 0; 0; 0]; [3; 0; 0; 0; 0]]
    = Binary64.recorded
        (Binary64.mkChi2 rounded_statistic (chi2_sf rounded_statistic 2) 2) /\
    Binary64.omnibus_entry chi2_sf
      [[3; 0; 0; 0; 0]; [3; 0; 0; 0; 0]; [1; 1; 0; 0; 0]]
    = Binary64.recorded
        (Binary64.mkChi2 next_statistic (chi2_sf next_statistic 2) 2).
Proof.
  split; [reflexivity|]. split; [reflexivity|].
  intros chi2_sf. split; vm_compute; reflexivity.
Qed.

(** C7, as stated, fails in binary64.  Group A answers 1 and 2, the groups
    B and C answer 1 three times.  In exact arithmetic the statistic is
    24/7 in every order of the groups.  With the rows in the order A, B, C
    the omnibus step records the statistic 3.4285714285714284; with the
    rows in the order B, C, A it records 3.428571428571429, the next
    binary64 number.  The p-values are the survival function at these two
    statistics. *)
Lemma omnibus_p_value_depends_on_order :
  Permutation ["A"; "B"; "C"] ["B"; "C"; "A"] /\
  rounded_statistic <> next_statistic /\
  exists t1 t2,
    Prototype.build_table ["A"; "B"; "C"] order_example "Easy to Use" = Ok t1 /\
    Prototype.build_table ["B"; "C"; "A"] order_example "Easy to Use" = Ok t2 /\
    Scipy.pearson false (Prototype.filter_table t1) = 24 # 7 /\
    Scipy.pearson false (Prototype.filter_table t2) = 24 # 7 /\
    forall sf64 : PrimFloat.float -> Z -> PrimFloat.float,
      Binary64.chi2 (Binary64.omnibus_entry sf64 t1) = rounded_statistic /\
      Binary64.chi2 (Binary64.omnibus_entry sf64 t2) = next_statistic /\
      Binary64.p_value (Binary64.omnibus_entry sf64 t1)
      = sf64 rounded_statistic 2 /\
      Binary64.p_value (Binary64.omnibus_entry sf64 t2)
      = sf64 next_statistic 2 /\
      (sf64 rounded_statistic 2 <> sf64 next_statistic 2 ->
       Binary64.p_value (Binary64.omnibus_entry sf64 t1)
       <> Binary64.p_value (Binary64.omnibus_entry sf64 t2)).
Proof.
  split; [exact prototypes_rotated_left|]. split; [exact statistics_differ|].
  destruct order_example_tables as (H1 & H2 & H).
  eexists _, _. split; [exact H1|]. split; [exact H2|].
  split; [vm_compute; reflexivity|]. split; [vm_compute; reflexivity|].
  intros sf64. destruct (H sf64) as (-> & ->).
  cbn [Binary64.recorded Binary64.chi2 Binary64.p_value Binary64.statistic
       Binary64.pvalue].
  repeat split. auto.
Qed.

(** The example with the groups in the order C, A, B. *)
Lemma omnibus_order_invariant_up_to_rounding_witness :
  (exists res2,
      Prototype.perform_chi_squared_omnibus_in
        (Scipy.chi2_contingency markov_sf) ["C"; "A"; "B"] example_likert
      = Ok res2 /\
      forall o2, Dict.get "Easy to Use" res2 = Some o2 ->
                 Prototype.p_value o2 = Fin (1 # 30)) /\
  (exists t2,
      Prototype.build_table ["C"; "A"; "B"] example_likert "Easy to Use"
      = Ok t2 /\
      Permutation [[0; 0; 0; 0; 20]; [20; 0; 0; 0; 0]; [0; 0; 0; 0; 20]] t2).
Proof.
  destruct (omnibus_order_invariant_up_to_rounding markov_sf
              Prototype.prototypes ["C"; "A"; "B"] example_likert
              example_omnibus prototypes_rotated)
    as ((res2 & Hres2 & _ & Hsame) & Hrows).
  - vm_compute. reflexivity.
  - split.
    + exists res2. split; [exact Hres2|]. intros o2 Ho2.
      destruct (Hsame "Easy to Use" _ o2 eq_refl Ho2) as (Hp & _).
      symmetry. exact Hp.
    + destruct (Hrows (fun x _ => x) "Easy to Use" _ eq_refl)
        as (t2 & Ht2 & Hperm & _).
      exists t2. split; [exact Ht2 | exact Hperm].
Defined.

(** * Further properties *)

(** ** Select-all and multiple-choice counters *)

Section Counters.

Import Needfinding.

Lemma counter_fold_absent (x : string) (l : list string) (d : Dict.t Z) :
  ~ In x l -> Dict.get x (fold_left counter_step l d) = Dict.get x d.
Proof.
  revert d. induction l as [|y l IH]; intros d Hx; [reflexivity|].
  simpl in *. rewrite IH by tauto. unfold counter_step.
  apply get_set_ne. tauto.
Qed.

(** The count of an element, none for an element that does not occur. *)
Lemma counter_lookup (x : string) (l : list string) :
  Dict.get x (Counter l)
  = match count_occ string_dec l x with
    | O => None
    | S n => Some (Z.of_nat (S n))
    end.
Proof.
  destruct (in_dec string_dec x l) as [Hin | Hin].
  - rewrite (counter_get x l Hin).
    apply (count_occ_In string_dec) in Hin.
    destruct (count_occ string_dec l x); [lia | reflexivity].
  - unfold Counter. rewrite (counter_fold_absent x l _ Hin).
    rewrite (proj1 (count_occ_not_In string_dec l x) Hin). reflexivity.
Qed.

Lemma counter_permutation (l l' : list string) (x : string) :
  Permutation l l' -> Dict.get x (Counter l) = Dict.get x (Counter l').
Proof.
  intros H. rewrite !counter_lookup.
  now rewrite (proj1 (Permutation_count_occ string_dec l l') H x).
Qed.

Lemma filter_permutation {A : Type} (f : A -> bool) (l l' : list A) :
  Permutation l l' -> Permutation (filter f l) (filter f l').
Proof.
  induction 1 as [|a l l' _ IH|a b l|l l' l'' _ IH1 _ IH2]; simpl.
  - constructor.
  - destruct (f a); [now constructor | exact IH].
  - destruct (f a), (f b); try reflexivity. constructor.
  - now transitivity (filter f l').
Qed.

Lemma flat_map_permutation {A B : Type} (f : A -> list B) (l l' : list A) :
  Permutation l l' -> Permutation (flat_map f l) (flat_map f l').
Proof.
  induction 1 as [|a l l' _ IH|a b l|l l' l'' _ IH1 _ IH2]; simpl.
  - constructor.
  - now apply Permutation_app_head.
  - rewrite !app_assoc. apply Permutation_app_tail. apply Permutation_app_comm.
  - now transitivity (flat_map f l').
Qed.

Lemma count_occ_filter (f : string -> bool) (l : list string) (x : string) :
  count_occ string_dec (filter f l) x
  = if f x then count_occ string_dec l x else O.
Proof.
  induction l as [|y l IH]; simpl; [now destruct (f x)|].
  destruct (string_dec y x) as [-> | Hne].
  - destruct (f x) eqn:E; simpl.
    + destruct (string_dec x x); [now rewrite IH | congruence].
    + exact IH.
  - destruct (f y); simpl; [|exact IH].
    destruct (string_dec y x); [congruence | exact IH].
Qed.

Lemma select_all_options (answers : list string) :
  process_select_all_question answers
  = Counter (flat_map (fun a => if excluded a then [] else options_of a) answers).
Proof.
  unfold process_select_all_question. f_equal. apply flat_map_ext.
  intros a. unfold excluded, options_of.
  destruct (PyStr.truthy a), (PyStr.mem (PyStr.lower a) no_answer3); reflexivity.
Qed.

(** X1: the counts do not depend on the order of the respondents. *)
Theorem counters_ignore_respondent_order (answers answers' : list string) :
  Permutation answers answers' ->
  forall option,
    Dict.get option (process_select_all_question answers)
    = Dict.get option (process_select_all_question answers') /\
    Dict.get option (process_multiple_choice_question answers)
    = Dict.get option (process_multiple_choice_question answers').
Proof.
  intros Hp option. split.
  - rewrite !select_all_options. apply counter_permutation.
    now apply flat_map_permutation.
  - unfold process_multiple_choice_question. apply counter_permutation.
    now apply filter_permutation.
Qed.

Lemma counters_ignore_respondent_order_witness :
  Dict.get "Email" (process_select_all_question tools_answers)
  = Dict.get "Email" (process_select_all_question (rev tools_answers)).
Proof.
  apply (counters_ignore_respondent_order tools_answers (rev tools_answers)).
  apply Permutation_rev.
Defined.

(** X2: a multiple-choice answer is counted verbatim: an answer that is
    non-empty and not "n/a" or "na" has the number of its exact occurrences,
    and nothing else is a key. *)
Theorem multiple_choice_counts_verbatim (answers : list string) (a : string) :
  Dict.get a (process_multiple_choice_question answers)
  = if (kept_choice a && existsb (String.eqb a) answers)%bool
    then Some (Z.of_nat (count_occ string_dec answers a))
    else None.
Proof.
  unfold process_multiple_choice_question. rewrite counter_lookup.
  fold kept_choice. rewrite count_occ_filter.
  destruct (kept_choice a); cbn [andb].
  - destruct (existsb (String.eqb a) answers) eqn:E.
    + apply existsb_exists in E. destruct E as (y & Hy & Heq).
      apply String.eqb_eq in Heq. subst y.
      apply (count_occ_In string_dec) in Hy.
      destruct (count_occ string_dec answers a); [lia | reflexivity].
    + assert (Hn : ~ In a answers).
      { intros Hin. assert (existsb (String.eqb a) answers = true).
        { apply existsb_exists. exists a. split; [exact Hin|].
          apply String.eqb_refl. }
        congruence. }
      now rewrite (proj1 (count_occ_not_In string_dec answers a) Hn).
  - reflexivity.
Qed.

Lemma split_length (sep : ascii) (s : string) :
  length (PyStr.split sep s) = S (count_char sep s).
Proof.
  induction s as [|c s IH]; [reflexivity|].
  cbn [PyStr.split count_char]. destruct (Ascii.eqb c sep).
  - cbn [length]. now rewrite IH.
  - destruct (PyStr.split sep s); simpl in *; [discriminate | exact IH].
Qed.

(** X3: every kept select-all answer adds one option more than it has
    separators, so a separator at the end of an answer adds an empty
    option; the counts add up to the number of these options. *)
Theorem select_all_counts_every_option (answers : list string) :
  zsum (Dict.values (process_select_all_question answers))
  = zsum (map (fun a => if excluded a then 0
                        else Z.of_nat (S (count_char ";"%char a))) answers).
Proof.
  rewrite select_all_options, counter_sum.
  induction answers as [|a l IH]; [reflexivity|].
  cbn [flat_map map zsum fold_right]. rewrite length_app, Nat2Z.inj_add.
  unfold zsum in IH. rewrite IH. f_equal.
  destruct (excluded a); [reflexivity|].
  unfold options_of. now rewrite length_map, split_length.
Qed.

Lemma rstrip_idempotent (s : string) :
  PyStr.rstrip (PyStr.rstrip s) = PyStr.rstrip s.
Proof.
  induction s as [|c s IH]; [reflexivity|].
  cbn [PyStr.rstrip]. destruct (PyStr.rstrip s) as [|d r] eqn:E.
  - destruct (PyStr.is_space c) eqn:Ec; [reflexivity|].
    cbn [PyStr.rstrip]. now rewrite Ec.
  - cbn [PyStr.rstrip]. cbn [PyStr.rstrip] in IH. rewrite IH. reflexivity.
Qed.

Lemma lstrip_head (s : string) :
  PyStr.lstrip s = EmptyString \/
  exists c t, PyStr.lstrip s = String c t /\ PyStr.is_space c = false.
Proof.
  induction s as [|c s IH]; [now left|].
  cbn [PyStr.lstrip]. destruct (PyStr.is_space c) eqn:E; [exact IH|].
  right. now exists c, s.
Qed.

Lemma rstrip_head (c : ascii) (t : string) :
  PyStr.is_space c = false -> exists r, PyStr.rstrip (String c t) = String c r.
Proof.
  intros E. cbn [PyStr.rstrip]. destruct (PyStr.rstrip t).
  - rewrite E. now exists EmptyString.
  - eauto.
Qed.

Lemma strip_idempotent (s : string) : PyStr.strip (PyStr.strip s) = PyStr.strip s.
Proof.
  unfold PyStr.strip.
  destruct (lstrip_head s) as [E | (c & t & E & Ec)]; rewrite E.
  - reflexivity.
  - destruct (rstrip_head c t Ec) as (r & Er). rewrite Er.
    cbn [PyStr.lstrip]. rewrite Ec. rewrite <- Er. apply rstrip_idempotent.
Qed.

Lemma counter_keys (x : string) (l : list string) :
  In x (Dict.keys (Counter l)) <-> In x l.
Proof.
  rewrite <- has_keys. unfold Dict.has. rewrite counter_lookup. split.
  - intros H. apply (count_occ_In string_dec).
    destruct (count_occ string_dec l x); [discriminate | lia].
  - intros H. apply (count_occ_In string_dec) in H.
    destruct (count_occ string_dec l x); [lia | reflexivity].
Qed.

(** X4: the options of a select-all question carry no white space around
    them, and none comes from an answer that is empty, "n/a", "na" or
    "none". *)
Theorem select_all_options_trimmed (answers : list string) (option : string) :
  In option (Dict.keys (process_select_all_question answers)) ->
  PyStr.strip option = option /\
  exists a, In a answers /\ excluded a = false /\ In option (options_of a).
Proof.
  rewrite select_all_options, counter_keys, in_flat_map.
  intros (a & Ha & Hopt). destruct (excluded a) eqn:E; [destruct Hopt|].
  split; [|now exists a].
  unfold options_of in Hopt. apply in_map_iff in Hopt.
  destruct Hopt as (t & <- & _). apply strip_idempotent.
Qed.

Lemma select_all_options_trimmed_witness :
  PyStr.strip "Email" = "Email" /\
  exists a, In a tools_answers /\ excluded a = false /\ In "Email" (options_of a).
Proof.
  apply (select_all_options_trimmed tools_answers "Email").
  vm_compute. auto.
Defined.

End Counters.

(** ** The order of the categories *)

Section Ordering.

Import Needfinding.

Lemma contains_lower_false (phrase text : string) :
  PyStr.contains phrase (PyStr.lower text) = false <-> ~ icontains phrase text.
Proof.
  rewrite <- contains_lower_iff. destruct (PyStr.contains _ _); split;
    intros H; try reflexivity; try discriminate; now contradiction H.
Qed.

Lemma contains_reflect (phrase text : string) :
  reflect (icontains phrase text) (PyStr.contains phrase (PyStr.lower text)).
Proof.
  destruct (PyStr.contains phrase (PyStr.lower text)) eqn:E; constructor.
  - now apply contains_lower_iff.
  - now apply contains_lower_false.
Qed.

(** X5: which order a question text selects: the "times" buckets when the text
    says "how many times", or says "how many trips" together with "away
    from your home city"; the "trips" buckets for the other texts with
    "how many trips"; the tool-use scale for a text with "same basic
    tools/processes" that is not a frequency question; none otherwise. *)
Theorem get_custom_order_rules (question_text : string) :
  let trips := icontains "how many trips" question_text in
  let times := icontains "how many times" question_text in
  let away := icontains "away from your home city" question_text in
  let tools := icontains "same basic tools/processes" question_text in
  (times \/ (trips /\ away) -> get_custom_order question_text = Some times_order) /\
  (trips -> ~ times -> ~ away -> get_custom_order question_text = Some trips_order) /\
  (~ trips -> ~ times -> tools -> get_custom_order question_text = Some tools_order) /\
  (~ trips -> ~ times -> ~ tools -> get_custom_order question_text = None).
Proof.
  intros trips times away tools. unfold get_custom_order.
  destruct (contains_reflect "how many trips" question_text);
    destruct (contains_reflect "how many times" question_text);
    destruct (contains_reflect "away from your home city" question_text);
    destruct (contains_reflect "same basic tools/processes" question_text);
    cbn [orb]; unfold trips, times, away, tools;
    repeat split; intros; try reflexivity; tauto.
Qed.

Lemma get_custom_order_rules_witness :
  get_custom_order times_text = Some times_order.
Proof.
  apply (get_custom_order_rules times_text). left.
  rewrite <- contains_lower_iff. vm_compute. reflexivity.
Defined.

(** X6: the bar chart of a question that selects the "times" buckets has
    exactly these five bars, each with its count in the data or zero; a
    category of the data outside the buckets has no bar. *)
Theorem times_frequency_bars (data : Dict.t Z) (question_text : string) :
  icontains "how many times" question_text \/
  (icontains "how many trips" question_text /\
   icontains "away from your home city" question_text) ->
  let bars := create_bar_chart data question_text in
  bars = map (fun b => (b, Dict.get_default b 0 data)) times_order /\
  (forall k, ~ In k times_order -> Dict.get k bars = None).
Proof.
  intros H.
  assert (Hbars : create_bar_chart data question_text
                  = map (fun b => (b, Dict.get_default b 0 data)) times_order).
  { unfold create_bar_chart, order_data_for_chart, get_custom_order.
    destruct H as [H | [H1 H2]].
    - apply contains_lower_iff in H. rewrite H. rewrite !orb_true_r.
      cbn [orb andb]. reflexivity.
    - apply contains_lower_iff in H1, H2. rewrite H1, H2. rewrite !orb_true_r.
      cbn [orb andb]. reflexivity. }
  cbv zeta. rewrite Hbars. split; [reflexivity|].
  intros k Hk. apply get_None_keys. unfold Dict.keys.
  rewrite map_map. cbn [fst]. now rewrite map_id.
Qed.

Lemma times_frequency_bars_witness :
  create_bar_chart times_data times_text
  = [("0 times", 0); ("1-2 times", 5); ("3-5 times", 0); ("6-10 times", 0);
     ("11+ times", 1)] /\
  (forall k, ~ In k times_order ->
             Dict.get k (create_bar_chart times_data times_text) = None).
Proof.
  apply (times_frequency_bars times_data times_text). left.
  rewrite <- contains_lower_iff. vm_compute. reflexivity.
Defined.

Lemma insert_desc_permutation (x : string * Z) (l : list (string * Z)) :
  Permutation (insert_desc x l) (x :: l).
Proof.
  induction l as [|y l IH]; simpl; [reflexivity|].
  destruct (snd y <=? snd x); [reflexivity|].
  rewrite perm_swap. now constructor.
Qed.

Lemma sorted_desc_permutation (l : list (string * Z)) :
  Permutation (sorted_desc l) l.
Proof.
  induction l as [|x l IH]; simpl; [constructor|].
  rewrite insert_desc_permutation. now constructor.
Qed.

Lemma insert_desc_descending (x : string * Z) (l : list (string * Z)) :
  descending l -> descending (insert_desc x l).
Proof.
  induction l as [|y l IH]; intros Hl; [exact I|].
  cbn [insert_desc]. destruct (Z.leb_spec (snd y) (snd x)) as [Hle | Hlt].
  - split; assumption.
  - destruct l as [|z l].
    + simpl. split; [lia | exact I].
    + destruct Hl as [Hzy Hl]. specialize (IH Hl).
      cbn [insert_desc] in *. destruct (snd z <=? snd x).
      * split; [lia | exact IH].
      * split; [exact Hzy | exact IH].
Qed.

Lemma sorted_desc_descending (l : list (string * Z)) : descending (sorted_desc l).
Proof.
  induction l as [|x l IH]; [exact I|].
  simpl. now apply insert_desc_descending.
Qed.

(** Inserting an item moves it past larger counts only. *)
Lemma insert_desc_stable (c : Z) (x : string * Z) (l : list (string * Z)) :
  filter (fun kv => snd kv =? c) (insert_desc x l)
  = filter (fun kv => snd kv =? c) (x :: l).
Proof.
  induction l as [|y l IH]; [reflexivity|].
  cbn [insert_desc]. destruct (Z.leb_spec (snd y) (snd x)) as [Hle | Hlt];
    [reflexivity|].
  cbn [filter] in *. rewrite IH.
  destruct (Z.eqb_spec (snd x) c) as [Ex | Ex];
    destruct (Z.eqb_spec (snd y) c) as [Ey | Ey]; try reflexivity. lia.
Qed.

Lemma sorted_desc_stable (c : Z) (l : list (string * Z)) :
  filter (fun kv => snd kv =? c) (sorted_desc l)
  = filter (fun kv => snd kv =? c) l.
Proof.
  induction l as [|x l IH]; [reflexivity|].
  cbn [sorted_desc fold_right]. fold (sorted_desc l).
  rewrite insert_desc_stable. cbn [filter]. now rewrite IH.
Qed.

Lemma wf_permutation {V : Type} (d d' : Dict.t V) :
  Permutation d d' -> Dict.wf d -> Dict.wf d'.
Proof.
  unfold Dict.wf, Dict.keys. intros Hp.
  apply Permutation_NoDup. now apply Permutation_map.
Qed.

(** Two dictionaries with the same items have the same lookups. *)
Lemma same_items_same_lookups {V : Type} (d d' : Dict.t V) :
  Dict.wf d -> Dict.wf d' ->
  (forall kv, In kv d -> In kv d') ->
  (forall kv, In kv d' -> In kv d) ->
  forall k, Dict.get k d = Dict.get k d'.
Proof.
  intros Hwf Hwf' H1 H2 k.
  destruct (Dict.get k d) as [v|] eqn:E.
  - apply get_In in E. symmetry. now apply wf_In_get; [|apply H1].
  - destruct (Dict.get k d') as [v'|] eqn:E'; [|reflexivity].
    apply get_In, H2 in E'. apply (wf_In_get _ _ _ Hwf) in E'. congruence.
Qed.

Lemma wf_nodup_items {V : Type} (d : Dict.t V) : Dict.wf d -> NoDup d.
Proof.
  unfold Dict.wf, Dict.keys. apply NoDup_map_inv.
Qed.

Lemma same_lookups_permutation {V : Type} (d d' : Dict.t V) :
  Dict.wf d -> Dict.wf d' ->
  (forall k, Dict.get k d = Dict.get k d') -> Permutation d d'.
Proof.
  intros Hwf Hwf' H.
  apply NoDup_Permutation; try now apply wf_nodup_items.
  intros [k v]. split; intros Hin.
  - apply get_In. rewrite <- H. now apply wf_In_get.
  - apply get_In. rewrite H. now apply wf_In_get.
Qed.

Section CustomOrder.

Variable data : Dict.t Z.

Let sub (acc : Dict.t Z) : Prop :=
  forall k v, Dict.get k acc = Some v -> Dict.get k data = Some v.

Lemma pick_keeps_sub (custom_order : list string) (acc : Dict.t Z) :
  sub acc ->
  sub (fold_left (fun ordered_data item =>
                    match Dict.get item data with
                    | Some count => Dict.set item count ordered_data
                    | None => ordered_data
                    end) custom_order acc).
Proof.
  revert acc. induction custom_order as [|item co IH]; intros acc Hacc;
    [exact Hacc|].
  cbn [fold_left]. apply IH.
  destruct (Dict.get item data) as [count|] eqn:E; [|exact Hacc].
  intros k v Hk. destruct (string_dec item k) as [<- | Hne].
  - rewrite get_set_eq in Hk. congruence.
  - rewrite get_set_ne in Hk by exact Hne. now apply Hacc.
Qed.

Lemma rest_keeps_sub (l : list (string * Z)) (acc : Dict.t Z) :
  (forall k v, In (k, v) l -> Dict.get k data = Some v) ->
  sub acc ->
  sub (fold_left (fun ordered_data kv =>
                    if Dict.has (fst kv) ordered_data then ordered_data
                    else Dict.set (fst kv) (snd kv) ordered_data) l acc).
Proof.
  revert acc. induction l as [|[k0 v0] l IH]; intros acc Hl Hacc; [exact Hacc|].
  cbn [fold_left fst snd]. apply IH; [intros; apply Hl; now right|].
  destruct (Dict.has k0 acc); [exact Hacc|].
  intros k v Hk. destruct (string_dec k0 k) as [<- | Hne].
  - rewrite get_set_eq in Hk. injection Hk as <-. apply Hl. now left.
  - rewrite get_set_ne in Hk by exact Hne. now apply Hacc.
Qed.

Lemma rest_keeps_keys (l : list (string * Z)) (acc : Dict.t Z) (k : string) :
  Dict.has k acc = true ->
  Dict.has k (fold_left (fun ordered_data kv =>
                           if Dict.has (fst kv) ordered_data then ordered_data
                           else Dict.set (fst kv) (snd kv) ordered_data) l acc)
  = true.
Proof.
  revert acc. induction l as [|[k0 v0] l IH]; intros acc Hk; [exact Hk|].
  cbn [fold_left fst snd]. apply IH.
  destruct (Dict.has k0 acc) eqn:E; [exact Hk|].
  apply has_set. now right.
Qed.

Lemma rest_adds_keys (l : list (string * Z)) (acc : Dict.t Z) (k : string) (v : Z) :
  In (k, v) l ->
  Dict.has k (fold_left (fun ordered_data kv =>
                           if Dict.has (fst kv) ordered_data then ordered_data
                           else Dict.set (fst kv) (snd kv) ordered_data) l acc)
  = true.
Proof.
  revert acc. induction l as [|[k0 v0] l IH]; intros acc Hin; [destruct Hin|].
  cbn [fold_left fst snd]. destruct Hin as [[= -> ->] | Hin]; [|now apply IH].
  apply rest_keeps_keys.
  destruct (Dict.has k acc) eqn:E; [exact E|]. apply has_set. now left.
Qed.

End CustomOrder.

(** Ordering without zero-filling keeps the data. *)
Lemma order_lookups (data : Dict.t Z) (question_text : string)
      (include_zeros : bool) :
  Dict.wf data ->
  include_zeros = false \/ ~ frequency_question question_text ->
  forall k, Dict.get k (order_data_for_chart data question_text include_zeros)
            = Dict.get k data.
Proof.
  intros Hwf Hcase k. unfold order_data_for_chart.
  destruct (get_custom_order question_text) as [custom_order|].
  - assert (Hbranch : (include_zeros
              && (PyStr.contains "how many trips" (PyStr.lower question_text)
                  || PyStr.contains "how many times" (PyStr.lower question_text)))%bool
              = false).
    { destruct Hcase as [-> | Hnf]; [reflexivity|].
      apply andb_false_iff. right. apply orb_false_iff.
      split; apply contains_lower_false; intros H; apply Hnf;
        [now left | now right]. }
    rewrite Hbranch.
    set (picked := fold_left _ custom_order Dict.empty).
    set (res := fold_left _ (Dict.items data) picked).
    assert (Hsub : forall k v, Dict.get k res = Some v -> Dict.get k data = Some v).
    { apply rest_keeps_sub.
      - intros k0 v0 Hin. now apply wf_In_get.
      - apply pick_keeps_sub. intros k0 v0 H0. discriminate. }
    destruct (Dict.get k data) as [v|] eqn:E.
    + apply get_In in E.
      pose proof (rest_adds_keys (Dict.items data) picked k v E) as Hhas.
      fold res in Hhas. unfold Dict.has in Hhas.
      destruct (Dict.get k res) as [v'|] eqn:E'; [|discriminate].
      apply Hsub in E'. apply (wf_In_get _ _ _ Hwf) in E. congruence.
    + destruct (Dict.get k res) as [v'|] eqn:E'; [|reflexivity].
      apply Hsub in E'. congruence.
  - pose proof (sorted_desc_permutation (Dict.items data)) as Hp.
    assert (Hwf' : Dict.wf (sorted_desc (Dict.items data)))
      by (apply (wf_permutation data); [now symmetry | exact Hwf]).
    rewrite of_list_distinct by exact Hwf'.
    apply same_items_same_lookups; try assumption.
    + intros kv. now apply Permutation_in.
    + intros kv. apply Permutation_in. now symmetry.
Qed.

(** X7: unless a frequency question is drawn with zero-filling, ordering
    loses and invents nothing: every category keeps its count and the
    ordered data is the data in another order. *)
Theorem ordering_keeps_every_category (data : Dict.t Z) (question_text : string)
        (include_zeros : bool) :
  Dict.wf data ->
  include_zeros = false \/ ~ frequency_question question_text ->
  (forall k, Dict.get k (order_data_for_chart data question_text include_zeros)
             = Dict.get k data) /\
  Permutation (order_data_for_chart data question_text include_zeros) data.
Proof.
  intros Hwf Hcase. split; [now apply order_lookups|].
  apply same_lookups_permutation.
  - apply wf_order_data_for_chart.
  - exact Hwf.
  - now apply order_lookups.
Qed.

Lemma ordering_keeps_every_category_witness :
  (forall k, Dict.get k (order_data_for_chart transport_data
                           "How do you get there?" true)
             = Dict.get k transport_data) /\
  Permutation (order_data_for_chart transport_data "How do you get there?" true)
              transport_data.
Proof.
  apply (ordering_keeps_every_category transport_data "How do you get there?" true).
  - unfold Dict.wf. vm_compute. repeat constructor; simpl; intuition discriminate.
  - right. intros [H | H]; apply contains_lower_iff in H; vm_compute in H;
      discriminate.
Defined.

(** X8: a question without a custom order has its categories by descending
    count, categories of equal count in the order of the data. *)
Theorem default_order_descending_stable (data : Dict.t Z) (question_text : string)
        (include_zeros : bool) :
  Dict.wf data ->
  get_custom_order question_text = None ->
  let ordered := order_data_for_chart data question_text include_zeros in
  descending ordered /\
  forall c, filter (fun kv => snd kv =? c) ordered
            = filter (fun kv => snd kv =? c) data.
Proof.
  intros Hwf Hnone. cbv zeta. unfold order_data_for_chart. rewrite Hnone.
  assert (Hwf' : Dict.wf (sorted_desc (Dict.items data))).
  { apply (wf_permutation data); [|exact Hwf].
    symmetry. apply sorted_desc_permutation. }
  rewrite of_list_distinct by exact Hwf'. split.
  - apply sorted_desc_descending.
  - intros c. apply sorted_desc_stable.
Qed.

Lemma default_order_descending_stable_witness :
  order_data_for_chart transport_data "How do you get there?" false
  = [("Car", 5); ("Plane", 5); ("Train", 2); ("Bike", 2)] /\
  descending (order_data_for_chart transport_data "How do you get there?" false).
Proof.
  split; [vm_compute; reflexivity|].
  apply (default_order_descending_stable transport_data
           "How do you get there?" false).
  - unfold Dict.wf. vm_compute. repeat constructor; simpl; intuition discriminate.
  - vm_compute. reflexivity.
Defined.

End Ordering.

(** ** Pie charts and the survey results *)

Section Survey.

Import Needfinding.

Lemma zsum_positive (l : list Z) :
  Forall (fun v => 0 < v) l -> l <> [] -> 0 < zsum l.
Proof.
  intros H Hne. destruct H as [|v l Hv Hl]; [congruence|].
  assert (0 <= zsum l).
  { clear -Hl. induction Hl as [|w l Hw _ IH]; simpl; unfold zsum in *; lia. }
  cbn [zsum fold_right]. unfold zsum in *. lia.
Qed.

Lemma values_firstn {V : Type} (n : nat) (d : Dict.t V) :
  Dict.values (firstn n d) = firstn n (Dict.values d).
Proof.
  unfold Dict.values. symmetry. apply firstn_map.
Qed.

(** X9: when every count is positive and no category is called "Other
    Categories", the slices of the pie chart are positive and add up to the
    total of the data. *)
Theorem pie_chart_keeps_total (data : Dict.t Z) (question_text : string) :
  Dict.wf data ->
  Forall (fun v => 0 < v) (Dict.values data) ->
  ~ In "Other Categories" (Dict.keys data) ->
  let pie := create_pie_chart data question_text in
  zsum (Dict.values pie) = zsum (Dict.values data) /\
  Forall (fun v => 0 < v) (Dict.values pie).
Proof.
  intros Hwf Hpos Hother. cbv zeta.
  set (sorted_data := order_data_for_chart data question_text false).
  assert (Hperm : Permutation sorted_data data).
  { apply same_lookups_permutation.
    - apply wf_order_data_for_chart.
    - exact Hwf.
    - apply order_lookups; [exact Hwf | now left]. }
  assert (Hsum : zsum (Dict.values sorted_data) = zsum (Dict.values data)).
  { apply zsum_permutation. unfold Dict.values. now apply Permutation_map. }
  assert (Hpos' : Forall (fun v => 0 < v) (Dict.values sorted_data)).
  { assert (Hpv : Permutation (Dict.values data) (Dict.values sorted_data))
      by (unfold Dict.values; apply Permutation_map; now symmetry).
    exact (Permutation_Forall Hpv Hpos). }
  assert (Hother' : ~ In "Other Categories" (Dict.keys (firstn 7 sorted_data))).
  { intros Hin. apply Hother.
    apply (Permutation_in (l := Dict.keys sorted_data)).
    - unfold Dict.keys. now apply Permutation_map.
    - unfold Dict.keys in *. rewrite <- (firstn_skipn 7 sorted_data), map_app.
      apply in_or_app. now left. }
  assert (Htop : Dict.of_list (firstn 7 (Dict.items sorted_data))
                 = firstn 7 sorted_data).
  { apply of_list_distinct, wf_firstn, wf_order_data_for_chart. }
  unfold create_pie_chart. fold sorted_data. rewrite Htop.
  destruct (Nat.ltb_spec 8 (length sorted_data)) as [Hlen | Hlen];
    [|now split].
  pose proof (firstn_skipn 7 (Dict.values sorted_data)) as Hsplit.
  assert (Hrest : 0 < zsum (skipn 7 (Dict.values sorted_data))).
  { apply zsum_positive.
    - rewrite <- Hsplit in Hpos'. now apply Forall_app in Hpos'.
    - intros E. apply (f_equal (@length _)) in E.
      rewrite length_skipn in E. unfold Dict.values in E.
      rewrite length_map in E. simpl in E. lia. }
  destruct (Z.ltb_spec 0 (zsum (skipn 7 (Dict.values sorted_data))));
    [|lia].
  rewrite set_absent by exact Hother'.
  set (other_count := zsum (skipn 7 (Dict.values sorted_data))) in *.
  assert (Hvals : Dict.values (firstn 7 sorted_data
                               ++ [("Other Categories", other_count)])
                  = firstn 7 (Dict.values sorted_data) ++ [other_count]).
  { unfold Dict.values. rewrite map_app, firstn_map. reflexivity. }
  rewrite Hvals. split.
  - rewrite zsum_app. cbn [zsum fold_right]. rewrite <- Hsum.
    rewrite <- Hsplit at 2. rewrite zsum_app. unfold other_count. lia.
  - apply Forall_app. split.
    + rewrite <- Hsplit in Hpos'. now apply Forall_app in Hpos'.
    + repeat constructor. assumption.
Qed.

Lemma pie_chart_keeps_total_witness :
  zsum (Dict.values (create_pie_chart ten_categories "Which tool do you use most?"))
  = zsum (Dict.values ten_categories) /\
  Forall (fun v => 0 < v)
         (Dict.values (create_pie_chart ten_categories "Which tool do you use most?")).
Proof.
  apply (pie_chart_keeps_total ten_categories "Which tool do you use most?").
  - unfold Dict.wf. vm_compute. repeat constructor; simpl; intuition discriminate.
  - vm_compute. repeat constructor.
  - vm_compute. intuition discriminate.
Defined.

Lemma In_items_set {V : Type} (k k' : string) (v v' : V) (d : Dict.t V) :
  In (k', v') (Dict.set k v d) -> (k' = k /\ v' = v) \/ In (k', v') d.
Proof.
  induction d as [|[k0 v0] d IH]; simpl.
  - intros [[= <- <-] | []]. now left.
  - destruct (String.eqb k k0) eqn:E; simpl.
    + apply String.eqb_eq in E. subst k0.
      intros [[= <- <-] | H]; auto.
    + intros [H | H]; auto. destruct (IH H); auto.
Qed.

Lemma analyze_loop_items (all data : list question_data)
      (results : Dict.t result_entry) (figures : list chart) :
  incl data all ->
  (forall id e, In (id, e) results ->
     exists q, In q all /\ q_id q = id /\ entry_of q e /\
               (r_type e = select_all \/ r_type e = multiple_choice) /\
               r_statistics e <> []) ->
  forall id e, In (id, e) (fst (analyze_loop data results figures)) ->
     exists q, In q all /\ q_id q = id /\ entry_of q e /\
               (r_type e = select_all \/ r_type e = multiple_choice) /\
               r_statistics e <> [].
Proof.
  revert results figures.
  induction data as [|q data IH]; intros results figures Hincl Hres;
    [exact Hres|].
  assert (Hq : In q all) by (apply Hincl; now left).
  assert (Hincl' : incl data all) by (intros x Hx; apply Hincl; now right).
  cbn [analyze_loop].
  destruct (identify_question_type q) eqn:Ety; try (now apply IH).
  - destruct (process_select_all_question (q_answers q)) eqn:Ec;
      [now apply IH|].
    apply IH; [exact Hincl'|]. intros id e He.
    apply In_items_set in He. destruct He as [[-> ->] | He]; [|now apply Hres].
    exists q. unfold entry_of. rewrite Ety, Ec. cbn.
    repeat split; auto. discriminate.
  - destruct (process_multiple_choice_question (q_answers q)) eqn:Ec;
      [now apply IH|].
    apply IH; [exact Hincl'|]. intros id e He.
    apply In_items_set in He. destruct He as [[-> ->] | He]; [|now apply Hres].
    exists q. unfold entry_of. rewrite Ety, Ec. cbn.
    repeat split; auto. discriminate.
Qed.

(** X10: every entry of the results of [analyze_survey] is filed under the id
    of a select-all or multiple-choice question of the survey and holds
    what was counted for that question, which is at least one option:
    consent and free-text questions, and questions nobody answered, leave
    no entry. *)
Theorem survey_results_entries (data : list question_data)
        (results : Dict.t result_entry) (figures : list chart)
        (id : string) (e : result_entry) :
  analyze_survey data = Some (results, figures) ->
  Dict.get id results = Some e ->
  exists q, In q data /\ q_id q = id /\ entry_of q e /\
            (r_type e = select_all \/ r_type e = multiple_choice) /\
            r_statistics e <> [].
Proof.
  intros Hrun Hget. destruct data as [|q0 data]; [discriminate|].
  change (Some (analyze_loop (q0 :: data) Dict.empty [])
          = Some (results, figures)) in Hrun.
  apply (analyze_loop_items (q0 :: data) (q0 :: data) Dict.empty []).
  - apply incl_refl.
  - intros ? ? [].
  - remember (analyze_loop (q0 :: data) Dict.empty []) as out.
    replace out with (results, figures) by congruence.
    now apply get_In.
Qed.

Lemma survey_results_entries_witness :
  exists q, In q small_survey /\ q_id q = "q3" /\ entry_of q planning_entry /\
            (r_type planning_entry = select_all
             \/ r_type planning_entry = multiple_choice) /\
            r_statistics planning_entry <> [].
Proof.
  apply (survey_results_entries small_survey
           (fst (analyze_loop small_survey Dict.empty []))
           (snd (analyze_loop small_survey Dict.empty [])));
    vm_compute; reflexivity.
Defined.

End Survey.

(** ** Loading and the Likert data *)

Section Loading.

Import Prototype.

Lemma answers_of_app (df1 df2 : DataFrame) (q_id : string) :
  answers_of (df1 ++ df2) q_id = answers_of df1 q_id ++ answers_of df2 q_id.
Proof.
  unfold answers_of. now rewrite filter_app, map_app.
Qed.

Lemma frame_answers (id text q_id : string) (l : list string) (n : nat) :
  map answer
      (filter (fun r => String.eqb (question_id r) q_id)
              (map (fun ia => mkRow id text (snd ia) (Z.of_nat (fst ia)))
                   (combine (seq n (length l)) l)))
  = if String.eqb id q_id then l else [].
Proof.
  revert n. induction l as [|a l IH]; intros n.
  - simpl. now destruct (String.eqb id q_id).
  - cbn [length seq combine map filter question_id].
    specialize (IH (S n)).
    destruct (String.eqb id q_id); cbn [map answer snd];
      [now rewrite IH | exact IH].
Qed.

Lemma answers_of_frame (q : question) (q_id : string) :
  answers_of (question_frame q) q_id
  = if String.eqb (raw_id q) q_id then raw_answers q else [].
Proof.
  apply frame_answers.
Qed.

(** X11: loading keeps the answers: the answers that the frame holds for a
    question id are the answers of the questions with this id, in the order
    of the input, and the frame has one row per answer; an input without
    questions raises. *)
Theorem loaded_answers (data : list question) :
  (data = [] -> load_and_prepare_data data = Raise ValueError) /\
  (data <> [] ->
   exists df,
     load_and_prepare_data data = Ok df /\
     (forall q_id, answers_of df q_id = raw_answers_of data q_id) /\
     length df = length (flat_map raw_answers data)).
Proof.
  split; [now intros ->|].
  intros Hne. exists (flat_map question_frame data).
  split; [destruct data; [congruence | reflexivity]|]. split.
  - intros q_id. clear Hne. induction data as [|q data IH]; [reflexivity|].
    cbn [flat_map raw_answers_of]. rewrite answers_of_app, answers_of_frame.
    unfold raw_answers_of in IH. now rewrite IH.
  - clear Hne. induction data as [|q data IH]; [reflexivity|].
    cbn [flat_map]. rewrite !length_app, IH. f_equal.
    unfold question_frame. rewrite length_map, length_combine, length_seq.
    apply Nat.min_id.
Qed.

Lemma loaded_answers_witness :
  exists df,
    load_and_prepare_data raw_example = Ok df /\
    (forall q_id, answers_of df q_id = raw_answers_of raw_example q_id) /\
    length df = length (flat_map raw_answers raw_example).
Proof.
  apply (proj2 (loaded_answers raw_example)). discriminate.
Defined.

(** X12: when the answers of every listed question parse, the Likert data
    has, for every prototype and every listed question, the values parsed
    from the answers to the question with the listed id, under the
    question's label (for a list of questions without a prototype or a
    label twice, as the script's list is). *)
Theorem likert_data_structure (isdigit : string -> bool)
        (int : string -> option Z) (df : DataFrame)
        (likert_questions : Dict.t (list (string * string))) :
  Dict.wf likert_questions ->
  Forall (fun pq => NoDup (map snd (snd pq))) likert_questions ->
  (forall pq ql, In pq likert_questions -> In ql (snd pq) ->
                 parses isdigit int df (fst ql)) ->
  get_likert_data isdigit int df likert_questions
  = Ok (map (fun pq =>
               (fst pq,
                map (fun ql => (snd ql, parsed isdigit int df (fst ql)))
                    (snd pq)))
            likert_questions).
Proof.
  intros Hwf Hlabels Hparses.
  apply get_likert_data_returns; [exact Hwf | exact Hlabels|].
  intros pq ql Hpq Hql. destruct (Hparses pq ql Hpq Hql) as (v & Hv).
  rewrite Hv. f_equal. symmetry. now apply parsed_Ok.
Qed.

Lemma likert_data_structure_witness :
  get_likert_data PyStr.ascii_isdigit PyStr.ascii_int
                  (flat_map question_frame answered_input)
                  identify_likert_questions
  = Ok (map (fun pq =>
               (fst pq,
                map (fun ql =>
                       (snd ql,
                        parsed PyStr.ascii_isdigit PyStr.ascii_int
                               (flat_map question_frame answered_input)
                               (fst ql)))
                    (snd pq)))
            identify_likert_questions).
Proof.
  apply (likert_data_structure PyStr.ascii_isdigit PyStr.ascii_int
           (flat_map question_frame answered_input)
           identify_likert_questions).
  - unfold Dict.wf. vm_compute. repeat constructor; simpl; intuition discriminate.
  - vm_compute. repeat constructor; simpl; intuition discriminate.
  - intros pq ql Hpq Hql. unfold parses.
    vm_compute in Hpq.
    repeat (destruct Hpq as [<- | Hpq];
            [vm_compute in Hql;
             repeat (destruct Hql as [<- | Hql];
                     [eexists; vm_compute; reflexivity|]);
             destruct Hql|]).
    destruct Hpq.
Defined.

Lemma mapM_Ok_iff {A B : Type} (f : A -> result B) (l : list A) (bs : list B) :
  mapM f l = Ok bs <-> Forall2 (fun a b => f a = Ok b) l bs.
Proof.
  split; [apply mapM_Ok_map | apply Forall2_mapM].
Qed.

(** X13: the parse of the answers returns exactly when [int] accepts every
    answer that passes [isdigit]; its values are then the values of these
    answers and of no other, at most one per answer.  When [int] rejects
    one of them the parse raises [ValueError], and nothing else is ever
    raised; the extraction of the Likert data then raises [ValueError]
    too.  [int] is consulted on the answers that pass [isdigit] only. *)
Theorem numeric_answers_outcome (isdigit : string -> bool)
        (int : string -> option Z) (answers : list string) :
  ((exists values, numeric_answers isdigit int answers = Ok values) <->
   forall a, In a answers -> isdigit a = true -> exists v, int a = Some v) /\
  (forall values,
      numeric_answers isdigit int answers = Ok values ->
      (forall v, In v values <->
                 exists a, In a answers /\ isdigit a = true /\ int a = Some v) /\
      (length values <= length answers)%nat) /\
  (numeric_answers isdigit int answers = Raise ValueError <->
   exists a, In a answers /\ isdigit a = true /\ int a = None) /\
  (forall e, numeric_answers isdigit int answers = Raise e -> e = ValueError) /\
  (forall int' : string -> option Z,
      (forall a, isdigit a = true -> int a = int' a) ->
      numeric_answers isdigit int answers
      = numeric_answers isdigit int' answers) /\
  (forall (df : DataFrame) (likert_questions : Dict.t (list (string * string)))
          pq ql,
      In pq likert_questions -> In ql (snd pq) ->
      answers_of df (fst ql) = answers ->
      (exists a, In a answers /\ isdigit a = true /\ int a = None) ->
      get_likert_data isdigit int df likert_questions = Raise ValueError).
Proof.
  assert (Hok : forall values,
             numeric_answers isdigit int answers = Ok values <->
             Forall2 (fun a v => int a = Some v) (filter isdigit answers)
                     values).
  { intros values. unfold numeric_answers. rewrite mapM_Ok_iff.
    split; intros H; (eapply Forall2_impl; [|exact H]); cbv beta;
      intros a v; destruct (int a); congruence. }
  assert (Hraise : numeric_answers isdigit int answers = Raise ValueError <->
                   exists a, In a answers /\ isdigit a = true /\ int a = None).
  { clear Hok. unfold numeric_answers. split.
    - induction answers as [|a l IH]; [discriminate|].
      cbn [filter]. destruct (isdigit a) eqn:Ed.
      + cbn [mapM]. destruct (int a) as [v|] eqn:Ei; cbn [bind].
        * destruct (mapM _ (filter isdigit l)) as [vs|e] eqn:El; cbn [bind];
            [discriminate|].
          intros [= ->]. destruct (IH eq_refl) as (b & Hb & Hd & Hi).
          exists b. simpl. auto.
        * intros _. exists a. simpl. auto.
      + intros H. destruct (IH H) as (b & Hb & Hd & Hi).
        exists b. simpl. auto.
    - intros (a & Ha & Hd & Hi). apply mapM_raises.
      + intros b _. destruct (int b); [right; eauto | now left].
      + exists a. split; [now apply filter_In | now rewrite Hi]. }
  split; [|split; [|split; [exact Hraise|split;
                               [apply numeric_answers_raises|split]]]].
  - split.
    + intros (values & Hv) a Ha Hd.
      destruct (int a) as [v|] eqn:Ei; [now exists v|].
      assert (Hr : numeric_answers isdigit int answers = Raise ValueError)
        by (apply Hraise; now exists a).
      congruence.
    + intros Hall.
      case_eq (numeric_answers isdigit int answers);
        [intros values _; now exists values|].
      intros e E. rewrite (numeric_answers_raises _ _ _ _ E) in E.
      apply Hraise in E. destruct E as (a & Ha & Hd & Hi).
      destruct (Hall a Ha Hd) as (v & Hv). congruence.
  - intros values Hv. apply Hok in Hv.
    assert (Hlen : (length (filter isdigit answers) <= length answers)%nat)
      by apply filter_length_le.
    assert (Hfilter : forall a, In a (filter isdigit answers) <->
                                In a answers /\ isdigit a = true)
      by (intros a; apply filter_In).
    clear Hok Hraise. revert Hv Hlen Hfilter.
    generalize (filter isdigit answers). intros l Hv Hlen Hfilter. split.
    + intros v. split.
      * intros Hin.
        assert (Hex : exists a, In a l /\ int a = Some v).
        { clear -Hv Hin. induction Hv as [|a0 v0 l vs H0 _ IH]; [destruct Hin|].
          destruct Hin as [<- | Hin]; [exists a0; simpl; auto|].
          destruct (IH Hin) as (a & Ha & Hi). exists a. simpl. auto. }
        destruct Hex as (a & Ha & Hi).
        apply Hfilter in Ha. destruct Ha as (Ha & Hd). now exists a.
      * intros (a & Ha & Hd & Hi).
        assert (Hf : In a l) by now apply Hfilter.
        clear -Hv Hf Hi. induction Hv as [|a0 v0 l vs H0 _ IH]; [destruct Hf|].
        destruct Hf as [-> | Hf]; [left; congruence | right; now apply IH].
    + now rewrite <- (Forall2_length Hv).
  - intros int' Hsame. unfold numeric_answers. clear Hok Hraise.
    induction answers as [|a l IH]; [reflexivity|].
    cbn [filter]. destruct (isdigit a) eqn:Ed; [|exact IH].
    cbn [mapM]. rewrite <- (Hsame a Ed). destruct (int a); [|reflexivity].
    cbn [bind]. now rewrite IH.
  - intros df likert_questions pq ql Hpq Hql Hans Hbad.
    apply get_likert_data_raises. exists pq, ql.
    split; [exact Hpq|]. split; [exact Hql|].
    intros (values & Hv). rewrite Hans in Hv.
    apply Hraise in Hbad. congruence.
Qed.

Lemma count_cons (v i : Z) (data : list Z) :
  count (v :: data) i = (if v =? i then 1 else 0) + count data i.
Proof.
  unfold count. cbn [count_occ].
  destruct (Z.eq_dec v i) as [-> | Hne].
  - rewrite Z.eqb_refl. lia.
  - apply Z.eqb_neq in Hne. now rewrite Hne.
Qed.

Lemma count_nonneg (data : list Z) (i : Z) : 0 <= count data i.
Proof. unfold count. lia. Qed.

(** X14: a row of the contingency table counts the values from 1 to 5 and
    leaves every other value out: its entries are not negative and add up
    to the number of values on the scale. *)
Theorem rating_row_counts_scale (data : list Z) :
  length (rating_row data) = 5%nat /\
  Forall (fun c => 0 <= c) (rating_row data) /\
  zsum (rating_row data) = Z.of_nat (length (filter in_scale data)).
Proof.
  split; [reflexivity|]. split.
  - unfold rating_row. apply Forall_forall. intros c Hc.
    apply in_map_iff in Hc. destruct Hc as (i & <- & _). apply count_nonneg.
  - induction data as [|v data IH]; [reflexivity|].
    unfold rating_row, ratings in *. cbn [map zsum fold_right] in *.
    rewrite !count_cons. cbn [filter]. unfold in_scale at 1.
    destruct (Z.eqb_spec v 1), (Z.eqb_spec v 2), (Z.eqb_spec v 3),
      (Z.eqb_spec v 4), (Z.eqb_spec v 5);
      destruct (Z.leb_spec 1 v), (Z.leb_spec v 5);
      cbn [andb length]; lia.
Qed.

End Loading.

(** ** Contingency tables *)

Section Tables.

Import Prototype.

Lemma nth_nonneg (r : list Z) (j : nat) :
  Forall (fun v => 0 <= v) r -> 0 <= nth j r 0.
Proof.
  intros H. destruct (nth_in_or_default j r 0) as [Hin | ->]; [|lia].
  rewrite Forall_forall in H. now apply H.
Qed.

Lemma column_bound (t : table) (r : list Z) (j : nat) :
  count_table t -> In r t -> 0 <= nth j r 0 <= column j t.
Proof.
  unfold column. induction 1 as [|r0 t [_ Hr0] Ht IH]; intros Hin;
    [destruct Hin|].
  cbn [map zsum fold_right].
  assert (Hrest : 0 <= zsum (map (fun r => nth j r 0) t)).
  { clear -Ht. induction Ht as [|r1 t [_ Hr1] _ IH]; simpl; [lia|].
    pose proof (nth_nonneg r1 j Hr1). unfold zsum in *. lia. }
  pose proof (nth_nonneg r0 j Hr0). unfold zsum in *.
  destruct Hin as [<- | Hin]; [lia|]. specialize (IH Hin). lia.
Qed.

Lemma col_sums_columns (t : table) :
  col_sums t = [column 0 t; column 1 t; column 2 t; column 3 t; column 4 t].
Proof. reflexivity. Qed.

Lemma select_cols_sum (t : table) (r : list Z) :
  count_table t -> In r t ->
  zsum (select_cols (map (fun s => 0 <? s) (col_sums t)) r) = zsum r.
Proof.
  intros Ht Hin. rewrite col_sums_columns.
  pose proof (column_bound t r 0 Ht Hin) as H0.
  pose proof (column_bound t r 1 Ht Hin) as H1.
  pose proof (column_bound t r 2 Ht Hin) as H2.
  pose proof (column_bound t r 3 Ht Hin) as H3.
  pose proof (column_bound t r 4 Ht Hin) as H4.
  unfold count_table in Ht. rewrite Forall_forall in Ht.
  destruct (Ht r Hin) as [Hlen _].
  destruct r as [|r0 [|r1 [|r2 [|r3 [|r4 [|]]]]]]; try discriminate.
  cbn [nth] in *. unfold select_cols. cbn [map combine].
  destruct (Z.ltb_spec 0 (column 0 t)), (Z.ltb_spec 0 (column 1 t)),
    (Z.ltb_spec 0 (column 2 t)), (Z.ltb_spec 0 (column 3 t)),
    (Z.ltb_spec 0 (column 4 t));
    cbn [filter fst map snd zsum fold_right]; lia.
Qed.

Lemma filter_table_sum (t : table) :
  count_table t -> table_sum (filter_table t) = table_sum t.
Proof.
  intros Ht. unfold table_sum, filter_table. rewrite map_map. f_equal.
  apply map_ext_in. intros r Hr. now apply select_cols_sum.
Qed.

Lemma count_table_length5 (t : table) :
  count_table t -> Forall (fun r => length r = 5%nat) t.
Proof.
  apply Forall_impl. tauto.
Qed.

Lemma kept_columns_spec (t : table) (k : nat) :
  In k (kept_columns t) -> 0 < column k t.
Proof.
  unfold kept_columns. rewrite filter_In, col_sums_columns.
  intros [Hk Hpos]. apply Z.ltb_lt in Hpos. simpl in Hk.
  destruct Hk as [<- | [<- | [<- | [<- | [<- | []]]]]]; exact Hpos.
Qed.

(** X15: dropping the unused ratings loses no count and leaves no unused
    rating: the tested table has the total of the contingency table, all
    its rows have as many entries as there are used ratings, and each of
    its columns has a positive total. *)
Theorem filter_table_keeps_counts (t : table) :
  count_table t ->
  table_sum (filter_table t) = table_sum t /\
  Forall (fun r => length r = length (kept_columns t)) (filter_table t) /\
  (forall j, (j < length (kept_columns t))%nat -> 0 < column j (filter_table t)).
Proof.
  intros Ht. split; [now apply filter_table_sum|].
  pose proof (filter_table_drops t (count_table_length5 t Ht)) as Hdrop.
  unfold drops_zero_columns in Hdrop. rewrite Hdrop. split.
  - apply Forall_map, Forall_forall. intros r _. apply length_map.
  - intros j Hj. unfold column. rewrite map_map.
    assert (Hk : In (nth j (kept_columns t) 0%nat) (kept_columns t))
      by (now apply nth_In).
    apply kept_columns_spec in Hk. unfold column in Hk.
    erewrite map_ext; [exact Hk|].
    intros r. cbv beta.
    rewrite (nth_indep _ 0 (nth 0%nat r 0))
      by (now rewrite length_map).
    apply (map_nth (fun j0 => nth j0 r 0)).
Qed.

Lemma filter_table_keeps_counts_witness :
  table_sum (filter_table sparse_table) = table_sum sparse_table /\
  Forall (fun r => length r = length (kept_columns sparse_table))
         (filter_table sparse_table) /\
  (forall j, (j < length (kept_columns sparse_table))%nat ->
             0 < column j (filter_table sparse_table)).
Proof.
  apply (filter_table_keeps_counts sparse_table).
  unfold count_table, sparse_table.
  repeat constructor; discriminate.
Defined.

Lemma table_sum_nonneg (t : table) : count_table t -> 0 <= table_sum t.
Proof.
  unfold table_sum. induction 1 as [|r t [_ Hr] _ IH]; simpl; [lia|].
  assert (0 <= zsum r).
  { clear -Hr. induction Hr; simpl; unfold zsum in *; lia. }
  unfold zsum in *. lia.
Qed.

Lemma table_size_of_sum (t : table) : 0 < table_sum t -> 0 < table_size t.
Proof.
  unfold table_sum, table_size. intros H.
  destruct (concat t) eqn:E; [|simpl; lia].
  exfalso. assert (Hz : zsum (map zsum t) = 0); [|lia].
  clear H. induction t as [|r t IH]; [reflexivity|].
  simpl in E. apply app_eq_nil in E. destruct E as [-> E].
  simpl. now rewrite IH.
Qed.

(** X16: the guard of the omnibus step is the total of the contingency table:
    a question gets the placeholder "No variation in data" exactly when no
    group gave a rating from 1 to 5, and a table with a positive total is
    always handed to the test, also when all answers are the same
    rating. *)
Theorem omnibus_guard_is_total
        (chi2_contingency : table -> option Chi2ContingencyResult) (t : table) :
  count_table t ->
  (table_sum t = 0 ->
   omnibus_entry chi2_contingency t = placeholder t "No variation in data") /\
  (0 < table_sum t ->
   omnibus_entry chi2_contingency t
   = match chi2_contingency (filter_table t) with
     | Some r => mkOmnibus (statistic r) (pvalue r) (chi2_dof r)
                           (Np.lt (pvalue r) alpha) t None
     | None => placeholder t "Chi-squared test not applicable due to sparse data"
     end) /\
  (note (omnibus_entry chi2_contingency t) = Some "No variation in data"
   <-> table_sum t = 0).
Proof.
  intros Ht. pose proof (filter_table_sum t Ht) as Hsum.
  pose proof (table_sum_nonneg t Ht) as Hnn.
  assert (Hzero : table_sum t = 0 ->
            omnibus_entry chi2_contingency t
            = placeholder t "No variation in data").
  { intros H0. unfold omnibus_entry. rewrite Hsum, H0.
    now rewrite andb_false_r. }
  assert (Hpos : 0 < table_sum t ->
            omnibus_entry chi2_contingency t
            = match chi2_contingency (filter_table t) with
              | Some r => mkOmnibus (statistic r) (pvalue r) (chi2_dof r)
                                    (Np.lt (pvalue r) alpha) t None
              | None => placeholder t
                          "Chi-squared test not applicable due to sparse data"
              end).
  { intros H0. unfold omnibus_entry.
    assert (Hsize : 0 < table_size (filter_table t))
      by (apply table_size_of_sum; lia).
    apply Z.ltb_lt in Hsize. rewrite Hsize.
    assert (Hs : (0 <? table_sum (filter_table t)) = true)
      by (apply Z.ltb_lt; lia).
    now rewrite Hs. }
  split; [exact Hzero|]. split; [exact Hpos|]. split.
  - intros Hnote. destruct (Z.eq_dec (table_sum t) 0) as [E | E]; [exact E|].
    rewrite Hpos in Hnote by lia.
    destruct (chi2_contingency (filter_table t)); discriminate.
  - intros H0. now rewrite Hzero.
Qed.

End Tables.

Lemma omnibus_guard_is_total_witness :
  Prototype.omnibus_entry (Scipy.chi2_contingency markov_sf)
                          [[0; 0; 3; 0; 0]; [0; 0; 3; 0; 0]; [0; 0; 3; 0; 0]]
  = Prototype.mkOmnibus (Fin 0%Q) (Fin 1%Q) 0 false
      [[0; 0; 3; 0; 0]; [0; 0; 3; 0; 0]; [0; 0; 3; 0; 0]] None.
Proof.
  assert (Ht : count_table [[0; 0; 3; 0; 0]; [0; 0; 3; 0; 0]; [0; 0; 3; 0; 0]])
    by (repeat constructor; discriminate).
  destruct (omnibus_guard_is_total (Scipy.chi2_contingency markov_sf) _ Ht)
    as (_ & Hpos & _).
  rewrite Hpos; vm_compute; reflexivity.
Defined.

(** ** Descriptive statistics of any values *)

Section Stats.

Import Prototype.








Lemma fold_min_spec (l : list Z) (a : Z) :
  In (fold_left Z.min l a) (a :: l) /\
  forall x, In x (a :: l) -> fold_left Z.min l a <= x.
Proof.
  revert a. induction l as [|y l IH]; intros a.
  - simpl. split; [now left | intros x [<- | []]; lia].
  - cbn [fold_left]. destruct (IH (Z.min a y)) as (Hin & Hle). split.
    + destruct Hin as [Hin | Hin]; [|simpl; auto].
      rewrite <- Hin. destruct (Z.min_spec a y) as [[_ ->] | [_ ->]];
        simpl; auto.
    + intros x Hx. pose proof (Hle (Z.min a y) (or_introl eq_refl)).
      destruct Hx as [<- | [<- | Hx]]; try lia.
      apply Hle. now right.
Qed.

Lemma fold_max_spec (l : list Z) (a : Z) :
  In (fold_left Z.max l a) (a :: l) /\
  forall x, In x (a :: l) -> x <= fold_left Z.max l a.
Proof.
  revert a. induction l as [|y l IH]; intros a.
  - simpl. split; [now left | intros x [<- | []]; lia].
  - cbn [fold_left]. destruct (IH (Z.max a y)) as (Hin & Hle). split.
    + destruct Hin as [Hin | Hin]; [|simpl; auto].
      rewrite <- Hin. destruct (Z.max_spec a y) as [[_ ->] | [_ ->]];
        simpl; auto.
    + intros x Hx. pose proof (Hle (Z.max a y) (or_introl eq_refl)).
      destruct Hx as [<- | [<- | Hx]]; try lia.
      apply Hle. now right.
Qed.

Lemma sum_bounds (lo hi : Z) (values : list Z) :
  (forall v, In v values -> lo <= v <= hi) ->
  lo * Z.of_nat (length values) <= zsum values <= hi * Z.of_nat (length values).
Proof.
  induction values as [|v l IH]; intros H; cbn [length zsum fold_right].
  - lia.
  - pose proof (H v (or_introl eq_refl)).
    assert (Hl : forall x, In x l -> lo <= x <= hi) by (intros; apply H; now right).
    specialize (IH Hl). unfold zsum in IH. lia.
Qed.

Lemma insert_asc_permutation (x : Z) (l : list Z) :
  Permutation (Np.insert_asc x l) (x :: l).
Proof.
  induction l as [|y l IH]; simpl; [reflexivity|].
  destruct (x <=? y); [reflexivity|].
  rewrite perm_swap. now constructor.
Qed.

Lemma sort_permutation (l : list Z) : Permutation (Np.sort l) l.
Proof.
  induction l as [|x l IH]; simpl; [constructor|].
  rewrite insert_asc_permutation. now constructor.
Qed.

Lemma sorted_nth_in (l : list Z) (k : nat) :
  (k < length l)%nat -> In (nth k (Np.sort l) 0) l.
Proof.
  intros Hk. apply (Permutation_in (l := Np.sort l));
    [apply sort_permutation|].
  apply nth_In. now rewrite (Permutation_length (sort_permutation l)).
Qed.

(** X18: the statistics of a question lie between its values: the minimum and
    the maximum are values that bound all the others, and the mean and the
    median are numbers between them; [n] is the number of values.  This is
    for values that are not negative and add up to at most 2^53, as parsed
    Likert answers do: up to this bound the sum that [np.mean] divides is
    exact in binary64, and the rounded quotient stays between the minimum
    and the maximum; beyond it the mean can round below the minimum. *)
Theorem stats_between_min_and_max (values : list Z) (st : stats) :
  Forall (fun v => 0 <= v) values ->
  zsum values <= 2 ^ 53 ->
  question_stats values = Ok st ->
  In (s_min st) values /\ In (s_max st) values /\
  (forall v, In v values -> s_min st <= v <= s_max st) /\
  s_n st = Z.of_nat (length values) /\
  in_range (s_mean st) (inject_Z (s_min st)) (inject_Z (s_max st)) /\
  in_range (s_median st) (inject_Z (s_min st)) (inject_Z (s_max st)).
Proof.
  intros _ _ Hst. destruct values as [|v0 vs] eqn:Ev; [discriminate|].
  injection Hst as <-. cbn [s_min s_max s_n s_mean s_median].
  destruct (fold_min_spec vs v0) as (Hmin_in & Hmin).
  destruct (fold_max_spec vs v0) as (Hmax_in & Hmax).
  set (lo := fold_left Z.min vs v0) in *.
  set (hi := fold_left Z.max vs v0) in *.
  rewrite <- Ev in *.
  assert (Hne : values <> []) by (rewrite Ev; discriminate).
  assert (Hb : forall v, In v values -> lo <= v <= hi)
    by (intros v Hv; split; [now apply Hmin | now apply Hmax]).
  assert (Hn : (0 < length values)%nat) by (rewrite Ev; simpl; lia).
  split; [exact Hmin_in|]. split; [exact Hmax_in|]. split; [exact Hb|].
  split; [now rewrite Ev|]. split.
  - rewrite (mean_finite values Hne). cbn [in_range].
    pose proof (sum_bounds lo hi values Hb) as [Hlo Hhi].
    assert (HnQ : (0 < inject_Z (Z.of_nat (length values)))%Q)
      by (unfold Qlt; simpl; lia).
    split.
    + apply Qle_shift_div_l; [exact HnQ|].
      rewrite <- inject_Z_mult, <- Zle_Qle. exact Hlo.
    + apply Qle_shift_div_r; [exact HnQ|].
      rewrite <- inject_Z_mult, <- Zle_Qle. exact Hhi.
  - unfold Np.median.
    assert (Hhalf : (length values / 2 < length values)%nat)
      by (apply Nat.div_lt; lia).
    destruct (length values) as [|n] eqn:En; [lia|]. rewrite <- En in *.
    pose proof (Hb _ (sorted_nth_in values (length values / 2) Hhalf)) as H2.
    destruct (Nat.even (length values)).
    + assert (Hprev : (length values / 2 - 1 < length values)%nat) by lia.
      pose proof (Hb _ (sorted_nth_in values _ Hprev)) as H1.
      cbn [in_range].
      destruct H1 as [H1a H1b]. destruct H2 as [H2a H2b].
      rewrite Zle_Qle in H1a, H1b, H2a, H2b.
      revert H1a H1b H2a H2b.
      generalize (inject_Z lo) (inject_Z hi)
        (inject_Z (nth (length values / 2 - 1) (Np.sort values) 0))
        (inject_Z (nth (length values / 2) (Np.sort values) 0)).
      intros ql qh qa qb H1a H1b H2a H2b.
      split; [apply Qle_shift_div_l | apply Qle_shift_div_r];
        try reflexivity; Lqa.lra.
    + cbn [in_range]. destruct H2 as [H2a H2b].
      rewrite Zle_Qle in H2a, H2b. split; assumption.
Qed.

Lemma stats_between_min_and_max_witness :
  exists st,
    question_stats [4; 7; 2; 2] = Ok st /\
    s_min st = 2 /\ s_max st = 7 /\
    in_range (s_mean st) (inject_Z (s_min st)) (inject_Z (s_max st)) /\
    in_range (s_median st) (inject_Z (s_min st)) (inject_Z (s_max st)).
Proof.
  eexists. split; [reflexivity|]. split; [reflexivity|]. split; [reflexivity|].
  assert (Hpos : Forall (fun v => 0 <= v) [4; 7; 2; 2])
    by (repeat constructor; lia).
  assert (Hsum : zsum [4; 7; 2; 2] <= 2 ^ 53) by (vm_compute; discriminate).
  destruct (stats_between_min_and_max [4; 7; 2; 2] _ Hpos Hsum eq_refl)
    as (_ & _ & _ & _ & Hmean & Hmedian).
  split; [exact Hmean | exact Hmedian].
Defined.

End Stats.

(** ** What the tests raise, and the whole pipeline *)

Section PipelineSteps.

Import Prototype.

Lemma row_outcome (likert_data : LikertData) (question p : string) :
  (prototype_data <- getitem p likert_data ;;
   data <- getitem question prototype_data ;;
   Ok (rating_row data)) = Raise KeyError
  \/ exists r,
      (prototype_data <- getitem p likert_data ;;
       data <- getitem question prototype_data ;;
       Ok (rating_row data)) = Ok r.
Proof.
  unfold getitem. destruct (Dict.get p likert_data) as [pd|]; [|now left].
  cbn [bind]. destruct (Dict.get question pd) as [data|]; [|now left].
  right. cbn [bind]. eauto.
Qed.

Lemma build_table_outcome (order : list string) (likert_data : LikertData)
      (question : string) :
  build_table order likert_data question = Raise KeyError \/
  exists t, build_table order likert_data question = Ok t.
Proof.
  unfold build_table. induction order as [|p order IH].
  - right. now exists [].
  - cbn [mapM].
    destruct (row_outcome likert_data question p) as [-> | (r & ->)];
      [now left|].
    cbn [bind]. destruct IH as [-> | (t & ->)]; [now left|].
    right. cbn [bind]. eauto.
Qed.

(** X19: the omnibus step raises [StopIteration] on Likert data without any
    prototype, and [KeyError] when one of the prototypes A, B, C is missing
    or lacks one of the questions of the first prototype. *)
Theorem omnibus_raises
        (chi2_contingency : table -> option Chi2ContingencyResult)
        (likert_data : LikertData) :
  (likert_data = [] ->
   perform_chi_squared_omnibus chi2_contingency likert_data
   = Raise StopIteration) /\
  (forall q p,
      In q (questions_of likert_data) -> In p prototypes ->
      Dict.get p likert_data = None \/
      (exists pd, Dict.get p likert_data = Some pd /\ Dict.get q pd = None) ->
      perform_chi_squared_omnibus chi2_contingency likert_data
      = Raise KeyError).
Proof.
  split; [now intros ->|].
  intros q p Hq Hp Hmiss.
  assert (Hne : likert_data <> []) by (intros ->; destruct Hq).
  unfold perform_chi_squared_omnibus. rewrite omnibus_in_unfold by exact Hne.
  apply foldM_raises.
  - intros acc q0 _.
    destruct (build_table_outcome prototypes likert_data q0) as [-> | (t & ->)];
      [now left | right; cbn [bind]; eauto].
  - exists q. split; [exact Hq|]. intros acc.
    assert (Hraise : build_table prototypes likert_data q = Raise KeyError).
    { unfold build_table. apply mapM_raises.
      - intros p0 _. apply row_outcome.
      - exists p. split; [exact Hp|]. unfold getitem.
        destruct Hmiss as [-> | (pd & -> & Hpd)]; [reflexivity|].
        cbn [bind]. now rewrite Hpd. }
    now rewrite Hraise.
Qed.

Section LikertMap.

Variable values_of : string -> list Z.
Variable likert_questions : Dict.t (list (string * string)).




End LikertMap.

(** X21: the ranking counts are bounded by the number of answers, the results
    name the three prototypes in their order, and the test is given
    expected frequencies that add up to the total of the counts. *)
Theorem ranking_counts_bounded
        (chisquare : list Z -> list Q -> npfloat Q * npfloat Q)
        (answers : list string) :
  let r := ranking_entry chisquare answers in
  Dict.keys (counts r) = prototype_names /\
  (forall name c, Dict.get name (counts r) = Some c ->
                  0 <= c <= Z.of_nat (length answers)) /\
  0 <= total_responses r <= 3 * Z.of_nat (length answers) /\
  exists expected,
    (expected * 3 == inject_Z (total_responses r))%Q /\
    (rk_chi2 r, rk_p_value r)
    = chisquare (Dict.values (counts r)) [expected; expected; expected] /\
    rk_significant r = Np.lt (rk_p_value r) alpha.
Proof.
  assert (Hv : forall name, 0 <= votes name answers <= Z.of_nat (length answers)).
  { intros name. rewrite votes_length.
    pose proof (filter_length_le (PyStr.contains name) answers). lia. }
  cbv zeta. cbn [ranking_entry counts total_responses rk_chi2 rk_p_value
                 rk_significant].
  change (prototype_counts answers)
    with [("Prototype A", votes "Prototype A" answers);
          ("Prototype B", votes "Prototype B" answers);
          ("Prototype C", votes "Prototype C" answers)].
  split; [reflexivity|]. split.
  - intros name c. cbn [Dict.get].
    destruct (String.eqb name "Prototype A"); [intros [= <-]; apply Hv|].
    destruct (String.eqb name "Prototype B"); [intros [= <-]; apply Hv|].
    destruct (String.eqb name "Prototype C"); [intros [= <-]; apply Hv|].
    discriminate.
  - cbn [Dict.values map snd zsum fold_right]. split.
    + pose proof (Hv "Prototype A"). pose proof (Hv "Prototype B").
      pose proof (Hv "Prototype C"). lia.
    + eexists. split; [|split; [|reflexivity]].
      2: { cbn [repeat]. symmetry. apply surjective_pairing. }
      field.
Qed.

End PipelineSteps.

Section Pipeline.

Import Prototype.

Variable isdigit : string -> bool.
Variable int : string -> option Z.
Variable chi2_contingency : table -> option Chi2ContingencyResult.
Variable ks_2samp : list Z -> list Z -> option (npfloat Q * npfloat Q).
Variable chisquare : list Z -> list Q -> npfloat Q * npfloat Q.

Hypothesis ks_accepts_samples :
  forall data1 data2, data1 <> [] -> data2 <> [] ->
                      ks_2samp data1 data2 <> None.




End Pipeline.

Lemma omnibus_raises_witness :
  Prototype.perform_chi_squared_omnibus (Scipy.chi2_contingency markov_sf)
                                        incomplete_likert
  = Raise KeyError.
Proof.
  apply (proj2 (omnibus_raises (Scipy.chi2_contingency markov_sf)
                  incomplete_likert) "Understand Tasks" "C").
  - vm_compute. auto.
  - vm_compute. auto.
  - right. eexists. split; reflexivity.
Defined.


Lemma ranking_counts_bounded_witness :
  0 <= Prototype.total_responses
         (Prototype.ranking_entry (fun _ _ => (NaN, NaN))
            ["Prototype A and Prototype B"; "Prototype C"])
    <= 3 * 2.
Proof.
  apply (ranking_counts_bounded (fun _ _ => (NaN, NaN))
           ["Prototype A and Prototype B"; "Prototype C"]).
Defined.
